(** * Water softener salt level monitor

    A shallow embedding of [main/salt_level_monitor.c]: the Wi-Fi event
    handler, the MQTT event handler, the Home Assistant discovery
    publisher, the distance-to-percentage conversion and the sensor task.

    - C [int] values are [Z] with the 32-bit wrap-around written out;
    - C [float] values are IEEE-754 binary32 numbers, computed with the
      Standard Library's executable specification [SpecFloat] at
      precision 24 and maximal exponent 128;
    - C strings are [string]; [snprintf] is a small interpreter for the
      conversions the program uses, truncating at the buffer size;
    - the globals [s_retry_num], [s_wifi_event_group], [mqtt_connected]
      and the function-static [count] are fields of one [state] record;
    - calls into ESP-IDF and FreeRTOS are recorded as a list of [action]s;
    - the event loop and the sensor task interleave: a [tick] is either an
      event delivered to one of the two handlers, or the sensor task
      running to the next point where it reads [mqtt_connected].

    The build configuration ([CONFIG_...] macros of [sdkconfig]) is a
    parameter.  The order of binary32 numbers and the monotonicity of
    the conversion are proved through their real values. *)

From Stdlib Require Import ZArith Lia List String Ascii Bool Reals Lra.
From Stdlib Require Import Floats.SpecFloat DecimalString.
Import ListNotations.

Local Open Scope string_scope.
Local Open Scope Z_scope.

(** ** C strings and [snprintf] *)

Module CStr.

(** The double quote character (ASCII 34). *)
Definition dquote : ascii := ascii_of_nat 34.

(** String literals of the source are transcribed with an apostrophe
    wherever the C text has an escaped double quote; [c_lit] puts the
    double quotes back.  The source has no apostrophe of its own. *)
Fixpoint c_lit (s : string) : string :=
  match s with
  | EmptyString => EmptyString
  | String c rest =>
      String (if Ascii.eqb c "'"%char then dquote else c) (c_lit rest)
  end.

(** Decimal rendering of a natural number, as [%d] and the integer part
    of [%f] print it. *)
Definition dec (n : Z) : string := NilZero.string_of_uint (N.to_uint (Z.to_N n)).

(** [%.1f]: the argument is promoted to [double] (exactly), and printed
    with one digit after the point, the exact binary value being rounded
    to the nearest tenth, ties to even.  [tenths m e] is that number of
    tenths for the magnitude [m * 2^e]. *)
Definition tenths (m : positive) (e : Z) : Z :=
  let n := 10 * Zpos m in
  match e with
  | Zneg k =>
      let d := Z.pow_pos 2 k in
      let q := n / d in
      let r := n mod d in
      match 2 * r ?= d with
      | Lt => q
      | Gt => q + 1
      | Eq => if Z.even q then q else q + 1
      end
  | _ => n * 2 ^ e
  end.

Definition format_1f (x : spec_float) : string :=
  match x with
  | S754_nan => "nan"
  | S754_infinity s => if s then "-inf" else "inf"
  | S754_zero s => if s then "-0.0" else "0.0"
  | S754_finite s m e =>
      let t := tenths m e in
      (if s then "-" else "") ++ dec (t / 10) ++ "." ++ dec (t mod 10)
  end.

Definition format_d (n : Z) : string :=
  if n <? 0 then "-" ++ dec (- n) else dec n.

(** Arguments of a variadic call. *)
Inductive printf_arg : Type :=
| ArgStr (s : string)
| ArgInt (n : Z)
| ArgFloat (x : spec_float).

(** The conversions used by the [snprintf] calls of the program:
    [%s], [%d], [%.1f] and [%%].  A conversion whose argument is missing
    or of the wrong kind (undefined behaviour in C, absent from the
    program) prints nothing. *)
Fixpoint sprintf (fmt : string) (args : list printf_arg) : string :=
  match fmt with
  | EmptyString => EmptyString
  | String "%" (String "%" rest) => String "%" (sprintf rest args)
  | String "%" (String "s" rest) =>
      match args with
      | ArgStr s :: args' => s ++ sprintf rest args'
      | _ => sprintf rest (tl args)
      end
  | String "%" (String "d" rest) =>
      match args with
      | ArgInt n :: args' => format_d n ++ sprintf rest args'
      | _ => sprintf rest (tl args)
      end
  | String "%" (String "." (String "1" (String "f" rest))) =>
      match args with
      | ArgFloat x :: args' => format_1f x ++ sprintf rest args'
      | _ => sprintf rest (tl args)
      end
  | String c rest => String c (sprintf rest args)
  end.

(** [snprintf(buf, size, fmt, ...)] keeps at most [size - 1] characters. *)
Definition snprintf (size : nat) (fmt : string) (args : list printf_arg) : string :=
  substring 0 (size - 1) (sprintf fmt args).

End CStr.
Import CStr.

(** ** binary32 arithmetic *)

Module F32.

Definition prec : Z := 24.
Definition emax : Z := 128.

Definition float : Type := spec_float.

Definition add : float -> float -> float := SFadd prec emax.
Definition sub : float -> float -> float := SFsub prec emax.
Definition mul : float -> float -> float := SFmul prec emax.
Definition div : float -> float -> float := SFdiv prec emax.
Definition ltb : float -> float -> bool := SFltb.
Definition leb : float -> float -> bool := SFleb.

(** Conversion of an [int] to [float], and a float literal given as the
    dyadic number [m * 2^e]; both round to nearest, ties to even. *)
Definition of_int (n : Z) : float := binary_normalize prec emax n 0 false.
Definition of_dyadic (m e : Z) : float := binary_normalize prec emax m e false.

(** The numbers of the format: canonical mantissa and exponent. *)
Definition valid (x : float) : bool := valid_binary prec emax x.

Definition is_nan (x : float) : bool :=
  match x with S754_nan => true | _ => false end.

End F32.

(** ** Build configuration ([sdkconfig]) *)

Record Config : Type := {
  CONFIG_WIFI_MAXIMUM_RETRY : Z;
  CONFIG_MQTT_CLIENT_ID : string;
  CONFIG_TANK_HEIGHT_CM : Z;
  CONFIG_READING_INTERVAL_SEC : Z
}.

(** ** Program state and effects *)

Definition INT_MIN : Z := - 2 ^ 31.
Definition INT_MAX : Z := 2 ^ 31 - 1.

(** Wrap-around of 32-bit signed arithmetic. *)
Definition int32 (z : Z) : Z := (z + 2 ^ 31) mod 2 ^ 32 - 2 ^ 31.

Definition BIT0 : Z := 1.
Definition BIT1 : Z := 2.
Definition WIFI_CONNECTED_BIT : Z := BIT0.
Definition WIFI_FAIL_BIT : Z := BIT1.

Inductive esp_log_level : Type := LOG_ERROR | LOG_WARN | LOG_INFO.

(** What the program asks of ESP-IDF and FreeRTOS, in program order. *)
Inductive action : Type :=
| esp_wifi_connect
| ESP_LOG (level : esp_log_level) (fmt : string) (args : list printf_arg)
| esp_mqtt_client_publish (topic data : string) (len qos : Z) (retain : bool)
| vTaskDelay_ms (ms : Z).

(** Events delivered to [event_handler]: it is registered for every
    [WIFI_EVENT] id and for [IP_EVENT_STA_GOT_IP]. *)
Inductive wifi_event_t : Type :=
| WIFI_EVENT_WIFI_READY
| WIFI_EVENT_STA_START
| WIFI_EVENT_STA_STOP
| WIFI_EVENT_STA_CONNECTED
| WIFI_EVENT_STA_DISCONNECTED.

Inductive esp_event : Type :=
| WIFI_EVENT (event_id : wifi_event_t)
| IP_EVENT_STA_GOT_IP (ip : Z).

(** Events delivered to [mqtt_event_handler]. *)
Inductive esp_mqtt_error_type_t : Type :=
| MQTT_ERROR_TYPE_NONE
| MQTT_ERROR_TYPE_TCP_TRANSPORT
| MQTT_ERROR_TYPE_CONNECTION_REFUSED.

Record esp_mqtt_error_codes_t : Type := {
  error_type : esp_mqtt_error_type_t;
  esp_transport_sock_errno : Z;
  connect_return_code : Z
}.

Inductive esp_mqtt_event : Type :=
| MQTT_EVENT_CONNECTED
| MQTT_EVENT_DISCONNECTED
| MQTT_EVENT_ERROR (error_handle : esp_mqtt_error_codes_t)
| MQTT_EVENT_SUBSCRIBED
| MQTT_EVENT_PUBLISHED
| MQTT_EVENT_DATA
| MQTT_EVENT_BEFORE_CONNECT.

(** Where [sensor_task] stands: each phase begins at a read of
    [mqtt_connected], so one task step reads the flag once. *)
Inductive task_phase : Type :=
| TaskCreated
| AwaitingSession
| PublishingDiscovery
| Running.

Record state : Type := {
  s_retry_num : Z;
  s_wifi_event_group : Z;
  mqtt_connected : bool;
  count : Z;
  phase : task_phase
}.

Definition initial_state : state :=
  {| s_retry_num := 0;
     s_wifi_event_group := 0;
     mqtt_connected := false;
     count := 0;
     phase := TaskCreated |}.

Definition xEventGroupSetBits (bits : Z) (s : state) : state :=
  {| s_retry_num := s_retry_num s;
     s_wifi_event_group := Z.lor (s_wifi_event_group s) bits;
     mqtt_connected := mqtt_connected s;
     count := count s;
     phase := phase s |}.

Definition set_retry_num (n : Z) (s : state) : state :=
  {| s_retry_num := n;
     s_wifi_event_group := s_wifi_event_group s;
     mqtt_connected := mqtt_connected s;
     count := count s;
     phase := phase s |}.

Definition set_mqtt_connected (b : bool) (s : state) : state :=
  {| s_retry_num := s_retry_num s;
     s_wifi_event_group := s_wifi_event_group s;
     mqtt_connected := b;
     count := count s;
     phase := phase s |}.

Definition set_count (n : Z) (s : state) : state :=
  {| s_retry_num := s_retry_num s;
     s_wifi_event_group := s_wifi_event_group s;
     mqtt_connected := mqtt_connected s;
     count := n;
     phase := phase s |}.

Definition set_phase (p : task_phase) (s : state) : state :=
  {| s_retry_num := s_retry_num s;
     s_wifi_event_group := s_wifi_event_group s;
     mqtt_connected := mqtt_connected s;
     count := count s;
     phase := p |}.

(** The link conditions a waiter reads off the event group. *)
Definition link_ready (s : state) : bool :=
  Z.testbit (s_wifi_event_group s) 0.
Definition link_failed (s : state) : bool :=
  Z.testbit (s_wifi_event_group s) 1.

Section Firmware.

Variable cfg : Config.

(** ** [event_handler] *)

Definition IP2STR (ip : Z) : list printf_arg :=
  [ArgInt (Z.land ip 255);
   ArgInt (Z.land (Z.shiftr ip 8) 255);
   ArgInt (Z.land (Z.shiftr ip 16) 255);
   ArgInt (Z.land (Z.shiftr ip 24) 255)].

Definition event_handler (ev : esp_event) (s : state) : state * list action :=
  match ev with
  | WIFI_EVENT WIFI_EVENT_STA_START => (s, [esp_wifi_connect])
  | WIFI_EVENT WIFI_EVENT_STA_DISCONNECTED =>
      if s_retry_num s <? CONFIG_WIFI_MAXIMUM_RETRY cfg then
        (set_retry_num (int32 (s_retry_num s + 1)) s,
         [esp_wifi_connect;
          ESP_LOG LOG_INFO "Retry to connect to the AP" [];
          ESP_LOG LOG_INFO "Connect to the AP fail" []])
      else
        (xEventGroupSetBits WIFI_FAIL_BIT s,
         [ESP_LOG LOG_INFO "Connect to the AP fail" []])
  | IP_EVENT_STA_GOT_IP ip =>
      (xEventGroupSetBits WIFI_CONNECTED_BIT (set_retry_num 0 s),
       [ESP_LOG LOG_INFO "Got IP:%d.%d.%d.%d" (IP2STR ip)])
  | WIFI_EVENT _ => (s, [])
  end.

(** ** [mqtt_event_handler] *)

Definition mqtt_event_handler (ev : esp_mqtt_event) (s : state) : state * list action :=
  match ev with
  | MQTT_EVENT_CONNECTED =>
      (set_mqtt_connected true s, [ESP_LOG LOG_INFO "MQTT_EVENT_CONNECTED" []])
  | MQTT_EVENT_DISCONNECTED =>
      (set_mqtt_connected false s, [ESP_LOG LOG_INFO "MQTT_EVENT_DISCONNECTED" []])
  | MQTT_EVENT_ERROR h =>
      (s,
       ESP_LOG LOG_INFO "MQTT_EVENT_ERROR" [] ::
       match error_type h with
       | MQTT_ERROR_TYPE_TCP_TRANSPORT =>
           [ESP_LOG LOG_ERROR "Last error code: 0x%x" [ArgInt (esp_transport_sock_errno h)]]
       | MQTT_ERROR_TYPE_CONNECTION_REFUSED =>
           [ESP_LOG LOG_ERROR "Connection refused error: 0x%x" [ArgInt (connect_return_code h)]]
       | MQTT_ERROR_TYPE_NONE => []
       end)
  | _ => (s, [])
  end.

(** ** [publish_ha_discovery] *)

Definition client_id : printf_arg := ArgStr (CONFIG_MQTT_CLIENT_ID cfg).

Definition distance_config_topic : string :=
  snprintf 128 "homeassistant/sensor/%s/distance/config" [client_id].

Definition distance_config_payload : string :=
  snprintf 512
    (c_lit ("{'name':'Salt Level Distance',"
         ++ "'state_topic':'homeassistant/sensor/%s/state',"
         ++ "'unit_of_measurement':'cm',"
         ++ "'value_template':'{{ value_json.distance }}',"
         ++ "'unique_id':'%s_distance',"
         ++ "'device':{'identifiers':['%s'],"
         ++ "'name':'Water Softener Salt Level',"
         ++ "'model':'ESP32 HC-SR04',"
         ++ "'manufacturer':'DIY'}}"))
    [client_id; client_id; client_id].

Definition percentage_config_topic : string :=
  snprintf 128 "homeassistant/sensor/%s/percentage/config" [client_id].

Definition percentage_config_payload : string :=
  snprintf 512
    (c_lit ("{'name':'Salt Level Percentage',"
         ++ "'state_topic':'homeassistant/sensor/%s/state',"
         ++ "'unit_of_measurement':'%%',"
         ++ "'value_template':'{{ value_json.percentage }}',"
         ++ "'unique_id':'%s_percentage',"
         ++ "'device':{'identifiers':['%s']}}"))
    [client_id; client_id; client_id].

Definition publish_ha_discovery (s : state) : list action :=
  if negb (mqtt_connected s) then
    [ESP_LOG LOG_WARN "MQTT not connected, skipping discovery" []]
  else
    [esp_mqtt_client_publish distance_config_topic distance_config_payload 0 1 true;
     ESP_LOG LOG_INFO "Published distance sensor discovery" [];
     esp_mqtt_client_publish percentage_config_topic percentage_config_payload 0 1 true;
     ESP_LOG LOG_INFO "Published percentage sensor discovery" []].

(** ** [read_distance_cm] (the mock sensor) *)

Definition read_distance_cm (s : state) : state * F32.float * list action :=
  let count' := int32 (count s + 1) in
  let distance :=
    F32.add (F32.of_int 10)
            (F32.mul (F32.of_int (Z.rem count' 50)) (F32.of_dyadic 3 (-1))) in
  (set_count count' s, distance,
   [ESP_LOG LOG_INFO "Mock sensor reading: %.1f cm" [ArgFloat distance]]).

(** ** [calculate_percentage] *)

Definition calculate_percentage (distance_cm : F32.float) : F32.float :=
  let tank_height := F32.of_int (CONFIG_TANK_HEIGHT_CM cfg) in
  let salt_height := F32.sub tank_height distance_cm in
  let percentage := F32.mul (F32.div salt_height tank_height) (F32.of_int 100) in
  let percentage :=
    if F32.ltb percentage (F32.of_int 0) then F32.of_int 0 else percentage in
  let percentage :=
    if F32.ltb (F32.of_int 100) percentage then F32.of_int 100 else percentage in
  percentage.

(** ** [sensor_task] *)

Definition state_topic : string :=
  snprintf 128 "homeassistant/sensor/%s/state" [client_id].

Definition telemetry_payload (distance percentage : F32.float) : string :=
  snprintf 256 (c_lit "{'distance':%.1f,'percentage':%.1f}")
           [ArgFloat distance; ArgFloat percentage].

(** The [while (!mqtt_connected)] test and the delay that follows it. *)
Definition await_session (s : state) : state * list action :=
  if negb (mqtt_connected s) then
    (set_phase AwaitingSession s, [vTaskDelay_ms 1000])
  else
    (set_phase PublishingDiscovery s, [vTaskDelay_ms 2000]).

(** One iteration of the [while (1)] loop; [msg_id] is what
    [esp_mqtt_client_publish] returns if it is called. *)
Definition telemetry_cycle (msg_id : Z) (s : state) : state * list action :=
  let '(s1, distance, log_read) := read_distance_cm s in
  let percentage := calculate_percentage distance in
  let log_level :=
    ESP_LOG LOG_INFO "Distance: %.1f cm, Salt level: %.1f%%"
            [ArgFloat distance; ArgFloat percentage] in
  let publish :=
    if mqtt_connected s1 then
      [esp_mqtt_client_publish state_topic (telemetry_payload distance percentage) 0 0 false;
       ESP_LOG LOG_INFO "Published to MQTT, msg_id=%d" [ArgInt msg_id]]
    else
      [ESP_LOG LOG_WARN "MQTT not connected, skipping publish" []] in
  (set_phase Running s1,
   (log_read ++ [log_level] ++ publish
    ++ [vTaskDelay_ms (int32 (CONFIG_READING_INTERVAL_SEC cfg * 1000))])%list).

Definition sensor_task (msg_id : Z) (s : state) : state * list action :=
  match phase s with
  | TaskCreated =>
      let '(s', acts) := await_session s in
      (s', ESP_LOG LOG_INFO "Waiting for MQTT connection..." [] :: acts)
  | AwaitingSession => await_session s
  | PublishingDiscovery =>
      (set_phase Running s,
       ([ESP_LOG LOG_INFO "Publishing Home Assistant discovery messages..." []]
        ++ publish_ha_discovery s
        ++ [ESP_LOG LOG_INFO "Discovery messages sent!" []])%list)
  | Running => telemetry_cycle msg_id s
  end.

(** ** The system: handlers and task interleaved

    The handlers run to completion on their dispatcher and are the only
    writers of the shared variables; a step of the sensor task reads
    [mqtt_connected] at most once and writes no shared variable.  A
    preemptive schedule of the program is therefore represented by the
    sequence of ticks, each task step standing at the moment of its
    read. *)

Inductive tick : Type :=
| WifiEvent (ev : esp_event)
| MqttEvent (ev : esp_mqtt_event)
| TaskStep (msg_id : Z).

Definition step (t : tick) (s : state) : state * list action :=
  match t with
  | WifiEvent ev => event_handler ev s
  | MqttEvent ev => mqtt_event_handler ev s
  | TaskStep msg_id => sensor_task msg_id s
  end.

Fixpoint run (ts : list tick) (s : state) : state * list action :=
  match ts with
  | [] => (s, [])
  | t :: ts' =>
      let '(s1, a1) := step t s in
      let '(s2, a2) := run ts' s1 in
      (s2, (a1 ++ a2)%list)
  end.

End Firmware.

(** ** Observations on traces *)

Definition is_int (z : Z) : Prop := INT_MIN <= z <= INT_MAX.

Definition is_publish (a : action) : bool :=
  match a with esp_mqtt_client_publish _ _ _ _ _ => true | _ => false end.

Definition is_log (a : action) : bool :=
  match a with ESP_LOG _ _ _ => true | _ => false end.

Definition is_wifi_connect (a : action) : bool :=
  match a with esp_wifi_connect => true | _ => false end.

(** A discovery message is a retained publish; telemetry is not retained. *)
Definition is_discovery (a : action) : bool :=
  match a with esp_mqtt_client_publish _ _ _ _ retain => retain | _ => false end.

(** The call site of [publish_ha_discovery] in [sensor_task] is announced
    by a log line of its own. *)
Definition is_discovery_call (a : action) : bool :=
  match a with
  | ESP_LOG LOG_INFO fmt [] =>
      String.eqb fmt "Publishing Home Assistant discovery messages..."
  | _ => false
  end.

Definition publishes (acts : list action) : list action := filter is_publish acts.

Definition discovery_messages (acts : list action) : nat :=
  List.length (filter is_discovery acts).

Definition discovery_calls (acts : list action) : nat :=
  List.length (filter is_discovery_call acts).

Definition delays (acts : list action) : list Z :=
  flat_map (fun a => match a with vTaskDelay_ms ms => [ms] | _ => [] end) acts.

(** What [publish_ha_discovery] itself puts out: its retained publishes
    and its three log lines.  No other function of the program emits any
    of them, so this part of a trace is the output of the invocations of
    the publisher, one after the other. *)
Definition is_publisher_output (a : action) : bool :=
  match a with
  | esp_mqtt_client_publish _ _ _ _ retain => retain
  | ESP_LOG _ fmt [] =>
      String.eqb fmt "MQTT not connected, skipping discovery"
      || String.eqb fmt "Published distance sensor discovery"
      || String.eqb fmt "Published percentage sensor discovery"
  | _ => false
  end.

Definition publisher_output (acts : list action) : list action :=
  filter is_publisher_output acts.

(** The state in which the task takes its step out of
    [PublishingDiscovery], the step that calls the publisher, if the run
    has one. *)
Fixpoint publishing_state (cfg : Config) (ts : list tick) (s : state) : option state :=
  match ts with
  | [] => None
  | t :: ts' =>
      match t, phase s with
      | TaskStep _, PublishingDiscovery => Some s
      | _, _ => publishing_state cfg ts' (fst (step cfg t s))
      end
  end.

(** The reading taken in the cycle that starts in state [s]. *)
Definition reading (s : state) : F32.float := snd (fst (read_distance_cm s)).

Definition skip_log : action :=
  ESP_LOG LOG_WARN "MQTT not connected, skipping publish" [].

(** Number of Disconnected-to-Connected transitions of the session flag
    along a run. *)
Fixpoint session_establishments (cfg : Config) (ts : list tick) (s : state) : nat :=
  match ts with
  | [] => 0
  | t :: ts' =>
      let s' := fst (step cfg t s) in
      ((if negb (mqtt_connected s) && mqtt_connected s' then 1 else 0)
       + session_establishments cfg ts' s')%nat
  end.

(** The number of times the failure bit goes from clear to set along a
    sequence of Wi-Fi events. *)
Fixpoint fail_raises (cfg : Config) (evs : list esp_event) (s : state) : nat :=
  match evs with
  | [] => 0
  | ev :: evs' =>
      let s' := fst (event_handler cfg ev s) in
      ((if negb (link_failed s) && link_failed s' then 1 else 0)
       + fail_raises cfg evs' s')%nat
  end.

Definition phase_rank (p : task_phase) : nat :=
  match p with
  | TaskCreated => 0
  | AwaitingSession => 1
  | PublishingDiscovery => 2
  | Running => 3
  end.

(** ** Registration records, as the interface describes them *)

Unset Elimination Schemes.
Inductive json : Type :=
| JStr (s : string)
| JRaw (s : string)
| JArr (items : list json)
| JObj (fields : list (string * json)).
Set Elimination Schemes.

Definition quoted (s : string) : string :=
  String dquote (s ++ String dquote EmptyString).

Fixpoint render (j : json) : string :=
  match j with
  | JStr s => quoted s
  | JRaw s => s
  | JArr items => "[" ++ String.concat "," (map render items) ++ "]"
  | JObj fields =>
      "{" ++ String.concat ","
               (map (fun kv => match kv with
                               | (k, v) => quoted k ++ ":" ++ render v
                               end) fields)
          ++ "}"
  end.

Inductive entity_kind : Type := Distance | Percentage.

Definition entity_name (k : entity_kind) : string :=
  match k with Distance => "distance" | Percentage => "percentage" end.



Definition discovery_topic (id : string) (k : entity_kind) : string :=
  "homeassistant/sensor/" ++ id ++ "/" ++ entity_name k ++ "/config".

Definition telemetry_topic (id : string) : string :=
  "homeassistant/sensor/" ++ id ++ "/state".



Definition measurement_record (distance percentage : F32.float) : json :=
  JObj [("distance", JRaw (format_1f distance));
        ("percentage", JRaw (format_1f percentage))].

(** A decimal number with exactly one digit after the point: an
    optional minus sign, one digit or more, the point, one digit. *)
Definition is_digit (c : ascii) : bool :=
  (48 <=? nat_of_ascii c)%nat && (nat_of_ascii c <=? 57)%nat.

Fixpoint digits_point_digit (seen : bool) (s : string) : bool :=
  match s with
  | EmptyString => false
  | String c rest =>
      if is_digit c then digits_point_digit true rest
      else if Ascii.eqb c "."%char then
        seen && match rest with
                | String f EmptyString => is_digit f
                | _ => false
                end
      else false
  end.

Definition one_decimal (s : string) : bool :=
  match s with
  | String c rest =>
      if Ascii.eqb c "-"%char then digits_point_digit false rest
      else digits_point_digit false s
  | EmptyString => false
  end.

Definition short_decimal (s : string) : bool :=
  one_decimal s && (String.length s <=? 5)%nat.

(** The integers [lo], [lo + 1], ..., [lo + n - 1]. *)
Fixpoint Z_seq (lo : Z) (n : nat) : list Z :=
  match n with
  | O => []
  | S k => lo :: Z_seq (lo + 1) k
  end.

(** The readings the mock sensor can produce: [count % 50] lies strictly
    between -50 and 50. *)
Definition mock_distance (r : Z) : F32.float :=
  F32.add (F32.of_int 10) (F32.mul (F32.of_int r) (F32.of_dyadic 3 (-1))).

(** The spec's clamp. *)
Definition clamp (x lo hi : F32.float) : F32.float :=
  if F32.ltb x lo then lo else if F32.ltb hi x then hi else x.

(** The session drops during the settle delay and comes back. *)
Definition drop_while_settling : list tick :=
  [MqttEvent MQTT_EVENT_CONNECTED;
   TaskStep 1;
   MqttEvent MQTT_EVENT_DISCONNECTED;
   TaskStep 1;
   MqttEvent MQTT_EVENT_CONNECTED;
   TaskStep 2].

(** A sample build configuration. *)
Definition sample_config : Config :=
  {| CONFIG_WIFI_MAXIMUM_RETRY := 5;
     CONFIG_MQTT_CLIENT_ID := "salt_level_monitor";
     CONFIG_TANK_HEIGHT_CM := 100;
     CONFIG_READING_INTERVAL_SEC := 60 |}.

(** A configuration whose client identity, a hundred characters long,
    does not fit the topic buffer. *)
Definition long_id_config : Config :=
  {| CONFIG_WIFI_MAXIMUM_RETRY := 5;
     CONFIG_MQTT_CLIENT_ID := string_of_list_ascii (repeat "a"%char 100);
     CONFIG_TANK_HEIGHT_CM := 100;
     CONFIG_READING_INTERVAL_SEC := 60 |}.


Definition id_101_config : Config :=
  {| CONFIG_WIFI_MAXIMUM_RETRY := 5;
     CONFIG_MQTT_CLIENT_ID := string_of_list_ascii (repeat "a"%char 101);
     CONFIG_TANK_HEIGHT_CM := 100;
     CONFIG_READING_INTERVAL_SEC := 60 |}.

(** A reading interval whose number of milliseconds is not an [int]. *)
Definition long_interval_config : Config :=
  {| CONFIG_WIFI_MAXIMUM_RETRY := 5;
     CONFIG_MQTT_CLIENT_ID := "salt_level_monitor";
     CONFIG_TANK_HEIGHT_CM := 100;
     CONFIG_READING_INTERVAL_SEC := 2147484 |}.

(** The scenario of the specification: the session connects, discovery
    is published, the session drops for one cycle and comes back. *)
Definition reconnect_scenario : list tick :=
  [MqttEvent MQTT_EVENT_CONNECTED;
   TaskStep 1; TaskStep 1; TaskStep 1;
   MqttEvent MQTT_EVENT_DISCONNECTED;
   TaskStep 2;
   MqttEvent MQTT_EVENT_CONNECTED;
   TaskStep 3].


(** ** Real-number reading of binary32

    The comparisons and the monotonicity of the conversion are proved
    through the real value of a binary32 number.  [bpow e] is [2^e];
    [F2R] is the value of a finite number; [key] extends it to the
    infinities, placed at [-2^128] and [2^128], one binade beyond the
    largest finite number, so that [key] is an order embedding of the
    numbers of the format. *)

Definition bpow (e : Z) : R := powerRZ 2 e.
Arguments bpow : simpl never.

Definition F2R (x : spec_float) : R :=
  match x with
  | S754_finite s m e =>
      if s then (- (IZR (Zpos m) * bpow e))%R else (IZR (Zpos m) * bpow e)%R
  | _ => 0%R
  end.

Definition key (x : spec_float) : R :=
  match x with
  | S754_infinity s => if s then (- bpow 128)%R else bpow 128
  | _ => F2R x
  end.

(** [inbetween x m l]: the location [l] places [x] in [[m, m + 1)]:
    on [m], below the middle, on the middle or above it. *)
Definition inbetween (x : R) (m : Z) (l : location) : Prop :=
  match l with
  | loc_Exact => x = IZR m
  | loc_Inexact Lt => (IZR m < x < IZR m + / 2)%R
  | loc_Inexact Eq => x = (IZR m + / 2)%R
  | loc_Inexact Gt => (IZR m + / 2 < x < IZR m + 1)%R
  end.

(** Mantissa and exponent in canonical position for binary32: at the
    least exponent -149 the mantissa is below [2^24]; above it the
    mantissa has exactly 24 digits. *)
Definition canonP (M E : Z) : Prop :=
  -149 <= E /\ 0 <= M < 2 ^ 24 /\ (-149 < E -> 2 ^ 23 <= M).

(** The second half of [binary_round_aux]: round the located mantissa
    to nearest even, renormalise after a carry, and overflow to
    infinity. *)
Definition finish (s : bool) (M : Z) (l : location) (E : Z) : spec_float :=
  let '(mrs, e) := shr_fexp F32.prec F32.emax (round_nearest_even M l) E loc_Exact in
  match shr_m mrs with
  | Z0 => S754_zero s
  | Zpos m => if e <=? F32.emax - F32.prec then S754_finite s m e else S754_infinity s
  | Zneg _ => S754_nan
  end.

(** [rounds_pos s X f]: [f] is the rounding of the positive real [X],
    with sign [s]; [RN X f]: [f] is the rounding to nearest even of the
    real [X]. *)
Definition rounds_pos (s : bool) (X : R) (f : spec_float) : Prop :=
  exists M l E,
    canonP M E /\ inbetween (X * bpow (- E)) M l /\ f = finish s M l E.

Definition RN (X : R) (f : spec_float) : Prop :=
  (X = 0%R /\ exists s, f = S754_zero s)
  \/ (0 < X /\ rounds_pos false X f)%R
  \/ (X < 0 /\ rounds_pos true (- X) f)%R.

(** A number of the format: canonical, and not NaN. *)
Definition good (f : spec_float) : Prop :=
  valid_binary F32.prec F32.emax f = true /\ f <> S754_nan.

Definition finite_or_zero (x : spec_float) : Prop :=
  match x with S754_zero _ | S754_finite _ _ _ => True | _ => False end.

(** The five outcomes of [finish] on the rounded mantissa [m2]. *)
Inductive finish_spec (s : bool) (m2 E : Z) : spec_float -> Prop :=
| finish_zero : m2 = 0 -> finish_spec s m2 E (S754_zero s)
| finish_finite p :
    m2 = Zpos p -> m2 < 2 ^ 24 -> E <= 104 ->
    finish_spec s m2 E (S754_finite s p E)
| finish_overflow :
    0 < m2 < 2 ^ 24 -> 104 < E -> finish_spec s m2 E (S754_infinity s)
| finish_carry :
    m2 = 2 ^ 24 -> E + 1 <= 104 ->
    finish_spec s m2 E (S754_finite s 8388608 (E + 1))
| finish_carry_overflow :
    m2 = 2 ^ 24 -> 104 < E + 1 -> finish_spec s m2 E (S754_infinity s).

(** What a [comparison] says of two reals. *)
Definition cmp_spec (c : comparison) (x y : R) : Prop :=
  match c with
  | Lt => (x < y)%R
  | Eq => x = y
  | Gt => (x > y)%R
  end.

(** ** Boot: [app_main], [wifi_init_sta], [mqtt_app_start]

    The remaining part of the build configuration, the calls of the boot
    path, and the return codes ESP-IDF gives to the calls that
    [ESP_ERROR_CHECK] guards. *)

Record NetConfig : Type := {
  CONFIG_WIFI_SSID : string;
  CONFIG_WIFI_PASSWORD : string;
  CONFIG_MQTT_BROKER_URL : string;
  CONFIG_MQTT_USERNAME : string;
  CONFIG_MQTT_PASSWORD : string
}.

Inductive esp_err_t : Type :=
| ESP_OK
| ESP_ERR_NVS_NO_FREE_PAGES
| ESP_ERR_NVS_NEW_VERSION_FOUND
| ESP_ERR_OTHER (code : Z).

Definition is_ok (r : esp_err_t) : bool :=
  match r with ESP_OK => true | _ => false end.

(** [esp_mqtt_client_config_t], as far as the program fills it; a field
    left out of the initializer is a null pointer. *)
Record esp_mqtt_client_config_t : Type := {
  broker_address_uri : string;
  credentials_client_id : string;
  credentials_username : option string;
  credentials_authentication_password : option string
}.

Inductive wifi_auth_mode_t : Type := WIFI_AUTH_WPA2_PSK.

Inductive handler_registration : Type :=
| WIFI_EVENT_ANY_ID
| IP_EVENT_GOT_IP_ONLY.

Inductive call : Type :=
| nvs_flash_init
| nvs_flash_erase
| xEventGroupCreate
| esp_netif_init
| esp_event_loop_create_default
| esp_netif_create_default_wifi_sta
| esp_wifi_init
| esp_event_handler_instance_register (r : handler_registration)
| esp_wifi_set_mode_STA
| esp_wifi_set_config (ssid password : string) (authmode : wifi_auth_mode_t)
| esp_wifi_start
| xEventGroupWaitBits (bits_to_wait_for : Z)
| esp_mqtt_client_init (mqtt_cfg : esp_mqtt_client_config_t)
| esp_mqtt_client_register_event
| esp_mqtt_client_start
| xTaskCreate (name : string) (stack_depth priority : Z)
| abort
| Act (a : action).

Record boot_returns : Type := {
  ret_nvs_flash_init : esp_err_t;
  ret_nvs_flash_erase : esp_err_t;
  ret_nvs_flash_init_again : esp_err_t;
  ret_esp_netif_init : esp_err_t;
  ret_esp_event_loop_create_default : esp_err_t;
  ret_esp_wifi_init : esp_err_t;
  ret_register_wifi_event : esp_err_t;
  ret_register_ip_event : esp_err_t;
  ret_esp_wifi_set_mode : esp_err_t;
  ret_esp_wifi_set_config : esp_err_t;
  ret_esp_wifi_start : esp_err_t
}.

(** How a boot computation ends: it returns, it aborts in
    [ESP_ERROR_CHECK], or it stays blocked in [xEventGroupWaitBits]
    because no delivered event sets a bit it waits for. *)
Inductive ending (A : Type) : Type :=
| Returns (a : A)
| Aborts
| Blocks.
Arguments Returns {A} a.
Arguments Aborts {A}.
Arguments Blocks {A}.

(** A boot computation: the calls made, in order, and the ending. *)
Definition Boot (A : Type) : Type := (list call * ending A)%type.

Definition boot_ret {A : Type} (a : A) : Boot A := ([], Returns a).

Definition boot_bind {A B : Type} (m : Boot A) (k : A -> Boot B) : Boot B :=
  match m with
  | (t, Returns a) => let '(t', e) := k a in ((t ++ t')%list, e)
  | (t, Aborts) => (t, Aborts)
  | (t, Blocks) => (t, Blocks)
  end.

Declare Scope boot_scope.
Delimit Scope boot_scope with boot.
Notation "x <- m ;; k" := (boot_bind m (fun x => k))
  (at level 61, m at next level, right associativity) : boot_scope.
Notation "m ;; k" := (boot_bind m (fun _ => k))
  (at level 61, right associativity) : boot_scope.

Definition do_call (c : call) : Boot unit := ([c], Returns tt).

Definition log_info (fmt : string) (args : list printf_arg) : Boot unit :=
  do_call (Act (ESP_LOG LOG_INFO fmt args)).

(** [ESP_ERROR_CHECK(x)], which aborts on any code but [ESP_OK], on an
    already computed code and on a call. *)
Definition ESP_ERROR_CHECK (r : esp_err_t) : Boot unit :=
  if is_ok r then boot_ret tt else ([abort], Aborts).

Definition checked (c : call) (r : esp_err_t) : Boot unit :=
  (do_call c ;; ESP_ERROR_CHECK r)%boot.

Definition trace {A : Type} (m : Boot A) : list call := fst m.
Definition ending_of {A : Type} (m : Boot A) : ending A := snd m.

Definition xEventGroupCreate_state (s : state) : state :=
  {| s_retry_num := s_retry_num s;
     s_wifi_event_group := 0;
     mqtt_connected := mqtt_connected s;
     count := count s;
     phase := phase s |}.

Definition bits_set (bits mask : Z) : bool := negb (Z.land bits mask =? 0).

Section Boot.

Variable cfg : Config.
Variable net : NetConfig.

(** [xEventGroupWaitBits(group, CONNECTED | FAIL, pdFALSE, pdFALSE,
    portMAX_DELAY)]: the caller sleeps while the event loop delivers
    events to [event_handler], and is woken with the value the group has
    at the moment one of the two bits is set (at once, if one is set
    already); no bit is cleared on exit and there is no timeout.  [evs]
    are the events the loop delivers from [esp_wifi_start] on; those
    that come after the deciding one are handed back, to be delivered
    while the rest of the program runs.  The actions of the handler are
    recorded after the call of the wait, whatever their true order with
    respect to the log line that precedes it. *)
Fixpoint wait_for_link (evs : list esp_event) (s : state)
  : Boot (Z * state * list esp_event) :=
  if bits_set (s_wifi_event_group s) (Z.lor WIFI_CONNECTED_BIT WIFI_FAIL_BIT) then
    boot_ret (s_wifi_event_group s, s, evs)
  else
    match evs with
    | [] => ([], Blocks)
    | ev :: evs' =>
        let '(s', acts) := event_handler cfg ev s in
        let '(t, e) := wait_for_link evs' s' in
        ((map Act acts ++ t)%list, e)
    end.

Definition wifi_init_sta (rets : boot_returns) (evs : list esp_event) (s : state)
  : Boot (state * list esp_event) :=
  (do_call xEventGroupCreate ;;
   checked esp_netif_init (ret_esp_netif_init rets) ;;
   checked esp_event_loop_create_default (ret_esp_event_loop_create_default rets) ;;
   do_call esp_netif_create_default_wifi_sta ;;
   checked esp_wifi_init (ret_esp_wifi_init rets) ;;
   checked (esp_event_handler_instance_register WIFI_EVENT_ANY_ID)
           (ret_register_wifi_event rets) ;;
   checked (esp_event_handler_instance_register IP_EVENT_GOT_IP_ONLY)
           (ret_register_ip_event rets) ;;
   checked esp_wifi_set_mode_STA (ret_esp_wifi_set_mode rets) ;;
   checked (esp_wifi_set_config (CONFIG_WIFI_SSID net) (CONFIG_WIFI_PASSWORD net)
                                WIFI_AUTH_WPA2_PSK)
           (ret_esp_wifi_set_config rets) ;;
   checked esp_wifi_start (ret_esp_wifi_start rets) ;;
   log_info "wifi_init_sta finished." [] ;;
   do_call (xEventGroupWaitBits (Z.lor WIFI_CONNECTED_BIT WIFI_FAIL_BIT)) ;;
   woken <- wait_for_link evs (xEventGroupCreate_state s) ;;
   let '(bits, s', rest) := woken in
   do_call (Act
     (if bits_set bits WIFI_CONNECTED_BIT then
        ESP_LOG LOG_INFO "Connected to AP SSID:%s" [ArgStr (CONFIG_WIFI_SSID net)]
      else if bits_set bits WIFI_FAIL_BIT then
        ESP_LOG LOG_INFO "Failed to connect to SSID:%s" [ArgStr (CONFIG_WIFI_SSID net)]
      else
        ESP_LOG LOG_ERROR "UNEXPECTED EVENT" [])) ;;
   boot_ret (s', rest))%boot.

Definition strlen (s : string) : Z := Z.of_nat (String.length s).

Definition mqtt_cfg : esp_mqtt_client_config_t :=
  {| broker_address_uri := CONFIG_MQTT_BROKER_URL net;
     credentials_client_id := CONFIG_MQTT_CLIENT_ID cfg;
     credentials_username :=
       if 0 <? strlen (CONFIG_MQTT_USERNAME net)
       then Some (CONFIG_MQTT_USERNAME net) else None;
     credentials_authentication_password :=
       if 0 <? strlen (CONFIG_MQTT_PASSWORD net)
       then Some (CONFIG_MQTT_PASSWORD net) else None |}.

(** The apostrophes of the username line are the source's own. *)
Definition mqtt_app_start : Boot unit :=
  (log_info "=== MQTT Configuration ===" [] ;;
   log_info "Broker URL: %s" [ArgStr (CONFIG_MQTT_BROKER_URL net)] ;;
   log_info "Client ID: %s" [ArgStr (CONFIG_MQTT_CLIENT_ID cfg)] ;;
   log_info "Username: '%s' (length: %d)"
            [ArgStr (CONFIG_MQTT_USERNAME net);
             ArgInt (strlen (CONFIG_MQTT_USERNAME net))] ;;
   log_info "Password length: %d" [ArgInt (strlen (CONFIG_MQTT_PASSWORD net))] ;;
   log_info "========================" [] ;;
   (if 0 <? strlen (CONFIG_MQTT_USERNAME net) then boot_ret tt
    else do_call (Act (ESP_LOG LOG_WARN "No MQTT username configured" []))) ;;
   (if 0 <? strlen (CONFIG_MQTT_PASSWORD net) then boot_ret tt
    else do_call (Act (ESP_LOG LOG_WARN "No MQTT password configured" []))) ;;
   do_call (esp_mqtt_client_init mqtt_cfg) ;;
   do_call esp_mqtt_client_register_event ;;
   do_call esp_mqtt_client_start ;;
   log_info "MQTT client started" [])%boot.

Definition is_nvs_recoverable (r : esp_err_t) : bool :=
  match r with
  | ESP_ERR_NVS_NO_FREE_PAGES | ESP_ERR_NVS_NEW_VERSION_FOUND => true
  | _ => false
  end.

Definition app_main (rets : boot_returns) (evs : list esp_event)
  : Boot (state * list esp_event) :=
  (log_info "Water Softener Salt Level Monitor starting..." [] ;;
   do_call nvs_flash_init ;;
   ret <- (if is_nvs_recoverable (ret_nvs_flash_init rets) then
             checked nvs_flash_erase (ret_nvs_flash_erase rets) ;;
             do_call nvs_flash_init ;;
             boot_ret (ret_nvs_flash_init_again rets)
           else boot_ret (ret_nvs_flash_init rets)) ;;
   ESP_ERROR_CHECK ret ;;
   log_info "Connecting to Wi-Fi..." [] ;;
   linked <- wifi_init_sta rets evs initial_state ;;
   log_info "Starting MQTT client..." [] ;;
   mqtt_app_start ;;
   do_call (xTaskCreate "sensor_task" 4096 5) ;;
   log_info "Initialization complete" [] ;;
   boot_ret linked)%boot.

End Boot.

(** ** More observations *)

Definition count_calls (p : call -> bool) (t : list call) : nat :=
  List.length (filter p t).

Definition is_abort (c : call) : bool :=
  match c with abort => true | _ => false end.
Definition is_nvs_erase (c : call) : bool :=
  match c with nvs_flash_erase => true | _ => false end.
Definition is_nvs_init (c : call) : bool :=
  match c with nvs_flash_init => true | _ => false end.
Definition is_connect_call (c : call) : bool :=
  match c with Act esp_wifi_connect => true | _ => false end.
Definition is_unexpected_log (c : call) : bool :=
  match c with
  | Act (ESP_LOG LOG_ERROR fmt _) => String.eqb fmt "UNEXPECTED EVENT"
  | _ => false
  end.

(** The log lines of a boot trace. *)
Definition logs_of (t : list call) : list action :=
  flat_map (fun c => match c with
                     | Act (ESP_LOG l f a) => [ESP_LOG l f a]
                     | _ => []
                     end) t.

(** The checks of the boot path, as conditions on the return codes:
    the storage is ready if the first [nvs_flash_init] succeeds, or if it
    asks for an erase and both the erase and the second init succeed. *)
Definition nvs_ready (rets : boot_returns) : bool :=
  if is_nvs_recoverable (ret_nvs_flash_init rets) then
    is_ok (ret_nvs_flash_erase rets) && is_ok (ret_nvs_flash_init_again rets)
  else is_ok (ret_nvs_flash_init rets).

Definition wifi_setup_ok (rets : boot_returns) : bool :=
  is_ok (ret_esp_netif_init rets)
  && is_ok (ret_esp_event_loop_create_default rets)
  && is_ok (ret_esp_wifi_init rets)
  && is_ok (ret_register_wifi_event rets)
  && is_ok (ret_register_ip_event rets)
  && is_ok (ret_esp_wifi_set_mode rets)
  && is_ok (ret_esp_wifi_set_config rets)
  && is_ok (ret_esp_wifi_start rets).

Definition is_application_start (c : call) : bool :=
  match c with
  | esp_mqtt_client_start | xTaskCreate _ _ _ => true
  | _ => false
  end.

(** The calls of the storage stage of [app_main], and its log lines. *)
Definition is_storage_stage (c : call) : bool :=
  match c with
  | nvs_flash_init | nvs_flash_erase | abort | Act (ESP_LOG _ _ _) => true
  | _ => false
  end.

Definition is_mqtt_client_call (c : call) : bool :=
  match c with
  | esp_mqtt_client_init _ | esp_mqtt_client_register_event
  | esp_mqtt_client_start => true
  | _ => false
  end.

Definition is_warning (c : call) : bool :=
  match c with Act (ESP_LOG LOG_WARN _ _) => true | _ => false end.

Definition returns {A : Type} (e : ending A) : bool :=
  match e with Returns _ => true | _ => false end.

Definition aborts {A : Type} (e : ending A) : bool :=
  match e with Aborts => true | _ => false end.

Definition non_empty (s : string) : option string :=
  match s with EmptyString => None | _ => Some s end.

Definition ok_returns : boot_returns :=
  {| ret_nvs_flash_init := ESP_OK;
     ret_nvs_flash_erase := ESP_OK;
     ret_nvs_flash_init_again := ESP_OK;
     ret_esp_netif_init := ESP_OK;
     ret_esp_event_loop_create_default := ESP_OK;
     ret_esp_wifi_init := ESP_OK;
     ret_register_wifi_event := ESP_OK;
     ret_register_ip_event := ESP_OK;
     ret_esp_wifi_set_mode := ESP_OK;
     ret_esp_wifi_set_config := ESP_OK;
     ret_esp_wifi_start := ESP_OK |}.

Definition sample_net : NetConfig :=
  {| CONFIG_WIFI_SSID := "home";
     CONFIG_WIFI_PASSWORD := "secret";
     CONFIG_MQTT_BROKER_URL := "mqtt://192.168.1.10";
     CONFIG_MQTT_USERNAME := "softener";
     CONFIG_MQTT_PASSWORD := "pa55word" |}.

(** The same build with other passwords, the MQTT one of the same
    length. *)
Definition sample_net_rekeyed : NetConfig :=
  {| CONFIG_WIFI_SSID := "home";
     CONFIG_WIFI_PASSWORD := "changed";
     CONFIG_MQTT_BROKER_URL := "mqtt://192.168.1.10";
     CONFIG_MQTT_USERNAME := "softener";
     CONFIG_MQTT_PASSWORD := "dr0wssap" |}.

(** A configuration whose client identity fills the topic buffer by
    itself. *)
Definition overlong_id_config : Config :=
  {| CONFIG_WIFI_MAXIMUM_RETRY := 5;
     CONFIG_MQTT_CLIENT_ID := string_of_list_ascii (repeat "a"%char 106);
     CONFIG_TANK_HEIGHT_CM := 100;
     CONFIG_READING_INTERVAL_SEC := 60 |}.

(** Counting ticks and actions. *)
Definition count_ticks (p : tick -> bool) (ts : list tick) : nat :=
  List.length (filter p ts).

Definition wifi_connects (acts : list action) : nat :=
  List.length (filter is_wifi_connect acts).

Definition is_tick_sta_start (t : tick) : bool :=
  match t with WifiEvent (WIFI_EVENT WIFI_EVENT_STA_START) => true | _ => false end.
Definition is_tick_got_ip (t : tick) : bool :=
  match t with WifiEvent (IP_EVENT_STA_GOT_IP _) => true | _ => false end.

(** The latest of the [MQTT_EVENT_CONNECTED] and
    [MQTT_EVENT_DISCONNECTED] events of a run decides the session flag. *)
Fixpoint last_session_event (ts : list tick) (before : bool) : bool :=
  match ts with
  | [] => before
  | MqttEvent MQTT_EVENT_CONNECTED :: ts' => last_session_event ts' true
  | MqttEvent MQTT_EVENT_DISCONNECTED :: ts' => last_session_event ts' false
  | _ :: ts' => last_session_event ts' before
  end.

Definition is_task_step (t : tick) : bool :=
  match t with TaskStep _ => true | _ => false end.
Definition is_mqtt_connected_event (t : tick) : bool :=
  match t with MqttEvent MQTT_EVENT_CONNECTED => true | _ => false end.

Definition is_mqtt_disconnected_event (t : tick) : bool :=
  match t with MqttEvent MQTT_EVENT_DISCONNECTED => true | _ => false end.

(** What is due from a task at position [p] that takes [k] steps while
    the session holds: nothing at the step that ends the wait, the two
    discovery messages at the next, one telemetry message at each step
    after that. *)
Definition publishes_due (p : task_phase) (k : nat) : nat :=
  match p with
  | TaskCreated | AwaitingSession => if (2 <=? k)%nat then k else 0
  | PublishingDiscovery => if (1 <=? k)%nat then S k else 0
  | Running => k
  end.

Definition discovery_due (p : task_phase) (k : nat) : nat :=
  match p with
  | TaskCreated | AwaitingSession => if (2 <=? k)%nat then 2 else 0
  | PublishingDiscovery => if (1 <=? k)%nat then 2 else 0
  | Running => 0
  end.

Definition phase_after (p : task_phase) (k : nat) : task_phase :=
  match p, k with
  | _, O => p
  | (TaskCreated | AwaitingSession), 1%nat => PublishingDiscovery
  | _, _ => Running
  end.

Definition is_skip_log (a : action) : bool :=
  match a with
  | ESP_LOG LOG_WARN fmt [] => String.eqb fmt "MQTT not connected, skipping publish"
  | _ => false
  end.

(** What the sensor task reads of the state: the session flag, the
    reading counter and its own position. *)
Definition same_task_view (s1 s2 : state) : Prop :=
  mqtt_connected s1 = mqtt_connected s2
  /\ count s1 = count s2
  /\ phase s1 = phase s2.

(** Structural equality of binary32 values. *)
Definition same_float (x y : spec_float) : bool :=
  match x, y with
  | S754_zero a, S754_zero b => Bool.eqb a b
  | S754_infinity a, S754_infinity b => Bool.eqb a b
  | S754_nan, S754_nan => true
  | S754_finite a m e, S754_finite b m' e' =>
      Bool.eqb a b && Pos.eqb m m' && Z.eqb e e'
  | _, _ => false
  end.

(** The publishes of a run with their topic and payload sizes. *)
Definition publish_fits (a : action) : bool :=
  match a with
  | esp_mqtt_client_publish topic data _ _ retain =>
      (String.length topic <? 128)%nat
      && (String.length data <? (if retain then 512 else 256))%nat
  | _ => true
  end.
(** * Properties *)

(** ** The Wi-Fi event handler *)

Section LinkManager.

Variable cfg : Config.

#[local] Arguments WIFI_FAIL_BIT : simpl never.
#[local] Arguments WIFI_CONNECTED_BIT : simpl never.
#[local] Arguments Z.lor : simpl never.
#[local] Arguments Z.testbit : simpl never.
#[local] Arguments int32 : simpl never.

Lemma int32_id (z : Z) : is_int z -> int32 z = z.
Proof.
  unfold is_int, INT_MIN, INT_MAX, int32. intros H.
  rewrite Z.mod_small; lia.
Qed.

Lemma int32_range (z : Z) : is_int (int32 z).
Proof.
  unfold is_int, INT_MIN, INT_MAX, int32.
  pose proof (Z.mod_pos_bound (z + 2 ^ 31) (2 ^ 32) ltac:(lia)). lia.
Qed.

Lemma testbit_set_fail (b : Z) : Z.testbit (Z.lor b WIFI_FAIL_BIT) 1 = true.
Proof. rewrite Z.lor_spec. apply orb_true_r. Qed.

Lemma testbit_set_connected (b : Z) : Z.testbit (Z.lor b WIFI_CONNECTED_BIT) 0 = true.
Proof. rewrite Z.lor_spec. apply orb_true_r. Qed.

Lemma set_fail_idempotent (b : Z) :
  Z.testbit b 1 = true -> Z.lor b WIFI_FAIL_BIT = b.
Proof.
  intros Hb. apply Z.bits_inj'. intros n Hn.
  rewrite Z.lor_spec.
  change WIFI_FAIL_BIT with (2 ^ 1).
  rewrite Z.pow2_bits_eqb by lia.
  destruct (Z.eqb_spec 1 n) as [<- | _].
  - rewrite Hb. reflexivity.
  - apply orb_false_r.
Qed.

Lemma set_connected_keeps_fail (b : Z) :
  Z.testbit (Z.lor b WIFI_CONNECTED_BIT) 1 = Z.testbit b 1.
Proof. rewrite Z.lor_spec. apply orb_false_r. Qed.

(** The failure bit is never cleared by the handler. *)
Lemma link_failed_latched (ev : esp_event) (s : state) :
  link_failed s = true -> link_failed (fst (event_handler cfg ev s)) = true.
Proof.
  unfold link_failed. intros Hf.
  destruct ev as [[] | ip]; simpl; try assumption.
  - destruct (s_retry_num s <? CONFIG_WIFI_MAXIMUM_RETRY cfg); simpl.
    + assumption.
    + apply testbit_set_fail.
  - rewrite set_connected_keeps_fail. assumption.
Qed.

Lemma fail_raises_when_failed (evs : list esp_event) :
  forall s, link_failed s = true -> fail_raises cfg evs s = 0%nat.
Proof.
  induction evs as [| ev evs IH]; intros s Hf; simpl.
  - reflexivity.
  - rewrite Hf. simpl. apply IH. apply link_failed_latched. assumption.
Qed.

Lemma fail_raises_at_most_once (evs : list esp_event) :
  forall s, (fail_raises cfg evs s <= 1)%nat.
Proof.
  induction evs as [| ev evs IH]; intros s; simpl.
  - lia.
  - destruct (link_failed s) eqn:Hs; simpl.
    + apply IH.
    + destruct (link_failed (fst (event_handler cfg ev s))) eqn:Hs'.
      * rewrite fail_raises_when_failed by assumption. lia.
      * apply IH.
Qed.

Lemma run_cons_state (t : tick) (ts : list tick) (s : state) :
  fst (run cfg (t :: ts) s) = fst (run cfg ts (fst (step cfg t s))).
Proof.
  simpl. destruct (step cfg t s) as [s1 a1]. simpl.
  destruct (run cfg ts s1) as [s2 a2]. reflexivity.
Qed.

Lemma run_cons_actions (t : tick) (ts : list tick) (s : state) :
  snd (run cfg (t :: ts) s)
  = (snd (step cfg t s) ++ snd (run cfg ts (fst (step cfg t s))))%list.
Proof.
  simpl. destruct (step cfg t s) as [s1 a1]. simpl.
  destruct (run cfg ts s1) as [s2 a2]. reflexivity.
Qed.

Lemma retry_invariant_step (ev : esp_event) (s : state) :
  0 <= CONFIG_WIFI_MAXIMUM_RETRY cfg ->
  is_int (s_retry_num s) ->
  s_retry_num s <= CONFIG_WIFI_MAXIMUM_RETRY cfg ->
  is_int (s_retry_num (fst (event_handler cfg ev s)))
  /\ s_retry_num (fst (event_handler cfg ev s)) <= CONFIG_WIFI_MAXIMUM_RETRY cfg.
Proof.
  intros Hmax Hint Hle.
  destruct ev as [[] | ip]; simpl; try (split; assumption).
  - destruct (Z.ltb_spec (s_retry_num s) (CONFIG_WIFI_MAXIMUM_RETRY cfg)); simpl.
    + split; [apply int32_range |].
      destruct (Z.le_gt_cases (s_retry_num s + 1) INT_MAX) as [Hfit | Hwrap].
      * rewrite int32_id; [lia |]. unfold is_int in *. lia.
      * pose proof (int32_range (s_retry_num s + 1)) as Hr.
        unfold is_int in Hr. lia.
    + split; assumption.
  - split; [unfold is_int, INT_MIN, INT_MAX; lia | assumption].
Qed.

Lemma retry_invariant_step_any (t : tick) (s : state) :
  0 <= CONFIG_WIFI_MAXIMUM_RETRY cfg ->
  is_int (s_retry_num s) ->
  s_retry_num s <= CONFIG_WIFI_MAXIMUM_RETRY cfg ->
  is_int (s_retry_num (fst (step cfg t s)))
  /\ s_retry_num (fst (step cfg t s)) <= CONFIG_WIFI_MAXIMUM_RETRY cfg.
Proof.
  intros Hmax Hint Hle. destruct t as [ev | ev | msg_id]; simpl.
  - apply retry_invariant_step; assumption.
  - destruct ev; simpl; split; assumption.
  - unfold sensor_task, await_session, telemetry_cycle.
    destruct (phase s); simpl;
      try (destruct (mqtt_connected s); simpl); split; assumption.
Qed.

(** C10. Starting from [s_retry_num = 0], after any sequence of events
    (and of sensor task steps in between) the retry counter is at most
    [CONFIG_WIFI_MAXIMUM_RETRY]; the maximum is a retry count, so it is
    not negative. *)
Theorem retry_counter_bounded (ts : list tick) (s : state) :
  0 <= CONFIG_WIFI_MAXIMUM_RETRY cfg ->
  s_retry_num s = 0 ->
  s_retry_num (fst (run cfg ts s)) <= CONFIG_WIFI_MAXIMUM_RETRY cfg.
Proof.
  intros Hmax H0.
  assert (Hgen : forall ts s,
             is_int (s_retry_num s) ->
             s_retry_num s <= CONFIG_WIFI_MAXIMUM_RETRY cfg ->
             s_retry_num (fst (run cfg ts s)) <= CONFIG_WIFI_MAXIMUM_RETRY cfg).
  { clear ts s H0. induction ts as [| t ts IH]; intros s Hint Hle.
    - assumption.
    - rewrite run_cons_state.
      destruct (retry_invariant_step_any t s Hmax Hint Hle) as [Hi Hb].
      apply IH; assumption. }
  apply Hgen; rewrite H0; [unfold is_int, INT_MIN, INT_MAX |]; lia.
Qed.

Lemma disconnect_at_limit_unchanged (s : state) :
  link_failed s = true ->
  xEventGroupSetBits WIFI_FAIL_BIT s = s.
Proof.
  unfold link_failed. intros Hf. destruct s as [r b c n p]. simpl in *.
  unfold xEventGroupSetBits. simpl. f_equal. apply set_fail_idempotent. assumption.
Qed.

Lemma disconnects_raise_once (k j : nat) :
  forall s,
    link_failed s = false ->
    is_int (s_retry_num s) ->
    is_int (CONFIG_WIFI_MAXIMUM_RETRY cfg) ->
    CONFIG_WIFI_MAXIMUM_RETRY cfg - s_retry_num s = Z.of_nat k ->
    fail_raises cfg (repeat (WIFI_EVENT WIFI_EVENT_STA_DISCONNECTED) (k + 1 + j)) s
    = 1%nat.
Proof.
  induction k as [| k IH]; intros s Hnf Hint Hmax Hk; simpl.
  - rewrite Hnf.
    destruct (Z.ltb_spec (s_retry_num s) (CONFIG_WIFI_MAXIMUM_RETRY cfg)); [lia |].
    simpl. unfold link_failed at 1. simpl. rewrite testbit_set_fail. simpl.
    rewrite fail_raises_when_failed; [reflexivity |].
    unfold link_failed. simpl. apply testbit_set_fail.
  - rewrite Hnf.
    destruct (Z.ltb_spec (s_retry_num s) (CONFIG_WIFI_MAXIMUM_RETRY cfg)); [| lia].
    simpl. replace (link_failed (set_retry_num _ s)) with false by (symmetry; exact Hnf).
    simpl. apply IH.
    + exact Hnf.
    + simpl. apply int32_range.
    + assumption.
    + simpl. rewrite int32_id; [lia |]. unfold is_int in *. lia.
Qed.

(** C4. The link event steps: [IP_EVENT_STA_GOT_IP] resets the retry
    counter and sets the connected bit; a disconnect below the maximum
    increments the counter and reconnects; a disconnect at the maximum
    sets the failure bit, which is latched: it goes from clear to set at
    most once along any sequence of events, exactly once when the
    retries run out, and a further disconnect leaves the state as it is. *)
Theorem link_event_steps (s : state) :
  is_int (CONFIG_WIFI_MAXIMUM_RETRY cfg) ->
  is_int (s_retry_num s) ->
  (forall ip,
      let s' := fst (event_handler cfg (IP_EVENT_STA_GOT_IP ip) s) in
      s_retry_num s' = 0 /\ link_ready s' = true)
  /\ (let s' := fst (event_handler cfg (WIFI_EVENT WIFI_EVENT_STA_DISCONNECTED) s) in
      let acts := snd (event_handler cfg (WIFI_EVENT WIFI_EVENT_STA_DISCONNECTED) s) in
      if s_retry_num s <? CONFIG_WIFI_MAXIMUM_RETRY cfg then
        s_retry_num s' = s_retry_num s + 1
        /\ filter is_wifi_connect acts = [esp_wifi_connect]
        /\ s_wifi_event_group s' = s_wifi_event_group s
      else
        link_failed s' = true
        /\ s_retry_num s' = s_retry_num s
        /\ filter is_wifi_connect acts = []
        /\ (link_failed s = true -> s' = s))
  /\ (forall ev, link_failed s = true ->
                 link_failed (fst (event_handler cfg ev s)) = true)
  /\ (forall evs, (fail_raises cfg evs s <= 1)%nat)
  /\ (forall j,
         link_failed s = false ->
         s_retry_num s <= CONFIG_WIFI_MAXIMUM_RETRY cfg ->
         fail_raises cfg
           (repeat (WIFI_EVENT WIFI_EVENT_STA_DISCONNECTED)
                   (Z.to_nat (CONFIG_WIFI_MAXIMUM_RETRY cfg - s_retry_num s) + 1 + j)) s
         = 1%nat).
Proof.
  intros Hmax Hint. repeat split.
  - simpl. unfold link_ready. simpl. apply testbit_set_connected.
  - simpl.
    destruct (Z.ltb_spec (s_retry_num s) (CONFIG_WIFI_MAXIMUM_RETRY cfg)); simpl.
    + repeat split. apply int32_id. unfold is_int in *. lia.
    + repeat split.
      * unfold link_failed. simpl. apply testbit_set_fail.
      * apply disconnect_at_limit_unchanged.
  - intros ev Hf. apply link_failed_latched. assumption.
  - intros evs. apply fail_raises_at_most_once.
  - intros j Hnf Hle. apply disconnects_raise_once; try assumption. lia.
Qed.

End LinkManager.

(** ** The sensor task and the discovery publisher *)

Section Telemetry.

Variable cfg : Config.

#[local] Arguments int32 : simpl never.
#[local] Arguments calculate_percentage : simpl never.
#[local] Arguments telemetry_payload : simpl never.
#[local] Arguments state_topic : simpl never.
#[local] Arguments distance_config_topic : simpl never.
#[local] Arguments distance_config_payload : simpl never.
#[local] Arguments percentage_config_topic : simpl never.
#[local] Arguments percentage_config_payload : simpl never.
#[local] Arguments F32.add : simpl never.
#[local] Arguments F32.mul : simpl never.
#[local] Arguments F32.of_int : simpl never.
#[local] Arguments F32.of_dyadic : simpl never.

Ltac task_cases s :=
  let Hp := fresh "Hphase" in
  let Hc := fresh "Hflag" in
  unfold sensor_task, await_session, telemetry_cycle, publish_ha_discovery;
  destruct (phase s) eqn:Hp; destruct (mqtt_connected s) eqn:Hc;
  simpl; rewrite ?Hc; simpl.

Lemma sensor_task_keeps_flag (msg_id : Z) (s : state) :
  mqtt_connected (fst (sensor_task cfg msg_id s)) = mqtt_connected s.
Proof. task_cases s; reflexivity. Qed.

Lemma cycle_publishes (msg_id : Z) (s : state) :
  phase s = Running ->
  publishes (snd (sensor_task cfg msg_id s))
  = if mqtt_connected s then
      [esp_mqtt_client_publish (state_topic cfg)
         (telemetry_payload (reading s) (calculate_percentage cfg (reading s)))
         0 0 false]
    else [].
Proof.
  intros Hp. unfold sensor_task, telemetry_cycle. rewrite Hp. simpl.
  destruct (mqtt_connected s); reflexivity.
Qed.

Lemma cycle_continues (msg_id : Z) (s : state) :
  phase s = Running ->
  phase (fst (sensor_task cfg msg_id s)) = Running
  /\ delays (snd (sensor_task cfg msg_id s))
     = [int32 (CONFIG_READING_INTERVAL_SEC cfg * 1000)].
Proof.
  intros Hp. unfold sensor_task, telemetry_cycle. rewrite Hp. simpl.
  destruct (mqtt_connected s); split; reflexivity.
Qed.

(** C3. A telemetry cycle that finds the session not connected makes no
    publish call, logs the skip, sleeps the reading interval and stays in
    the loop; a cycle publishes only when the session is connected. *)
Theorem skip_when_disconnected (msg_id : Z) (s : state) :
  phase s = Running ->
  let s' := fst (sensor_task cfg msg_id s) in
  let acts := snd (sensor_task cfg msg_id s) in
  phase s' = Running
  /\ delays acts = [int32 (CONFIG_READING_INTERVAL_SEC cfg * 1000)]
  /\ (if mqtt_connected s
      then List.length (publishes acts) = 1%nat /\ ~ In skip_log acts
      else publishes acts = [] /\ In skip_log acts)
  /\ (publishes acts <> [] <-> mqtt_connected s = true).
Proof.
  intros Hp. cbv zeta.
  destruct (cycle_continues msg_id s Hp) as [Hphase Hdelay].
  split; [exact Hphase |]. split; [exact Hdelay |].
  rewrite (cycle_publishes msg_id s Hp).
  unfold sensor_task, telemetry_cycle, skip_log. rewrite Hp. simpl.
  destruct (mqtt_connected s); simpl; repeat split; try discriminate; auto.
  intros [H | [H | [H | [H | [H | []]]]]]; discriminate.
Qed.

(** C8. The task's phases in order: it polls the session flag every
    second while it is clear, waits two more seconds once it is set,
    calls the discovery publisher once and enters the loop whatever the
    publisher did, and no event or task step brings it back to an
    earlier phase.  The call is seen in what the publisher puts out: the
    step out of [PublishingDiscovery] carries the output of exactly one
    invocation, in the state of that step, and no other step carries
    any. *)
Theorem task_phase_order (msg_id : Z) (s : state) :
  let s' := fst (sensor_task cfg msg_id s) in
  let acts := snd (sensor_task cfg msg_id s) in
  match phase s with
  | TaskCreated | AwaitingSession =>
      publishes acts = [] /\ discovery_calls acts = 0%nat
      /\ publisher_output acts = []
      /\ if mqtt_connected s
         then phase s' = PublishingDiscovery /\ delays acts = [2000]
         else phase s' = AwaitingSession /\ delays acts = [1000]
  | PublishingDiscovery =>
      phase s' = Running /\ discovery_calls acts = 1%nat /\ delays acts = []
      /\ acts = ([ESP_LOG LOG_INFO "Publishing Home Assistant discovery messages..." []]
                 ++ publish_ha_discovery cfg s
                 ++ [ESP_LOG LOG_INFO "Discovery messages sent!" []])%list
      /\ publisher_output acts = publish_ha_discovery cfg s
      /\ publish_ha_discovery cfg s <> []
      /\ discovery_messages acts = (if mqtt_connected s then 2 else 0)%nat
  | Running =>
      phase s' = Running /\ discovery_calls acts = 0%nat
      /\ publisher_output acts = []
  end
  /\ forall ts, (phase_rank (phase s) <= phase_rank (phase (fst (run cfg ts s))))%nat.
Proof.
  split.
  - task_cases s; repeat split; try reflexivity; discriminate.
  - intros ts. revert s. induction ts as [| t ts IH]; intros s.
    + simpl. lia.
    + simpl. destruct (step cfg t s) as [s1 a1] eqn:Hstep. simpl.
      specialize (IH s1). destruct (run cfg ts s1) as [s2 a2]. simpl in *.
      enough (phase_rank (phase s) <= phase_rank (phase s1))%nat by lia.
      replace s1 with (fst (step cfg t s)) by (rewrite Hstep; reflexivity).
      clear. destruct t as [[[] | ip] | ev | id]; simpl; try lia.
      * destruct (s_retry_num s <? CONFIG_WIFI_MAXIMUM_RETRY cfg); simpl; lia.
      * destruct ev; simpl; lia.
      * task_cases s; lia.
Qed.

(** What one tick contributes to the discovery counts. *)
Lemma step_discovery (t : tick) (s : state) :
  let s' := fst (step cfg t s) in
  let acts := snd (step cfg t s) in
  match t, phase s with
  | TaskStep _, PublishingDiscovery =>
      phase s' = Running /\ discovery_calls acts = 1%nat
      /\ discovery_messages acts = (if mqtt_connected s then 2 else 0)%nat
  | _, Running =>
      phase s' = Running /\ discovery_calls acts = 0%nat
      /\ discovery_messages acts = 0%nat
  | _, _ =>
      phase s' <> Running /\ discovery_calls acts = 0%nat
      /\ discovery_messages acts = 0%nat
  end.
Proof.
  destruct t as [[[] | ip] | ev | id]; simpl.
  1,2,3,4,6: destruct (phase s) eqn:Hp; simpl; repeat split;
    try reflexivity; rewrite ?Hp; try reflexivity; discriminate.
  - destruct (s_retry_num s <? CONFIG_WIFI_MAXIMUM_RETRY cfg);
      destruct (phase s) eqn:Hp; simpl; repeat split;
      try reflexivity; rewrite ?Hp; try reflexivity; discriminate.
  - destruct ev as [| | h | | | |]; simpl; try destruct (error_type h);
      destruct (phase s) eqn:Hp; simpl; repeat split;
      try reflexivity; rewrite ?Hp; try reflexivity; discriminate.
  - task_cases s; repeat split; try reflexivity; discriminate.
Qed.

Lemma discovery_calls_app (a b : list action) :
  discovery_calls (a ++ b) = (discovery_calls a + discovery_calls b)%nat.
Proof. unfold discovery_calls. rewrite filter_app, length_app. reflexivity. Qed.

Lemma discovery_messages_app (a b : list action) :
  discovery_messages (a ++ b) = (discovery_messages a + discovery_messages b)%nat.
Proof. unfold discovery_messages. rewrite filter_app, length_app. reflexivity. Qed.

(** Discovery along a run: nothing once the loop is entered; before
    that, one call exactly when the run reaches the loop. *)
Lemma run_discovery (ts : list tick) :
  forall s,
    let s' := fst (run cfg ts s) in
    let acts := snd (run cfg ts s) in
    match phase s with
    | Running =>
        phase s' = Running /\ discovery_calls acts = 0%nat
        /\ discovery_messages acts = 0%nat
    | _ =>
        discovery_calls acts = (match phase s' with Running => 1 | _ => 0 end)%nat
        /\ (discovery_messages acts = 0%nat \/ discovery_messages acts = 2%nat)
        /\ (discovery_calls acts = 0%nat -> discovery_messages acts = 0%nat)
    end.
Proof.
  induction ts as [| t ts IH]; intros s.
  - simpl. destruct (phase s); simpl; repeat split; auto.
  - cbv zeta. rewrite run_cons_state, run_cons_actions.
    rewrite discovery_calls_app, discovery_messages_app.
    pose proof (step_discovery t s) as Hs. cbv zeta in Hs.
    specialize (IH (fst (step cfg t s))). cbv zeta in IH.
    destruct t as [ev | ev | id]; destruct (phase s) eqn:Hp;
      destruct Hs as (Hs1 & Hs2 & Hs3); rewrite Hs2, Hs3;
      try (rewrite Hs1 in IH; destruct IH as (I1 & I2 & I3);
           rewrite ?I1, ?I2, ?I3; repeat split; auto;
           destruct (mqtt_connected s); auto; discriminate);
      destruct (phase (fst (step cfg _ s))); try contradiction;
      destruct IH as (I1 & I2 & I3); simpl; repeat split; auto.
Qed.

(** The output of the publisher along a run. *)
Lemma publisher_output_app (a b : list action) :
  publisher_output (a ++ b) = (publisher_output a ++ publisher_output b)%list.
Proof. apply filter_app. Qed.

Lemma publish_ha_discovery_messages (s : state) :
  discovery_messages (publish_ha_discovery cfg s)
  = (if mqtt_connected s then 2 else 0)%nat.
Proof. unfold publish_ha_discovery. destruct (mqtt_connected s); reflexivity. Qed.

Lemma discovery_messages_publisher_output (acts : list action) :
  discovery_messages (publisher_output acts) = discovery_messages acts.
Proof.
  unfold discovery_messages, publisher_output.
  induction acts as [| a acts IH]; [reflexivity |].
  cbn [filter].
  destruct (is_publisher_output a) eqn:E; cbn [filter];
    destruct (is_discovery a) eqn:D; cbn [List.length];
    rewrite ?IH; try reflexivity.
  destruct a; simpl in E, D; congruence.
Qed.

Lemma step_publisher (t : tick) (s : state) :
  publisher_output (snd (step cfg t s))
  = match t, phase s with
    | TaskStep _, PublishingDiscovery => publish_ha_discovery cfg s
    | _, _ => []
    end.
Proof.
  destruct t as [ev | ev | id]; simpl.
  - destruct ev as [[] | ip]; simpl;
      try destruct (s_retry_num s <? CONFIG_WIFI_MAXIMUM_RETRY cfg);
      destruct (phase s); reflexivity.
  - destruct ev as [| | h | | | |]; simpl; try destruct (error_type h);
      destruct (phase s); reflexivity.
  - task_cases s; reflexivity.
Qed.

Lemma step_into_loop (t : tick) (s : state) :
  phase (fst (step cfg t s)) = Running ->
  phase s = Running
  \/ (phase s = PublishingDiscovery /\ exists id, t = TaskStep id).
Proof.
  destruct t as [ev | ev | id]; simpl.
  - destruct ev as [[] | ip]; simpl;
      try destruct (s_retry_num s <? CONFIG_WIFI_MAXIMUM_RETRY cfg); auto.
  - destruct ev; simpl; auto.
  - task_cases s; intros H; try discriminate; eauto.
Qed.

Lemma run_in_loop (ts : list tick) :
  forall s,
    phase s = Running ->
    publishing_state cfg ts s = None
    /\ publisher_output (snd (run cfg ts s)) = []
    /\ phase (fst (run cfg ts s)) = Running.
Proof.
  induction ts as [| t ts IH]; intros s Hp.
  - simpl. auto.
  - pose proof (step_discovery t s) as Hs. cbv zeta in Hs.
    assert (Hp1 : phase (fst (step cfg t s)) = Running)
      by (destruct t; rewrite Hp in Hs; apply Hs).
    destruct (IH _ Hp1) as (I1 & I2 & I3).
    rewrite run_cons_state, run_cons_actions, publisher_output_app.
    rewrite step_publisher, I2, I3. cbn [publishing_state]. rewrite Hp, I1.
    destruct t; auto.
Qed.

Lemma run_publisher (ts : list tick) :
  forall s,
    publisher_output (snd (run cfg ts s))
    = match publishing_state cfg ts s with
      | Some s0 => publish_ha_discovery cfg s0
      | None => []
      end
    /\ match publishing_state cfg ts s with
       | Some s0 =>
           phase s0 = PublishingDiscovery /\ phase (fst (run cfg ts s)) = Running
       | None => phase (fst (run cfg ts s)) = Running -> phase s = Running
       end.
Proof.
  induction ts as [| t ts IH]; intros s.
  - simpl. auto.
  - rewrite run_cons_state, run_cons_actions, publisher_output_app, step_publisher.
    cbn [publishing_state].
    destruct (IH (fst (step cfg t s))) as (I1 & I2).
    destruct t as [ev | ev | id].
    + rewrite I1. split; [reflexivity |].
      destruct (publishing_state cfg ts (fst (step cfg (WifiEvent ev) s))).
      * exact I2.
      * intros H. destruct (step_into_loop _ _ (I2 H)) as [R | (_ & id & E)];
          [exact R | discriminate].
    + rewrite I1. split; [reflexivity |].
      destruct (publishing_state cfg ts (fst (step cfg (MqttEvent ev) s))).
      * exact I2.
      * intros H. destruct (step_into_loop _ _ (I2 H)) as [R | (_ & id & E)];
          [exact R | discriminate].
    + destruct (phase s) eqn:Hp.
      * rewrite I1. split; [reflexivity |].
        destruct (publishing_state cfg ts (fst (step cfg (TaskStep id) s))).
        -- exact I2.
        -- intros H. destruct (step_into_loop _ _ (I2 H)) as [R | (P & _)];
             congruence.
      * rewrite I1. split; [reflexivity |].
        destruct (publishing_state cfg ts (fst (step cfg (TaskStep id) s))).
        -- exact I2.
        -- intros H. destruct (step_into_loop _ _ (I2 H)) as [R | (P & _)];
             congruence.
      * pose proof (step_discovery (TaskStep id) s) as Hs. cbv zeta in Hs.
        rewrite Hp in Hs. destruct Hs as (Hs & _).
        destruct (run_in_loop ts _ Hs) as (_ & L2 & L3).
        rewrite L2, app_nil_r. auto.
      * rewrite I1. split; [reflexivity |].
        destruct (publishing_state cfg ts (fst (step cfg (TaskStep id) s))).
        -- exact I2.
        -- intros _. reflexivity.
Qed.


End Telemetry.

(** ** Strings *)

Lemma append_assoc (a b c : string) : (a ++ b) ++ c = a ++ (b ++ c).
Proof. induction a as [| x a IH]; simpl; [reflexivity | rewrite IH; reflexivity]. Qed.

Lemma length_append (a b : string) :
  String.length (a ++ b) = (String.length a + String.length b)%nat.
Proof. induction a as [| x a IH]; simpl; [reflexivity | rewrite IH; reflexivity]. Qed.

Lemma substring_all (s : string) (n : nat) :
  (String.length s <= n)%nat -> substring 0 n s = s.
Proof.
  revert n. induction s as [| c s IH]; intros n Hn.
  - destruct n; reflexivity.
  - destruct n; simpl in *; [lia |]. rewrite IH by lia. reflexivity.
Qed.

Lemma snprintf_fits (size : nat) (fmt : string) (args : list printf_arg) :
  (String.length (sprintf fmt args) < size)%nat ->
  snprintf size fmt args = sprintf fmt args.
Proof. intros H. unfold snprintf. apply substring_all. lia. Qed.

Section Discovery.

Variable cfg : Config.

Let id : string := CONFIG_MQTT_CLIENT_ID cfg.



Lemma state_topic_eq :
  (String.length id <= 100)%nat ->
  state_topic cfg = telemetry_topic id.
Proof.
  intros H. unfold state_topic, client_id. fold id.
  rewrite snprintf_fits.
  - reflexivity.
  - cbn. rewrite length_append. simpl. lia.
Qed.



End Discovery.




(** The bound on the client identity is needed: a longer one is cut by
    [snprintf] at the end of the topic buffer. *)
Example long_client_id_is_truncated :
  String.length (distance_config_topic long_id_config) = 127%nat
  /\ distance_config_topic long_id_config
     <> discovery_topic (CONFIG_MQTT_CLIENT_ID long_id_config) Distance.
Proof.
  split; [reflexivity |].
  intros H. apply (f_equal String.length) in H. discriminate H.
Qed.

(** C1 (as the code has it). The discovery publisher is invoked once
    per boot and only by the sensor task, at its step out of
    [PublishingDiscovery]: what a run from boot carries of the
    publisher's output is the output of that one invocation, in the
    state of that step, if the run reaches the loop, and nothing
    otherwise.  The invocation sends the two messages exactly if the
    session flag is set at that step, and only logs the skip if not.
    The MQTT event handler only logs and sets the flag, so once the task
    is in its loop no event and no cycle, whatever the number of
    reconnections, invokes the publisher or produces a discovery
    message. *)
Theorem discovery_once_per_boot (cfg : Config) (ts : list tick) :
  let s := fst (run cfg ts initial_state) in
  let acts := snd (run cfg ts initial_state) in
  discovery_calls acts = (match phase s with Running => 1 | _ => 0 end)%nat
  /\ match publishing_state cfg ts initial_state with
     | Some s0 =>
         phase s0 = PublishingDiscovery /\ phase s = Running
         /\ publisher_output acts = publish_ha_discovery cfg s0
         /\ discovery_messages acts = (if mqtt_connected s0 then 2 else 0)%nat
     | None =>
         phase s <> Running
         /\ publisher_output acts = [] /\ discovery_messages acts = 0%nat
     end
  /\ (discovery_messages acts = 0 \/ discovery_messages acts = 2)%nat
  /\ (forall ev s0,
         forallb is_log (snd (mqtt_event_handler ev s0)) = true
         /\ phase (fst (mqtt_event_handler ev s0)) = phase s0)
  /\ match phase s with
     | Running =>
         forall ts',
           publisher_output (snd (run cfg ts' s)) = []
           /\ discovery_messages (snd (run cfg ts' s)) = 0%nat
     | _ => discovery_messages acts = 0%nat
     end.
Proof.
  cbv zeta.
  pose proof (run_discovery cfg ts initial_state) as H. cbv zeta in H. simpl in H.
  destruct H as (Hc & Hm & Hz).
  destruct (run_publisher cfg ts initial_state) as (Ho & Hs).
  split; [exact Hc |]. split; [| split; [exact Hm | split]].
  - rewrite <- (discovery_messages_publisher_output
                  (snd (run cfg ts initial_state))), Ho.
    destruct (publishing_state cfg ts initial_state) as [s0 |].
    + destruct Hs as (P0 & P1).
      repeat split; try assumption. apply publish_ha_discovery_messages.
    + repeat split. intros R. specialize (Hs R). discriminate Hs.
  - intros ev s0. split.
    + destruct ev as [| | h | | | |]; simpl; try reflexivity.
      destruct (error_type h); reflexivity.
    + destruct ev; reflexivity.
  - destruct (phase (fst (run cfg ts initial_state))) eqn:Hp;
      try (apply Hz; assumption).
    intros ts'.
    pose proof (run_discovery cfg ts' (fst (run cfg ts initial_state))) as H'.
    cbv zeta in H'. rewrite Hp in H'.
    destruct (run_in_loop cfg ts' _ Hp) as (_ & L & _).
    split; [exact L | apply H'].
Qed.

(** C1 (as stated) fails on the scenario of the specification: the
    session is established twice, the task runs after the reconnection
    and publishes telemetry, and yet only the first two discovery
    messages are ever sent. *)
Lemma discovery_not_republished_on_reconnect :
  let acts := snd (run sample_config reconnect_scenario initial_state) in
  let before := fst (run sample_config (firstn 6 reconnect_scenario) initial_state) in
  let after := snd (run sample_config (skipn 6 reconnect_scenario) before) in
  session_establishments sample_config reconnect_scenario initial_state = 2%nat
  /\ discovery_messages acts = 2%nat
  /\ discovery_calls acts = 1%nat
  /\ List.length (publishes acts) = 4%nat
  /\ mqtt_connected before = false
  /\ List.length (publishes after) = 1%nat
  /\ discovery_messages after = 0%nat
  /\ discovery_messages acts
     <> (2 * session_establishments sample_config reconnect_scenario initial_state)%nat.
Proof. vm_compute. repeat split; discriminate. Qed.

(** If the session drops during the settle delay the publisher only
    logs, and discovery is not sent later either. *)
Example discovery_lost_when_session_drops_while_settling :
  let acts := snd (run sample_config drop_while_settling initial_state) in
  discovery_calls acts = 1%nat
  /\ discovery_messages acts = 0%nat
  /\ List.length (publishes acts) = 1%nat.
Proof. vm_compute. repeat split. Qed.

(** ** Instances on the sample configuration *)

Lemma retry_counter_bounded_witness :
  s_retry_num
    (fst (run sample_config
              (repeat (WifiEvent (WIFI_EVENT WIFI_EVENT_STA_DISCONNECTED)) 8)
              initial_state))
  <= 5.
Proof.
  apply (retry_counter_bounded sample_config
           (repeat (WifiEvent (WIFI_EVENT WIFI_EVENT_STA_DISCONNECTED)) 8)
           initial_state).
  - simpl. lia.
  - reflexivity.
Defined.

Lemma link_event_steps_witness :
  s_retry_num
    (fst (event_handler sample_config (WIFI_EVENT WIFI_EVENT_STA_DISCONNECTED)
                        initial_state)) = 1
  /\ fail_raises sample_config
       (repeat (WIFI_EVENT WIFI_EVENT_STA_DISCONNECTED) 9) initial_state = 1%nat.
Proof.
  assert (H5 : is_int (CONFIG_WIFI_MAXIMUM_RETRY sample_config))
    by (unfold is_int, INT_MIN, INT_MAX; simpl; lia).
  assert (H0 : is_int (s_retry_num initial_state))
    by (unfold is_int, INT_MIN, INT_MAX; simpl; lia).
  destruct (link_event_steps sample_config initial_state H5 H0)
    as (_ & Hd & _ & _ & Hr).
  split.
  - apply Hd.
  - apply (Hr 3%nat); [reflexivity | simpl; lia].
Defined.

Lemma skip_when_disconnected_witness :
  publishes (snd (sensor_task sample_config 0 (set_phase Running initial_state))) = []
  /\ In skip_log (snd (sensor_task sample_config 0 (set_phase Running initial_state))).
Proof.
  destruct (skip_when_disconnected sample_config 0
              (set_phase Running initial_state) eq_refl)
    as (_ & _ & H & _).
  exact H.
Defined.


(** ** binary32 arithmetic rounds to nearest

    Every operation of [SpecFloat] used by the program returns the
    rounding to nearest even of the exact result ([RN]), rounding is
    monotone, and a number of the format rounds to itself. *)

(** *** Powers of two *)

Lemma bpow_gt_0 e : (0 < bpow e)%R.
Proof. apply powerRZ_lt. lra. Qed.

Lemma bpow_plus a b : bpow (a + b) = (bpow a * bpow b)%R.
Proof. apply powerRZ_add. lra. Qed.

Lemma bpow_0 : bpow 0 = 1%R.
Proof. reflexivity. Qed.

Lemma bpow_1 : bpow 1 = 2%R.
Proof. unfold bpow. simpl. lra. Qed.

Lemma bpow_m1 : bpow (-1) = (/ 2)%R.
Proof. unfold bpow. simpl. lra. Qed.

Lemma bpow_succ e : bpow (e + 1) = (2 * bpow e)%R.
Proof. rewrite bpow_plus, bpow_1. lra. Qed.

Lemma bpow_opp e : bpow (- e) = (/ bpow e)%R.
Proof. apply powerRZ_neg'. Qed.

Lemma bpow_inv_l e : (bpow (- e) * bpow e = 1)%R.
Proof. rewrite <- bpow_plus. replace (- e + e) with 0 by lia. reflexivity. Qed.

Lemma bpow_le a b : a <= b -> (bpow a <= bpow b)%R.
Proof.
  intros H. replace b with (a + (b - a)) by lia.
  rewrite bpow_plus.
  assert (1 <= bpow (b - a))%R.
  { generalize (b - a) (ltac:(lia) : 0 <= b - a). clear.
    apply (natlike_ind (fun z => 1 <= bpow z)%R).
    - rewrite bpow_0. lra.
    - intros x Hx IH. unfold Z.succ. rewrite bpow_succ. lra. }
  pose proof (bpow_gt_0 a). nra.
Qed.

Lemma bpow_lt a b : a < b -> (bpow a < bpow b)%R.
Proof.
  intros H. assert (bpow (a + 1) <= bpow b)%R by (apply bpow_le; lia).
  rewrite bpow_succ in H0. pose proof (bpow_gt_0 a). lra.
Qed.

Lemma bpow_IZR n : 0 <= n -> bpow n = IZR (2 ^ n).
Proof.
  revert n. apply natlike_ind.
  - reflexivity.
  - intros x Hx IH. unfold Z.succ. rewrite bpow_succ, IH.
    rewrite Z.pow_add_r, mult_IZR by lia. simpl. lra.
Qed.

(** *** Number of binary digits *)

Lemma digits2_pos_bounds (p : positive) :
  2 ^ (Zpos (digits2_pos p) - 1) <= Zpos p < 2 ^ Zpos (digits2_pos p).
Proof.
  induction p as [p IH | p IH |]; simpl digits2_pos.
  - rewrite Pos2Z.inj_succ. unfold Z.succ.
    replace (Z.pos (digits2_pos p) + 1 - 1) with (Z.pos (digits2_pos p) - 1 + 1) by lia.
    rewrite !Z.pow_add_r by lia. change (2 ^ 1) with 2. lia.
  - rewrite Pos2Z.inj_succ. unfold Z.succ.
    replace (Z.pos (digits2_pos p) + 1 - 1) with (Z.pos (digits2_pos p) - 1 + 1) by lia.
    rewrite !Z.pow_add_r by lia. change (2 ^ 1) with 2. lia.
  - simpl. lia.
Qed.

Lemma digits_unique (p : positive) (d : Z) :
  2 ^ (d - 1) <= Zpos p < 2 ^ d -> Zpos (digits2_pos p) = d.
Proof.
  intros [Hl Hu]. pose proof (digits2_pos_bounds p) as [Hl' Hu'].
  assert (0 < d).
  { destruct (Z.le_gt_cases d 0) as [Hd |]; [| assumption].
    assert (2 ^ d <= 2 ^ 0) by (apply Z.pow_le_mono_r; lia). simpl in *. lia. }
  destruct (Z.lt_trichotomy (Zpos (digits2_pos p)) d) as [Hlt | [Heq | Hgt]].
  - assert (2 ^ Zpos (digits2_pos p) <= 2 ^ (d - 1)) by (apply Z.pow_le_mono_r; lia). lia.
  - assumption.
  - assert (2 ^ d <= 2 ^ (Zpos (digits2_pos p) - 1)) by (apply Z.pow_le_mono_r; lia). lia.
Qed.

Lemma Zdigits2_bounds_R (m : Z) :
  0 < m -> (bpow (Zdigits2 m - 1) <= IZR m < bpow (Zdigits2 m))%R.
Proof.
  destruct m as [| p | p]; try lia. intros _. simpl Zdigits2.
  pose proof (digits2_pos_bounds p) as [Hl Hu].
  rewrite !bpow_IZR by lia. split; [apply IZR_le | apply IZR_lt]; assumption.
Qed.

Lemma Zdigits2_nonneg (m : Z) : 0 <= m -> 0 <= Zdigits2 m.
Proof. destruct m; simpl; lia. Qed.

Lemma Zdigits2_upper_R (m : Z) :
  0 <= m -> (IZR m + 1 <= bpow (Zdigits2 m))%R.
Proof.
  intros Hm. destruct m as [| p | p]; try lia.
  - unfold bpow. simpl. lra.
  - simpl Zdigits2. pose proof (digits2_pos_bounds p) as [Hl Hu].
    rewrite bpow_IZR by lia. rewrite <- plus_IZR. apply IZR_le. lia.
Qed.

(** *** Shifting right keeps the location *)

Lemma IZR_xO p : IZR (Zpos p~0) = (2 * IZR (Zpos p))%R.
Proof. rewrite Pos2Z.inj_xO, mult_IZR. reflexivity. Qed.

Lemma IZR_xI p : IZR (Zpos p~1) = (2 * IZR (Zpos p) + 1)%R.
Proof. rewrite Pos2Z.inj_xI, plus_IZR, mult_IZR. reflexivity. Qed.

Lemma shr_1_inbetween (mrs : shr_record) (x : R) :
  0 <= shr_m mrs ->
  inbetween x (shr_m mrs) (loc_of_shr_record mrs) ->
  0 <= shr_m (shr_1 mrs)
  /\ inbetween (x * / 2) (shr_m (shr_1 mrs)) (loc_of_shr_record (shr_1 mrs)).
Proof.
  destruct mrs as [m r s]. cbn [shr_m]. intros Hm.
  destruct m as [| [p | p |] | p]; try lia;
    destruct r, s; cbn [shr_1 shr_m loc_of_shr_record inbetween orb];
      try rewrite (IZR_xO p); try rewrite (IZR_xI p); intros H; (split; [lia | lra]).
Qed.

Lemma iter_shr_1_inbetween (p : positive) :
  forall (mrs : shr_record) (x : R),
    0 <= shr_m mrs ->
    inbetween x (shr_m mrs) (loc_of_shr_record mrs) ->
    0 <= shr_m (iter_pos shr_1 p mrs)
    /\ inbetween (x * bpow (- Zpos p)) (shr_m (iter_pos shr_1 p mrs))
                 (loc_of_shr_record (iter_pos shr_1 p mrs)).
Proof.
  induction p as [p IH | p IH |]; intros mrs x Hm Hx; simpl iter_pos.
  - destruct (shr_1_inbetween mrs x Hm Hx) as [H1 H2].
    destruct (IH _ _ H1 H2) as [H3 H4].
    destruct (IH _ _ H3 H4) as [H5 H6].
    split; [assumption |].
    replace (x * bpow (- Z.pos p~1))%R
      with (x * / 2 * bpow (- Z.pos p) * bpow (- Z.pos p))%R; [assumption |].
    replace (- Z.pos p~1) with (- Z.pos p + (- Z.pos p + -1)) by lia.
    rewrite !bpow_plus, bpow_m1. lra.
  - destruct (IH _ _ Hm Hx) as [H3 H4].
    destruct (IH _ _ H3 H4) as [H5 H6].
    split; [assumption |].
    replace (x * bpow (- Z.pos p~0))%R
      with (x * bpow (- Z.pos p) * bpow (- Z.pos p))%R; [assumption |].
    replace (- Z.pos p~0) with (- Z.pos p + - Z.pos p) by lia.
    rewrite !bpow_plus. lra.
  - destruct (shr_1_inbetween mrs x Hm Hx) as [H1 H2].
    split; [assumption |].
    simpl Z.opp. rewrite bpow_m1. assumption.
Qed.

Lemma loc_of_shr_record_of_loc m l :
  loc_of_shr_record (shr_record_of_loc m l) = l.
Proof. destruct l as [| []]; reflexivity. Qed.

Lemma shr_m_shr_record_of_loc m l : shr_m (shr_record_of_loc m l) = m.
Proof. destruct l as [| []]; reflexivity. Qed.

Lemma fexp_eq e : fexp F32.prec F32.emax e = Z.max (e - 24) (-149).
Proof. reflexivity. Qed.

(** Integer bounds from real ones. *)
Lemma IZR_lt_bpow (m k : Z) : 0 <= k -> (IZR m < bpow k)%R -> m < 2 ^ k.
Proof. intros Hk H. rewrite bpow_IZR in H by assumption. apply lt_IZR. assumption. Qed.

Lemma bpow_le_IZR (m k : Z) : 0 <= k -> (bpow k < IZR m + 1)%R -> 2 ^ k <= m.
Proof.
  intros Hk H. rewrite bpow_IZR in H by assumption.
  rewrite <- plus_IZR in H. apply lt_IZR in H. lia.
Qed.

Lemma inbetween_bounds x m l : inbetween x m l -> (IZR m <= x < IZR m + 1)%R.
Proof. destruct l as [| []]; unfold inbetween; lra. Qed.

(** The first shift of [binary_round_aux] brings a located positive
    number to its canonical exponent. *)
Lemma shr_fexp_canon (m e : Z) (l : location) (X : R) :
  0 <= m ->
  (0 < X)%R ->
  inbetween (X * bpow (- e)) m l ->
  e <= fexp F32.prec F32.emax (Zdigits2 m + e) ->
  let '(mrs, E) := shr_fexp F32.prec F32.emax m e l in
  canonP (shr_m mrs) E
  /\ inbetween (X * bpow (- E)) (shr_m mrs) (loc_of_shr_record mrs).
Proof.
  intros Hm HX Hin Hn. unfold shr_fexp, shr.
  rewrite fexp_eq in *.
  pose proof (inbetween_bounds _ _ _ Hin) as Hb.
  pose proof (Zdigits2_upper_R m Hm) as Hup.
  pose proof (Zdigits2_nonneg m Hm) as Hd0.
  set (D := Zdigits2 m) in *.
  destruct (Z.max (D + e - 24) (-149) - e) as [| n | n] eqn:Hshift.
  - (* the mantissa is already in place *)
    rewrite shr_m_shr_record_of_loc, loc_of_shr_record_of_loc.
    split; [| assumption].
    assert (HD : D <= 24) by lia.
    unfold canonP. split; [lia |]. split.
    + split; [assumption |].
      apply IZR_lt_bpow; [lia |].
      assert (bpow D <= bpow 24)%R by (apply bpow_le; lia). lra.
    + intros He. assert (D = 24) by lia.
      destruct (Z.eq_dec m 0) as [-> | Hm0]; [simpl in D; lia |].
      pose proof (Zdigits2_bounds_R m ltac:(lia)) as [Hlo _]. fold D in Hlo.
      apply bpow_le_IZR; [lia |]. replace (D - 1) with 23 in Hlo by lia. lra.
  - (* shift by n *)
    destruct (iter_shr_1_inbetween n (shr_record_of_loc m l) (X * bpow (- e)))
      as [H1 H2].
    { rewrite shr_m_shr_record_of_loc. assumption. }
    { rewrite shr_m_shr_record_of_loc, loc_of_shr_record_of_loc. assumption. }
    set (mrs := iter_pos shr_1 n (shr_record_of_loc m l)) in *.
    replace (X * bpow (- e) * bpow (- Z.pos n))%R
      with (X * bpow (- (e + Z.pos n)))%R in H2
      by (replace (- (e + Z.pos n)) with (- e + - Z.pos n) by lia;
          rewrite bpow_plus; lra).
    split; [| assumption].
    pose proof (inbetween_bounds _ _ _ H2) as Hb2.
    set (E := e + Z.pos n) in *.
    assert (HXE : (X * bpow (- E) = X * bpow (- e) * bpow (e - E))%R).
    { replace (- E) with (- e + (e - E)) by lia. rewrite bpow_plus. lra. }
    assert (Hlt : (X * bpow (- E) < bpow (D + e - E))%R).
    { rewrite HXE. replace (D + e - E) with (D + (e - E)) by lia.
      rewrite bpow_plus. pose proof (bpow_gt_0 (e - E)). nra. }
    unfold canonP. split; [unfold E; lia |]. split.
    + split; [assumption |].
      apply IZR_lt_bpow; [lia |].
      assert (bpow (D + e - E) <= bpow 24)%R by (apply bpow_le; unfold E; lia). lra.
    + intros He. assert (HDE : D + e - E = 24) by (unfold E in *; lia).
      destruct (Z.eq_dec m 0) as [-> | Hm0]; [simpl in D; unfold E in *; lia |].
      pose proof (Zdigits2_bounds_R m ltac:(lia)) as [Hlo _]. fold D in Hlo.
      apply bpow_le_IZR; [lia |].
      assert (bpow 23 <= X * bpow (- E))%R.
      { rewrite HXE. replace 23 with ((D - 1) + (e - E)) by lia.
        rewrite bpow_plus. pose proof (bpow_gt_0 (e - E)). nra. }
      lra.
  - lia.
Qed.

(** *** Rounding the mantissa *)

Lemma rne_cases (M : Z) (l : location) :
  round_nearest_even M l = M \/ round_nearest_even M l = M + 1.
Proof. destruct l as [| []]; simpl; auto. destruct (Z.even M); auto. Qed.

Lemma Zdigits2_le_24 (m : Z) : 0 < m < 2 ^ 24 -> Zdigits2 m <= 24.
Proof.
  intros [H0 H1]. destruct m as [| p | p]; try lia. simpl.
  pose proof (digits2_pos_bounds p) as [Hl _].
  destruct (Z.le_gt_cases (Zpos (digits2_pos p)) 24) as [| Hgt]; [assumption |].
  assert (2 ^ 24 <= 2 ^ (Zpos (digits2_pos p) - 1)) by (apply Z.pow_le_mono_r; lia).
  lia.
Qed.

Lemma Zdigits2_eq_24 (m : Z) : 2 ^ 23 <= m < 2 ^ 24 -> Zdigits2 m = 24.
Proof.
  intros [H0 H1]. destruct m as [| p | p]; try lia. simpl.
  apply digits_unique. simpl. lia.
Qed.


Lemma finish_cases (s : bool) (M : Z) (l : location) (E : Z) :
  canonP M E ->
  finish_spec s (round_nearest_even M l) E (finish s M l E).
Proof.
  intros (HE & HM & Hn). unfold finish.
  pose proof (rne_cases M l) as Hr.
  set (m2 := round_nearest_even M l) in *.
  assert (Hm2 : 0 <= m2 <= 2 ^ 24) by lia.
  assert (Hn2 : -149 < E -> 2 ^ 23 <= m2) by lia.
  clearbody m2. clear Hr HM Hn M l.
  unfold shr_fexp, shr. rewrite fexp_eq.
  destruct (Z.eq_dec m2 0) as [-> | Hnz].
  - simpl Zdigits2.
    destruct (Z.max (0 + E - 24) (-149) - E) eqn:Hs; try lia; simpl;
      apply finish_zero; reflexivity.
  - destruct (Z.eq_dec m2 (2 ^ 24)) as [-> | Hlt].
    + change (Zdigits2 (2 ^ 24)) with 25.
      replace (Z.max (25 + E - 24) (-149) - E) with 1 by lia.
      cbn [iter_pos shr_record_of_loc]. simpl shr_1. cbn [shr_m].
      destruct (Z.leb_spec (E + 1) (F32.emax - F32.prec)) as [Hle | Hgt];
        unfold F32.emax, F32.prec in *.
      * apply finish_carry; [reflexivity | lia].
      * apply finish_carry_overflow; [reflexivity | lia].
    + assert (Hd : Zdigits2 m2 <= 24) by (apply Zdigits2_le_24; lia).
      assert (Hd' : -149 < E -> Zdigits2 m2 = 24).
      { intros He. apply Zdigits2_eq_24. lia. }
      replace (Z.max (Zdigits2 m2 + E - 24) (-149) - E) with 0 by lia.
      cbn [shr_record_of_loc shr_m].
      destruct m2 as [| p | p]; try lia.
      destruct (Z.leb_spec E (F32.emax - F32.prec)) as [Hle | Hgt];
        unfold F32.emax, F32.prec in *.
      * apply finish_finite; [reflexivity | lia | lia].
      * apply finish_overflow; lia.
Qed.

Lemma bpow_24 : bpow 24 = 16777216%R.
Proof. rewrite bpow_IZR by lia. reflexivity. Qed.

Lemma bpow_23 : bpow 23 = 8388608%R.
Proof. rewrite bpow_IZR by lia. reflexivity. Qed.

Lemma bpow_128_split : bpow 128 = (16777216 * bpow 104)%R.
Proof. change 128 with (24 + 104). rewrite bpow_plus, bpow_24. reflexivity. Qed.

Lemma finish_key (M : Z) (l : location) (E : Z) :
  canonP M E ->
  key (finish false M l E)
  = Rmin (IZR (round_nearest_even M l) * bpow E) (bpow 128)
  /\ key (finish true M l E)
     = (- Rmin (IZR (round_nearest_even M l) * bpow E) (bpow 128))%R.
Proof.
  intros Hc.
  pose proof (finish_cases false M l E Hc) as Hf.
  pose proof (finish_cases true M l E Hc) as Ht.
  destruct Hc as (HE & HM & Hn).
  pose proof (rne_cases M l) as Hr.
  set (m2 := round_nearest_even M l) in *.
  pose proof (bpow_gt_0 E) as HbE. pose proof (bpow_gt_0 104) as Hb104.
  pose proof bpow_128_split as H128.
  assert (Hmin_l : forall x, (x <= bpow 128)%R -> Rmin x (bpow 128) = x)
    by (intros; apply Rmin_left; assumption).
  assert (Hmin_r : forall x, (bpow 128 <= x)%R -> Rmin x (bpow 128) = bpow 128)
    by (intros; apply Rmin_right; assumption).
  assert (Hsmall : E <= 104 -> (bpow E <= bpow 104)%R) by (apply bpow_le).
  assert (Hbig : 104 < E -> (2 * bpow 104 <= bpow E)%R).
  { intros. rewrite <- bpow_succ. apply bpow_le. lia. }
  assert (Hm2R : (0 <= IZR m2 <= 16777216)%R).
  { split; [apply IZR_le | apply (IZR_le _ 16777216)]; lia. }
  assert (Hm2lo : -149 < E -> (8388608 <= IZR m2)%R).
  { intros. apply (IZR_le 8388608). lia. }
  assert (Hlt24 : m2 < 2 ^ 24 -> (IZR m2 <= 16777215)%R).
  { intros. apply (IZR_le _ 16777215). lia. }
  assert (Hcarry : (IZR 8388608 * bpow (E + 1) = 16777216 * bpow E)%R).
  { rewrite bpow_succ. lra. }
  split.
  - inversion Hf as [H0 | p Hp Hlt HE' | Hr' HE' | H24 HE' | H24 HE']; simpl key; simpl F2R.
    + rewrite H0. rewrite Hmin_l; lra.
    + rewrite <- Hp. rewrite Hmin_l; [reflexivity |]. specialize (Hlt24 Hlt).
      rewrite H128. apply Rmult_le_compat; try lra. apply Hsmall. assumption.
    + rewrite Hmin_r; [reflexivity |]. specialize (Hm2lo ltac:(lia)).
      specialize (Hbig HE'). rewrite H128.
      replace (16777216 * bpow 104)%R with (8388608 * (2 * bpow 104))%R by lra.
      apply Rmult_le_compat; lra.
    + rewrite Hcarry, H24. change (IZR (2 ^ 24)) with 16777216%R.
      rewrite Hmin_l; [reflexivity |].
      assert (Hc1 : (bpow (E + 1) <= bpow 104)%R) by (apply bpow_le; lia).
      rewrite bpow_succ in Hc1. lra.
    + rewrite H24. change (IZR (2 ^ 24)) with 16777216%R.
      rewrite Hmin_r; [reflexivity |].
      assert (Hc2 : (bpow 104 <= bpow E)%R) by (apply bpow_le; lia). lra.
  - inversion Ht as [H0 | p Hp Hlt HE' | Hr' HE' | H24 HE' | H24 HE']; simpl key; simpl F2R.
    + rewrite H0. rewrite Hmin_l; lra.
    + rewrite <- Hp. rewrite Hmin_l; [reflexivity |]. specialize (Hlt24 Hlt).
      rewrite H128. apply Rmult_le_compat; try lra. apply Hsmall. assumption.
    + rewrite Hmin_r; [reflexivity |]. specialize (Hm2lo ltac:(lia)).
      specialize (Hbig HE'). rewrite H128.
      replace (16777216 * bpow 104)%R with (8388608 * (2 * bpow 104))%R by lra.
      apply Rmult_le_compat; lra.
    + rewrite Hcarry, H24. change (IZR (2 ^ 24)) with 16777216%R.
      rewrite Hmin_l; [reflexivity |].
      assert (Hc1 : (bpow (E + 1) <= bpow 104)%R) by (apply bpow_le; lia).
      rewrite bpow_succ in Hc1. lra.
    + rewrite H24. change (IZR (2 ^ 24)) with 16777216%R.
      rewrite Hmin_r; [reflexivity |].
      assert (Hc2 : (bpow 104 <= bpow E)%R) by (apply bpow_le; lia). lra.
Qed.

(** *** Order of the rounded values *)

Lemma scale_back (X : R) (E : Z) : (X = X * bpow (- E) * bpow E)%R.
Proof. rewrite Rmult_assoc, bpow_inv_l. lra. Qed.

Lemma canon_exp_le (X X' : R) (M M' E E' : Z) (l l' : location) :
  canonP M E -> inbetween (X * bpow (- E)) M l ->
  canonP M' E' -> inbetween (X' * bpow (- E')) M' l' ->
  (X <= X')%R -> E <= E'.
Proof.
  intros (HE & HM & Hn) Hin (HE' & HM' & Hn') Hin' HXX.
  destruct (Z.le_gt_cases E E') as [| Hgt]; [assumption | exfalso].
  apply inbetween_bounds in Hin, Hin'.
  assert (H1 : (8388608 <= IZR M)%R) by (apply (IZR_le 8388608); lia).
  assert (H2 : (IZR M' + 1 <= 16777216)%R).
  { rewrite <- plus_IZR. apply (IZR_le _ 16777216). lia. }
  pose proof (bpow_gt_0 E) as HbE. pose proof (bpow_gt_0 E') as HbE'.
  assert (H3 : (2 * bpow E' <= bpow E)%R).
  { rewrite <- bpow_succ. apply bpow_le. lia. }
  assert (H4 : (8388608 * bpow E <= X)%R).
  { rewrite (scale_back X E). apply Rmult_le_compat_r; lra. }
  assert (H5 : (X' < 16777216 * bpow E')%R).
  { rewrite (scale_back X' E'). apply Rmult_lt_compat_r; lra. }
  lra.
Qed.

Lemma canon_unique (X : R) (M M' E E' : Z) (l l' : location) :
  canonP M E -> inbetween (X * bpow (- E)) M l ->
  canonP M' E' -> inbetween (X * bpow (- E')) M' l' ->
  E = E' /\ M = M' /\ l = l'.
Proof.
  intros Hc Hin Hc' Hin'.
  assert (E <= E') by (eapply canon_exp_le; eauto; lra).
  assert (E' <= E) by (eapply canon_exp_le; eauto; lra).
  assert (E = E') by lia. subst E'. split; [reflexivity |].
  pose proof (inbetween_bounds _ _ _ Hin) as Hb.
  pose proof (inbetween_bounds _ _ _ Hin') as Hb'.
  assert (M = M').
  { assert (IZR M < IZR M' + 1)%R by lra.
    assert (IZR M' < IZR M + 1)%R by lra.
    rewrite <- plus_IZR in *.
    assert (M < M' + 1) by (apply lt_IZR; assumption).
    assert (M' < M + 1) by (apply lt_IZR; assumption). lia. }
  subst M'. split; [reflexivity |].
  destruct l as [| []], l' as [| []]; unfold inbetween in *;
    try reflexivity; exfalso; lra.
Qed.

Lemma rne_mono (x x' : R) (M M' : Z) (l l' : location) :
  inbetween x M l -> inbetween x' M' l' -> (x <= x')%R ->
  round_nearest_even M l <= round_nearest_even M' l'.
Proof.
  intros Hin Hin' Hxx.
  pose proof (inbetween_bounds _ _ _ Hin) as Hb.
  pose proof (inbetween_bounds _ _ _ Hin') as Hb'.
  pose proof (rne_cases M l) as Hr. pose proof (rne_cases M' l') as Hr'.
  destruct (Z.lt_trichotomy M M') as [Hlt | [Heq | Hgt]].
  - lia.
  - subst M'.
    destruct l as [| []], l' as [| []]; unfold inbetween in *; simpl;
      try (destruct (Z.even M)); try lia; exfalso; lra.
  - exfalso. assert (IZR M' + 1 <= IZR M)%R.
    { rewrite <- plus_IZR. apply IZR_le. lia. }
    lra.
Qed.

Lemma rne_nonneg (M : Z) (l : location) : 0 <= M -> 0 <= round_nearest_even M l.
Proof. pose proof (rne_cases M l). lia. Qed.

Lemma rounded_mono (X X' : R) (M M' E E' : Z) (l l' : location) :
  canonP M E -> inbetween (X * bpow (- E)) M l ->
  canonP M' E' -> inbetween (X' * bpow (- E')) M' l' ->
  (X <= X')%R ->
  (IZR (round_nearest_even M l) * bpow E
   <= IZR (round_nearest_even M' l') * bpow E')%R.
Proof.
  intros Hc Hin Hc' Hin' HXX.
  pose proof (canon_exp_le _ _ _ _ _ _ _ _ Hc Hin Hc' Hin' HXX) as HEE.
  destruct Hc as (HE & HM & Hn), Hc' as (HE' & HM' & Hn').
  pose proof (bpow_gt_0 E) as HbE. pose proof (bpow_gt_0 E') as HbE'.
  destruct (Z.eq_dec E E') as [<- | Hne].
  - apply Rmult_le_compat_r; [lra |]. apply IZR_le.
    apply (rne_mono (X * bpow (- E)) (X' * bpow (- E))); try assumption.
    pose proof (bpow_gt_0 (- E)). apply Rmult_le_compat_r; lra.
  - pose proof (rne_cases M l) as Hr. pose proof (rne_cases M' l') as Hr'.
    assert (H1 : (IZR (round_nearest_even M l) <= 16777216)%R)
      by (apply (IZR_le _ 16777216); lia).
    assert (H2 : (8388608 <= IZR (round_nearest_even M' l'))%R)
      by (apply (IZR_le 8388608); lia).
    assert (H3 : (2 * bpow E <= bpow E')%R).
    { rewrite <- bpow_succ. apply bpow_le. lia. }
    apply Rle_trans with (16777216 * bpow E)%R.
    + apply Rmult_le_compat_r; lra.
    + apply Rle_trans with (8388608 * bpow E')%R; [lra |].
      apply Rmult_le_compat_r; lra.
Qed.

Lemma Rmin_mono_l (a b c : R) : (a <= b)%R -> (Rmin a c <= Rmin b c)%R.
Proof. intros H. unfold Rmin. destruct (Rle_dec a c), (Rle_dec b c); lra. Qed.

Lemma rounded_nonneg (M E : Z) (l : location) :
  0 <= M -> (0 <= Rmin (IZR (round_nearest_even M l) * bpow E) (bpow 128))%R.
Proof.
  intros HM. pose proof (rne_nonneg M l HM) as H. apply IZR_le in H.
  pose proof (bpow_gt_0 E). pose proof (bpow_gt_0 128).
  apply Rmin_glb; [| lra]. apply Rmult_le_pos; lra.
Qed.

(** Rounding is monotone. *)
Lemma RN_mono (X X' : R) (f f' : spec_float) :
  RN X f -> RN X' f' -> (X <= X')%R -> (key f <= key f')%R.
Proof.
  intros [(H0 & s & ->) | [(Hp & M & l & E & Hc & Hin & ->)
                         | (Hn & M & l & E & Hc & Hin & ->)]]
         [(H0' & s' & ->) | [(Hp' & M' & l' & E' & Hc' & Hin' & ->)
                         | (Hn' & M' & l' & E' & Hc' & Hin' & ->)]] HXX;
    try (exfalso; lra);
    try (destruct (finish_key M l E Hc) as [Kp Kn]);
    try (destruct (finish_key M' l' E' Hc') as [Kp' Kn']);
    rewrite ?Kp, ?Kn, ?Kp', ?Kn'; simpl key; simpl F2R;
    try (pose proof (rounded_nonneg M E l ltac:(destruct Hc as (_ & ? & _); lia)));
    try (pose proof (rounded_nonneg M' E' l' ltac:(destruct Hc' as (_ & ? & _); lia)));
    try lra.
  - apply Rmin_mono_l. eapply rounded_mono; eauto.
  - apply Ropp_le_contravar. apply Rmin_mono_l. eapply rounded_mono; eauto. lra.
Qed.

(** *** Numbers of the format *)

Lemma valid_canon (s : bool) (m : positive) (e : Z) :
  valid_binary F32.prec F32.emax (S754_finite s m e) = true <->
  canonP (Zpos m) e /\ e <= 104.
Proof.
  simpl. unfold bounded, canonical_mantissa. rewrite fexp_eq.
  rewrite andb_true_iff, Z.eqb_eq, Z.leb_le. unfold F32.emax, F32.prec.
  pose proof (digits2_pos_bounds m) as [Hl Hu].
  set (D := Zpos (digits2_pos m)) in *.
  assert (HD : 0 < D) by (unfold D; lia).
  split.
  - intros [Hc He]. split; [| lia].
    assert (D <= 24) by lia.
    unfold canonP. split; [lia |]. split.
    + split; [lia |].
      assert (2 ^ D <= 2 ^ 24) by (apply Z.pow_le_mono_r; lia). lia.
    + intros Hgt. assert (D = 24) by lia.
      replace (D - 1) with 23 in Hl by lia. assumption.
  - intros [(HE & HM & Hn) He]. split; [| lia].
    assert (HD24 : D <= 24).
    { destruct (Z.le_gt_cases D 24) as [| Hgt]; [assumption |].
      assert (2 ^ 24 <= 2 ^ (D - 1)) by (apply Z.pow_le_mono_r; lia). lia. }
    destruct (Z.eq_dec e (-149)) as [-> | Hne]; [lia |].
    assert (D = 24).
    { destruct (Z.eq_dec D 24) as [| Hd]; [assumption |].
      assert (2 ^ D <= 2 ^ 23) by (apply Z.pow_le_mono_r; lia). lia. }
    lia.
Qed.

Lemma finish_good (s : bool) (M : Z) (l : location) (E : Z) :
  canonP M E -> good (finish s M l E).
Proof.
  intros Hc. pose proof (finish_cases s M l E Hc) as Hf.
  destruct Hc as (HE & HM & Hn).
  pose proof (rne_cases M l) as Hr.
  inversion Hf as [H0 | p Hp Hlt HE' | Hr' HE' | H24 HE' | H24 HE'];
    (split; [| discriminate]); try reflexivity.
  - apply valid_canon. split; [| assumption].
    unfold canonP. rewrite <- Hp. lia.
  - apply valid_canon. split; [| assumption].
    unfold canonP. simpl. lia.
Qed.

Lemma RN_good (X : R) (f : spec_float) : RN X f -> good f.
Proof.
  intros [(H0 & s & ->) | [(Hp & M & l & E & Hc & Hin & ->)
                         | (Hn & M & l & E & Hc & Hin & ->)]].
  - split; [reflexivity | discriminate].
  - apply finish_good. assumption.
  - apply finish_good. assumption.
Qed.

Lemma finish_exact (s : bool) (m : positive) (e : Z) :
  canonP (Zpos m) e -> e <= 104 ->
  finish s (Zpos m) loc_Exact e = S754_finite s m e.
Proof.
  intros Hc He. pose proof (finish_cases s (Zpos m) loc_Exact e Hc) as Hf.
  destruct Hc as (HE & HM & Hn). simpl round_nearest_even in Hf.
  inversion Hf as [H0 | p Hp Hlt HE' | Hr' HE' | H24 HE' | H24 HE']; try lia.
  injection Hp as ->. reflexivity.
Qed.

Lemma F2R_pos (m : positive) (e : Z) : (0 < IZR (Zpos m) * bpow e)%R.
Proof.
  apply Rmult_lt_0_compat; [apply (IZR_lt 0); lia | apply bpow_gt_0].
Qed.

Lemma inbetween_exact_scaled (m : positive) (e : Z) :
  inbetween (IZR (Zpos m) * bpow e * bpow (- e)) (Zpos m) loc_Exact.
Proof.
  unfold inbetween. rewrite Rmult_assoc.
  replace (bpow e * bpow (- e))%R with 1%R; [lra |].
  rewrite Rmult_comm, bpow_inv_l. reflexivity.
Qed.

(** A number of the format rounds to itself. *)
Lemma RN_exact (g f : spec_float) :
  valid_binary F32.prec F32.emax g = true ->
  (exists s m e, g = S754_finite s m e) ->
  RN (F2R g) f -> f = g.
Proof.
  intros Hv (s & m & e & ->) HR.
  apply valid_canon in Hv. destruct Hv as [Hc He].
  pose proof (F2R_pos m e) as Hpos.
  pose proof (inbetween_exact_scaled m e) as Hex.
  destruct HR as [(H0 & _) | [(Hp & M & l & E & Hc' & Hin & ->)
                             | (Hn & M & l & E & Hc' & Hin & ->)]];
    simpl F2R in *; destruct s; try (exfalso; lra).
  - destruct (canon_unique _ _ _ _ _ _ _ Hc Hex Hc' Hin) as (<- & <- & <-).
    apply finish_exact; assumption.
  - rewrite Ropp_involutive in Hin.
    destruct (canon_unique _ _ _ _ _ _ _ Hc Hex Hc' Hin) as (<- & <- & <-).
    apply finish_exact; assumption.
Qed.

(** *** Comparison *)

Lemma good_finite_bounds (s : bool) (m : positive) (e : Z) :
  valid_binary F32.prec F32.emax (S754_finite s m e) = true ->
  (IZR (Zpos m) * bpow e < bpow 128)%R.
Proof.
  intros Hv. apply valid_canon in Hv. destruct Hv as [(HE & HM & Hn) He].
  rewrite bpow_128_split.
  assert (IZR (Zpos m) <= 16777215)%R by (apply (IZR_le _ 16777215); lia).
  assert (0 < IZR (Zpos m))%R by (apply (IZR_lt 0); lia).
  assert (bpow e <= bpow 104)%R by (apply bpow_le; assumption).
  pose proof (bpow_gt_0 e). pose proof (bpow_gt_0 104).
  apply Rle_lt_trans with (16777215 * bpow 104)%R; [| lra].
  apply Rmult_le_compat; lra.
Qed.

Lemma key_bounds (f : spec_float) :
  good f -> (- bpow 128 <= key f <= bpow 128)%R.
Proof.
  intros [Hv Hn]. pose proof (bpow_gt_0 128).
  destruct f as [s | s | | s m e]; simpl key; simpl F2R.
  - lra.
  - destruct s; lra.
  - contradiction.
  - pose proof (good_finite_bounds s m e Hv). pose proof (F2R_pos m e).
    destruct s; lra.
Qed.


Lemma lex_compare_spec (m1 m2 : positive) (e1 e2 : Z) :
  canonP (Zpos m1) e1 -> canonP (Zpos m2) e2 ->
  cmp_spec (match e1 ?= e2 with
            | Lt => Lt
            | Gt => Gt
            | Eq => Pos.compare_cont Eq m1 m2
            end)
           (IZR (Zpos m1) * bpow e1) (IZR (Zpos m2) * bpow e2).
Proof.
  intros (HE1 & HM1 & Hn1) (HE2 & HM2 & Hn2).
  pose proof (bpow_gt_0 e1). pose proof (bpow_gt_0 e2).
  assert (Hcross : forall (a b : positive) (ea eb : Z),
             Zpos a < 2 ^ 24 -> 2 ^ 23 <= Zpos b -> ea < eb ->
             (IZR (Zpos a) * bpow ea < IZR (Zpos b) * bpow eb)%R).
  { intros a b ea eb Ha Hb Hlt.
    assert (IZR (Zpos a) <= 16777215)%R by (apply (IZR_le _ 16777215); lia).
    assert (8388608 <= IZR (Zpos b))%R by (apply (IZR_le 8388608); lia).
    assert (2 * bpow ea <= bpow eb)%R.
    { rewrite <- bpow_succ. apply bpow_le. lia. }
    pose proof (bpow_gt_0 ea). pose proof (bpow_gt_0 eb).
    apply Rle_lt_trans with (16777215 * bpow ea)%R.
    - apply Rmult_le_compat_r; lra.
    - apply Rlt_le_trans with (8388608 * bpow eb)%R; [lra |].
      apply Rmult_le_compat_r; lra. }
  destruct (Z.compare_spec e1 e2) as [-> | Hlt | Hgt].
  - change (Pos.compare_cont Eq m1 m2) with (Pos.compare m1 m2).
    destruct (Pos.compare_spec m1 m2) as [-> | Hlt | Hgt]; unfold cmp_spec.
    + reflexivity.
    + apply Rmult_lt_compat_r; [assumption |]. apply IZR_lt. lia.
    + apply Rmult_lt_compat_r; [assumption |]. apply IZR_lt. lia.
  - unfold cmp_spec. apply Hcross; lia.
  - unfold cmp_spec. apply Hcross; lia.
Qed.

Lemma SFcompare_key (f g : spec_float) :
  good f -> good g ->
  exists c, SFcompare f g = Some c /\ cmp_spec c (key f) (key g).
Proof.
  intros [Hvf Hnf] [Hvg Hng].
  pose proof (bpow_gt_0 128) as H128.
  destruct f as [sf | sf | | sf mf ef], g as [sg | sg | | sg mg eg];
    try contradiction; simpl SFcompare; eexists; (split; [reflexivity |]);
    simpl key; simpl F2R;
    try pose proof (good_finite_bounds _ _ _ Hvf);
    try pose proof (good_finite_bounds _ _ _ Hvg);
    try pose proof (F2R_pos mf ef); try pose proof (F2R_pos mg eg).
  - reflexivity.
  - destruct sg; unfold cmp_spec; lra.
  - destruct sg; unfold cmp_spec; lra.
  - destruct sf; unfold cmp_spec; lra.
  - destruct sf, sg; unfold cmp_spec; lra.
  - destruct sf, sg; unfold cmp_spec; lra.
  - destruct sf; unfold cmp_spec; lra.
  - destruct sf, sg; unfold cmp_spec; lra.
  - apply valid_canon in Hvf, Hvg. destruct Hvf as [Hcf _], Hvg as [Hcg _].
    pose proof (lex_compare_spec mf mg ef eg Hcf Hcg) as Hlex.
    destruct sf, sg; try (unfold cmp_spec; lra).
    + destruct (ef ?= eg); try (unfold cmp_spec in *; lra).
      destruct (Pos.compare_cont Eq mf mg); unfold cmp_spec in *; simpl; lra.
    + assumption.
Qed.

Lemma SFltb_key (f g : spec_float) :
  good f -> good g -> (SFltb f g = true <-> (key f < key g)%R).
Proof.
  intros Hf Hg. destruct (SFcompare_key f g Hf Hg) as (c & Hc & Hs).
  unfold SFltb. rewrite Hc.
  destruct c; unfold cmp_spec in Hs; split; intros H;
    try reflexivity; try discriminate; lra.
Qed.

Lemma SFleb_key (f g : spec_float) :
  good f -> good g -> (SFleb f g = true <-> (key f <= key g)%R).
Proof.
  intros Hf Hg. destruct (SFcompare_key f g Hf Hg) as (c & Hc & Hs).
  unfold SFleb. rewrite Hc.
  destruct c; unfold cmp_spec in Hs; split; intros H;
    try reflexivity; try discriminate; lra.
Qed.

(** *** [binary_round_aux], [binary_round], [binary_normalize] *)

Lemma binary_round_aux_finish (s : bool) (m e : Z) (l : location) :
  binary_round_aux F32.prec F32.emax s m e l
  = finish s (shr_m (fst (shr_fexp F32.prec F32.emax m e l)))
           (loc_of_shr_record (fst (shr_fexp F32.prec F32.emax m e l)))
           (snd (shr_fexp F32.prec F32.emax m e l)).
Proof.
  unfold binary_round_aux, finish.
  destruct (shr_fexp F32.prec F32.emax m e l) as [mrs E]. reflexivity.
Qed.

Lemma binary_round_aux_rounds (s : bool) (m e : Z) (l : location) (X : R) :
  0 <= m ->
  (0 < X)%R ->
  inbetween (X * bpow (- e)) m l ->
  e <= fexp F32.prec F32.emax (Zdigits2 m + e) ->
  rounds_pos s X (binary_round_aux F32.prec F32.emax s m e l).
Proof.
  intros Hm HX Hin Hn. rewrite binary_round_aux_finish.
  pose proof (shr_fexp_canon m e l X Hm HX Hin Hn) as H.
  destruct (shr_fexp F32.prec F32.emax m e l) as [mrs E]. destruct H as [Hc Hi].
  exists (shr_m mrs), (loc_of_shr_record mrs), E. auto.
Qed.

Lemma iter_xO_value (d m : positive) :
  Zpos (Pos.iter xO m d) = Zpos m * 2 ^ Zpos d.
Proof.
  revert m. induction d as [| d IH] using Pos.peano_ind; intros m.
  - simpl. lia.
  - rewrite Pos.iter_succ, Pos2Z.inj_xO, IH, Pos2Z.inj_succ.
    unfold Z.succ. rewrite Z.pow_add_r by lia. change (2 ^ 1) with 2. lia.
Qed.

Lemma iter_xO_digits (d m : positive) :
  Zpos (digits2_pos (Pos.iter xO m d)) = Zpos (digits2_pos m) + Zpos d.
Proof.
  revert m. induction d as [| d IH] using Pos.peano_ind; intros m.
  - simpl. lia.
  - rewrite Pos.iter_succ. simpl digits2_pos.
    rewrite Pos2Z.inj_succ, IH, Pos2Z.inj_succ. lia.
Qed.

Lemma shl_align_value (m : positive) (e e' : Z) :
  e' <= e ->
  Zpos (fst (shl_align m e e')) = Zpos m * 2 ^ (e - e')
  /\ snd (shl_align m e e') = e'.
Proof.
  intros H. unfold shl_align.
  destruct (e' - e) as [| d | d] eqn:Hd; try lia; simpl fst; simpl snd.
  - replace (e - e') with 0 by lia. simpl. lia.
  - rewrite iter_xO_value. replace (e - e') with (Zpos d) by lia. auto.
Qed.

Lemma IZR_pow2_bpow (m : Z) (k e : Z) :
  0 <= k -> (IZR (m * 2 ^ k) * bpow e = IZR m * bpow (k + e))%R.
Proof.
  intros Hk. rewrite mult_IZR, <- bpow_IZR, bpow_plus by assumption. lra.
Qed.

Lemma binary_round_rounds (s : bool) (m : positive) (e : Z) :
  rounds_pos s (IZR (Zpos m) * bpow e) (binary_round F32.prec F32.emax s m e).
Proof.
  unfold binary_round.
  set (e' := fexp F32.prec F32.emax (Zpos (digits2_pos m) + e)).
  destruct (Z.le_gt_cases e e') as [Hle | Hgt].
  - (* already at or below the canonical exponent *)
    assert (Hs : shl_align m e e' = (m, e)).
    { unfold shl_align. destruct (e' - e) eqn:Hd; try lia; reflexivity. }
    rewrite Hs. apply binary_round_aux_rounds.
    + lia.
    + apply F2R_pos.
    + apply inbetween_exact_scaled.
    + exact Hle.
  - destruct (shl_align_value m e e' ltac:(lia)) as [Hv He].
    destruct (shl_align m e e') as [mz ez]. cbn [fst snd] in Hv, He. subst ez.
    assert (Hval : (IZR (Zpos mz) * bpow e' = IZR (Zpos m) * bpow e)%R).
    { rewrite Hv, IZR_pow2_bpow by lia. f_equal. f_equal. lia. }
    rewrite <- Hval. apply binary_round_aux_rounds.
    + lia.
    + apply F2R_pos.
    + apply inbetween_exact_scaled.
    + assert (Hdig : Zpos (digits2_pos mz) = Zpos (digits2_pos m) + (e - e')).
      { apply digits_unique.
        pose proof (digits2_pos_bounds m) as [Hl Hu].
        rewrite Hv.
        replace (Zpos (digits2_pos m) + (e - e') - 1)
          with (Zpos (digits2_pos m) - 1 + (e - e')) by lia.
        rewrite !Z.pow_add_r by lia.
        assert (0 < 2 ^ (e - e')) by (apply Z.pow_pos_nonneg; lia).
        split; nia. }
      simpl Zdigits2. rewrite Hdig.
      replace (Zpos (digits2_pos m) + (e - e') + e')
        with (Zpos (digits2_pos m) + e) by lia.
      fold e'. lia.
Qed.

Lemma binary_normalize_RN (m e : Z) (sz : bool) :
  RN (IZR m * bpow e) (binary_normalize F32.prec F32.emax m e sz).
Proof.
  destruct m as [| p | p]; simpl binary_normalize.
  - left. split; [lra | eauto].
  - right. left. split; [apply F2R_pos | apply binary_round_rounds].
  - right. right.
    assert (Hneg : (IZR (Zneg p) * bpow e = - (IZR (Zpos p) * bpow e))%R).
    { change (Zneg p) with (- Zpos p). rewrite opp_IZR. lra. }
    rewrite Hneg. pose proof (F2R_pos p e). split; [lra |].
    rewrite Ropp_involutive. apply binary_round_rounds.
Qed.

Lemma RN_self (g : spec_float) :
  valid_binary F32.prec F32.emax g = true ->
  g <> S754_nan -> (forall s, g <> S754_infinity s) ->
  RN (F2R g) g.
Proof.
  intros Hv Hn Hi. destruct g as [s | s | | s m e].
  - left. split; [reflexivity | eauto].
  - exfalso. apply (Hi s). reflexivity.
  - contradiction.
  - apply valid_canon in Hv. destruct Hv as [Hc He].
    pose proof (F2R_pos m e). simpl F2R.
    destruct s.
    + right. right. split; [lra |]. rewrite Ropp_involutive.
      exists (Zpos m), loc_Exact, e. repeat split; try apply Hc.
      * apply inbetween_exact_scaled.
      * symmetry. apply finish_exact; assumption.
    + right. left. split; [lra |].
      exists (Zpos m), loc_Exact, e. repeat split; try apply Hc.
      * apply inbetween_exact_scaled.
      * symmetry. apply finish_exact; assumption.
Qed.

(** *** The operations *)


Lemma valid_fexp (s : bool) (m : positive) (e : Z) :
  valid_binary F32.prec F32.emax (S754_finite s m e) = true ->
  Z.max (Zpos (digits2_pos m) + e - 24) (-149) = e /\ e <= 104.
Proof.
  cbn [valid_binary]. unfold bounded, canonical_mantissa. rewrite fexp_eq.
  rewrite andb_true_iff, Z.eqb_eq, Z.leb_le. unfold F32.emax, F32.prec. lia.
Qed.

Lemma signed_mul (sx sy : bool) (a b : R) :
  ((if sx then - a else a) * (if sy then - b else b)
   = if xorb sx sy then - (a * b) else a * b)%R.
Proof. destruct sx, sy; simpl; lra. Qed.

Lemma signed_div (sx sy : bool) (a b : R) :
  (b <> 0)%R ->
  ((if sx then - a else a) / (if sy then - b else b)
   = if xorb sx sy then - (a / b) else a / b)%R.
Proof. intros Hb. destruct sx, sy; simpl; field; lra. Qed.

Lemma rounds_pos_RN (s : bool) (X : R) (f : spec_float) :
  (0 < X)%R -> rounds_pos s X f -> RN (if s then - X else X)%R f.
Proof.
  intros HX H. destruct s.
  - right. right. split; [lra |]. rewrite Ropp_involutive. assumption.
  - right. left. split; assumption.
Qed.

Lemma digits_mul_lower (a b : positive) :
  Zpos (digits2_pos a) + Zpos (digits2_pos b) - 1 <= Zpos (digits2_pos (a * b)).
Proof.
  pose proof (digits2_pos_bounds a) as [Ha _].
  pose proof (digits2_pos_bounds b) as [Hb _].
  pose proof (digits2_pos_bounds (a * b)) as [_ Hab].
  set (da := Zpos (digits2_pos a)) in *. set (db := Zpos (digits2_pos b)) in *.
  set (d := Zpos (digits2_pos (a * b))) in *.
  assert (0 < da) by (unfold da; lia). assert (0 < db) by (unfold db; lia).
  destruct (Z.le_gt_cases (da + db - 1) d) as [| Hgt]; [assumption | exfalso].
  assert (H1 : 2 ^ (da - 1) * 2 ^ (db - 1) <= Zpos a * Zpos b).
  { apply Z.mul_le_mono_nonneg; try lia; apply Z.pow_nonneg; lia. }
  rewrite <- Z.pow_add_r in H1 by lia.
  assert (H2 : 2 ^ d <= 2 ^ (da - 1 + (db - 1))) by (apply Z.pow_le_mono_r; lia).
  rewrite Pos2Z.inj_mul in Hab. lia.
Qed.

Lemma SFmul_RN (x y : spec_float) :
  valid_binary F32.prec F32.emax x = true -> valid_binary F32.prec F32.emax y = true ->
  finite_or_zero x -> finite_or_zero y ->
  RN (F2R x * F2R y) (SFmul F32.prec F32.emax x y).
Proof.
  intros Hx Hy Fx Fy.
  destruct x as [sx | sx | | sx mx ex], y as [sy | sy | | sy my ey];
    try contradiction; simpl SFmul; simpl F2R.
  - left. split; [lra | eauto].
  - left. split; [lra | eauto].
  - left. split; [lra | eauto].
  - rewrite signed_mul.
    replace (IZR (Zpos mx) * bpow ex * (IZR (Zpos my) * bpow ey))%R
      with (IZR (Zpos (mx * my)) * bpow (ex + ey))%R
      by (rewrite Pos2Z.inj_mul, mult_IZR, bpow_plus; lra).
    apply rounds_pos_RN; [apply F2R_pos |].
    apply binary_round_aux_rounds.
    + lia.
    + apply F2R_pos.
    + apply inbetween_exact_scaled.
    + rewrite fexp_eq. simpl Zdigits2.
      pose proof (digits_mul_lower mx my).
      apply valid_fexp in Hx, Hy.
      assert (0 < Zpos (digits2_pos mx)) by lia.
      assert (0 < Zpos (digits2_pos my)) by lia. lia.
Qed.

Lemma new_location_inbetween (nb k q : Z) :
  0 < nb -> 0 <= k < nb ->
  inbetween (IZR q + IZR k / IZR nb) q (new_location nb k).
Proof.
  intros Hnb Hk.
  assert (HnbR : (0 < IZR nb)%R) by (apply (IZR_lt 0); assumption).
  assert (Hscale : forall c : R, (c / IZR nb * IZR nb = c)%R) by (intros; field; lra).
  assert (Hhalf : forall c : R,
             (2 * c < IZR nb -> c / IZR nb < / 2)%R
             /\ (2 * c = IZR nb -> c / IZR nb = / 2)%R
             /\ (2 * c > IZR nb -> c / IZR nb > / 2)%R).
  { intros c. repeat split; intros H.
    - apply Rmult_lt_reg_r with (IZR nb); [assumption |]. rewrite Hscale. lra.
    - apply Rmult_eq_reg_r with (IZR nb); [| lra]. rewrite Hscale. lra.
    - apply Rmult_lt_reg_r with (IZR nb); [assumption |]. rewrite Hscale. lra. }
  assert (Hlt1 : (IZR k / IZR nb < 1)%R).
  { apply Rmult_lt_reg_r with (IZR nb); [assumption |]. rewrite Hscale.
    rewrite Rmult_1_l. apply IZR_lt. lia. }
  assert (Hpos : 0 < k -> (0 < IZR k / IZR nb)%R).
  { intros. apply Rdiv_lt_0_compat; [apply (IZR_lt 0) |]; assumption. }
  destruct (Hhalf (IZR k)) as (HLt & HEq & HGt).
  assert (H2k : (2 * IZR k = IZR (2 * k))%R) by (rewrite mult_IZR; reflexivity).
  unfold new_location, new_location_even, new_location_odd.
  destruct (Z.even nb) eqn:Heven.
  - destruct (Z.eqb_spec k 0) as [-> | Hk0].
    + unfold inbetween. unfold Rdiv. lra.
    + destruct (Z.compare_spec (2 * k) nb) as [Heq | Hlt | Hgt]; unfold inbetween.
      * rewrite HEq; [lra |]. rewrite H2k, Heq. reflexivity.
      * specialize (Hpos ltac:(lia)).
        assert (IZR k / IZR nb < / 2)%R by (apply HLt; rewrite H2k; apply IZR_lt; lia).
        lra.
      * assert (IZR k / IZR nb > / 2)%R by (apply HGt; rewrite H2k; apply IZR_lt; lia).
        lra.
  - destruct (Z.eqb_spec k 0) as [-> | Hk0].
    + unfold inbetween. unfold Rdiv. lra.
    + assert (Hodd : 2 * k <> nb).
      { intros <-. rewrite Z.even_mul in Heven. discriminate. }
      destruct (Z.compare_spec (2 * k + 1) nb) as [Heq | Hlt | Hgt]; unfold inbetween.
      * specialize (Hpos ltac:(lia)).
        assert (IZR k / IZR nb < / 2)%R by (apply HLt; rewrite H2k; apply IZR_lt; lia).
        lra.
      * specialize (Hpos ltac:(lia)).
        assert (IZR k / IZR nb < / 2)%R by (apply HLt; rewrite H2k; apply IZR_lt; lia).
        lra.
      * assert (IZR k / IZR nb > / 2)%R by (apply HGt; rewrite H2k; apply IZR_lt; lia).
        lra.
Qed.

Lemma Zdigits2_ge_24 (q : Z) : 2 ^ 23 <= q -> 24 <= Zdigits2 q.
Proof.
  intros Hq. destruct q as [| p | p]; try lia. simpl.
  pose proof (digits2_pos_bounds p) as [_ Hu].
  destruct (Z.le_gt_cases 24 (Zpos (digits2_pos p))) as [| Hlt]; [assumption |].
  assert (2 ^ Zpos (digits2_pos p) <= 2 ^ 23) by (apply Z.pow_le_mono_r; lia). lia.
Qed.

Lemma SFdiv_core_binary_spec (mx my : positive) (ex ey : Z) :
  valid_binary F32.prec F32.emax (S754_finite false mx ex) = true ->
  valid_binary F32.prec F32.emax (S754_finite false my ey) = true ->
  let '(q, e', l) := SFdiv_core_binary F32.prec F32.emax (Zpos mx) ex (Zpos my) ey in
  0 <= q
  /\ inbetween (IZR (Zpos mx) * bpow ex / (IZR (Zpos my) * bpow ey) * bpow (- e')) q l
  /\ e' <= fexp F32.prec F32.emax (Zdigits2 q + e').
Proof.
  intros Hx Hy. unfold SFdiv_core_binary. rewrite !fexp_eq.
  apply valid_fexp in Hx, Hy. simpl Zdigits2.
  pose proof (digits2_pos_bounds mx) as [Hlx Hux].
  pose proof (digits2_pos_bounds my) as [Hly Huy].
  set (d1 := Zpos (digits2_pos mx)) in *. set (d2 := Zpos (digits2_pos my)) in *.
  assert (Hd1 : 0 < d1) by (unfold d1; lia).
  assert (Hd2 : 0 < d2) by (unfold d2; lia).
  set (e' := Z.min (Z.max (d1 + ex - (d2 + ey) - 24) (-149)) (ex - ey)).
  set (s := ex - ey - e').
  assert (Hs : 0 <= s) by (unfold s, e'; lia).
  set (m' := match s with
             | 0 => Zpos mx
             | Zpos _ => Z.shiftl (Zpos mx) s
             | Zneg _ => 0
             end).
  assert (Hm' : m' = Zpos mx * 2 ^ s).
  { unfold m'. destruct s as [| p | p] eqn:Hsp; try lia.
    rewrite Z.shiftl_mul_pow2 by lia. reflexivity. }
  clearbody m'.
  pose proof (Z_div_mod m' (Zpos my) ltac:(lia)) as Hdm.
  destruct (Z.div_eucl m' (Zpos my)) as [q r]. destruct Hdm as [Hq Hr].
  assert (H2s : 0 < 2 ^ s) by (apply Z.pow_pos_nonneg; lia).
  assert (Hq0 : 0 <= q) by nia.
  split; [assumption |]. split.
  - assert (HmyR : (0 < IZR (Zpos my))%R) by (apply (IZR_lt 0); lia).
    pose proof (bpow_gt_0 ey) as Hbey.
    replace (IZR (Zpos mx) * bpow ex / (IZR (Zpos my) * bpow ey) * bpow (- e'))%R
      with (IZR q + IZR r / IZR (Zpos my))%R.
    + apply new_location_inbetween; lia.
    + assert (HR : (IZR (Zpos mx) * bpow s = IZR (Zpos my) * IZR q + IZR r)%R).
      { rewrite bpow_IZR by lia. rewrite <- !mult_IZR, <- plus_IZR.
        f_equal. lia. }
      assert (Hb : (bpow ex = bpow s * bpow ey * bpow e')%R).
      { rewrite <- !bpow_plus. f_equal. unfold s. lia. }
      rewrite Hb, bpow_opp. pose proof (bpow_gt_0 e'). pose proof (bpow_gt_0 s).
      apply Rmult_eq_reg_r with (IZR (Zpos my)); [| lra].
      transitivity (IZR (Zpos mx) * bpow s)%R;
        [rewrite HR; field; apply Rgt_not_eq; assumption
        | field; repeat split; apply Rgt_not_eq; assumption].
  - rewrite fexp_eq.
    destruct (Z.le_gt_cases e' (-149)) as [| Hgt]; [lia |].
    assert (Hsb : 24 - d1 + d2 <= s) by (unfold s, e' in *; lia).
    assert (Hq23 : 2 ^ 23 <= q).
    { assert (H1 : 2 ^ (23 + d2) <= m').
      { rewrite Hm'.
        assert (Ha : 2 ^ (23 + d2) <= 2 ^ (d1 - 1 + s)) by (apply Z.pow_le_mono_r; lia).
        assert (Hb : 2 ^ (d1 - 1 + s) <= Zpos mx * 2 ^ s).
        { rewrite Z.pow_add_r by lia. apply Z.mul_le_mono_nonneg_r; lia. }
        lia. }
      rewrite Z.pow_add_r in H1 by lia.
      assert (H23 : 0 < 2 ^ 23) by lia.
      destruct (Z.le_gt_cases (2 ^ 23) q) as [| Hlt]; [assumption | exfalso].
      assert (q + 1 <= 2 ^ 23) by lia.
      assert (Zpos my * (q + 1) <= Zpos my * 2 ^ 23) by nia.
      nia. }
    pose proof (Zdigits2_ge_24 q Hq23). lia.
Qed.

Lemma SFdiv_RN (x y : spec_float) :
  valid_binary F32.prec F32.emax x = true -> valid_binary F32.prec F32.emax y = true ->
  finite_or_zero x -> (exists s m e, y = S754_finite s m e) ->
  RN (F2R x / F2R y) (SFdiv F32.prec F32.emax x y).
Proof.
  intros Hx Hy Fx (sy & my & ey & ->).
  pose proof (F2R_pos my ey) as Hypos.
  destruct x as [sx | sx | | sx mx ex]; try contradiction; simpl SFdiv; simpl F2R.
  - left. split; [unfold Rdiv; lra | eauto].
  - rewrite signed_div by lra.
    pose proof (SFdiv_core_binary_spec mx my ex ey Hx Hy) as Hcore.
    destruct (SFdiv_core_binary F32.prec F32.emax (Zpos mx) ex (Zpos my) ey) as [[q e'] l].
    destruct Hcore as (Hq & Hin & Hn).
    pose proof (F2R_pos mx ex) as Hxpos.
    assert (HX : (0 < IZR (Zpos mx) * bpow ex / (IZR (Zpos my) * bpow ey))%R)
      by (apply Rdiv_lt_0_compat; assumption).
    apply rounds_pos_RN; [assumption |].
    apply binary_round_aux_rounds; assumption.
Qed.

Lemma shl_align_min (m : positive) (e e2 : Z) :
  (IZR (Zpos (fst (shl_align m e (Z.min e e2)))) * bpow (Z.min e e2)
   = IZR (Zpos m) * bpow e)%R.
Proof.
  destruct (shl_align_value m e (Z.min e e2) ltac:(lia)) as [Hv _].
  rewrite Hv, IZR_pow2_bpow by lia. f_equal. f_equal. lia.
Qed.

Lemma shl_align_min_r (m : positive) (e e1 : Z) :
  (IZR (Zpos (fst (shl_align m e (Z.min e1 e)))) * bpow (Z.min e1 e)
   = IZR (Zpos m) * bpow e)%R.
Proof. rewrite Z.min_comm. apply shl_align_min. Qed.

Lemma cond_Zopp_IZR (s : bool) (m : Z) (b : R) :
  (IZR (cond_Zopp s m) * b = if s then - (IZR m * b) else IZR m * b)%R.
Proof. destruct s; simpl; [rewrite opp_IZR |]; lra. Qed.

Lemma SFsub_RN (x y : spec_float) :
  valid_binary F32.prec F32.emax x = true -> valid_binary F32.prec F32.emax y = true ->
  finite_or_zero x -> finite_or_zero y ->
  RN (F2R x - F2R y) (SFsub F32.prec F32.emax x y).
Proof.
  intros Hx Hy Fx Fy.
  destruct x as [sx | sx | | sx mx ex], y as [sy | sy | | sy my ey];
    try contradiction; simpl SFsub.
  - simpl F2R. left. split; [lra |]. destruct sx, sy; eauto.
  - replace (F2R (S754_zero sx) - F2R (S754_finite sy my ey))%R
      with (F2R (S754_finite (negb sy) my ey))
      by (simpl; destruct sy; simpl; lra).
    apply RN_self; [exact Hy | discriminate | discriminate].
  - replace (F2R (S754_finite sx mx ex) - F2R (S754_zero sy))%R
      with (F2R (S754_finite sx mx ex)) by (simpl; lra).
    apply RN_self; [exact Hx | discriminate | discriminate].
  - match goal with |- RN ?X (binary_normalize _ _ ?m ?e _) =>
      replace X with (IZR m * bpow e)%R; [apply binary_normalize_RN |]
    end.
    rewrite minus_IZR, Rmult_minus_distr_r, !cond_Zopp_IZR.
    rewrite shl_align_min, shl_align_min_r. reflexivity.
Qed.

Lemma SFadd_RN (x y : spec_float) :
  valid_binary F32.prec F32.emax x = true -> valid_binary F32.prec F32.emax y = true ->
  finite_or_zero x -> finite_or_zero y ->
  RN (F2R x + F2R y) (SFadd F32.prec F32.emax x y).
Proof.
  intros Hx Hy Fx Fy.
  destruct x as [sx | sx | | sx mx ex], y as [sy | sy | | sy my ey];
    try contradiction; simpl SFadd.
  - simpl F2R. left. split; [lra |]. destruct sx, sy; eauto.
  - replace (F2R (S754_zero sx) + F2R (S754_finite sy my ey))%R
      with (F2R (S754_finite sy my ey)) by (simpl; lra).
    apply RN_self; [exact Hy | discriminate | discriminate].
  - replace (F2R (S754_finite sx mx ex) + F2R (S754_zero sy))%R
      with (F2R (S754_finite sx mx ex)) by (simpl; lra).
    apply RN_self; [exact Hx | discriminate | discriminate].
  - match goal with |- RN ?X (binary_normalize _ _ ?m ?e _) =>
      replace X with (IZR m * bpow e)%R; [apply binary_normalize_RN |]
    end.
    rewrite plus_IZR, Rmult_plus_distr_r, !cond_Zopp_IZR.
    rewrite shl_align_min, shl_align_min_r. reflexivity.
Qed.

Lemma of_int_RN (n : Z) : RN (IZR n) (binary_normalize F32.prec F32.emax n 0 false).
Proof.
  replace (IZR n) with (IZR n * bpow 0)%R by (rewrite bpow_0; lra).
  apply binary_normalize_RN.
Qed.

(** ** The percentage conversion *)

Section Percentage.

Local Abbreviation f0 := (S754_zero false).
Local Abbreviation f1 := (S754_finite false 8388608 (-23)).
Local Abbreviation f100 := (S754_finite false 13107200 (-17)).

Lemma bpow_neg (k : Z) : 0 <= k -> bpow (- k) = (/ IZR (2 ^ k))%R.
Proof. intros Hk. rewrite bpow_opp, bpow_IZR by assumption. reflexivity. Qed.

Lemma of_int_0 : F32.of_int 0 = f0.
Proof. reflexivity. Qed.

Lemma of_int_100 : F32.of_int 100 = f100.
Proof. reflexivity. Qed.

Lemma key_f100 : key f100 = 100%R.
Proof.
  simpl key. simpl F2R. change (-17) with (- (17)). rewrite bpow_neg by lia.
  change (IZR (2 ^ 17)) with 131072%R. lra.
Qed.

Lemma F2R_f1 : F2R f1 = 1%R.
Proof.
  simpl F2R. change (-23) with (- (23)). rewrite bpow_neg by lia.
  change (IZR (2 ^ 23)) with 8388608%R. lra.
Qed.

Lemma F2R_2p31 : F2R (S754_finite false 8388608 8) = 2147483648%R.
Proof.
  simpl F2R. rewrite bpow_IZR by lia. change (IZR (2 ^ 8)) with 256%R. lra.
Qed.

Lemma bpow_128_big : (2147483648 < bpow 128)%R.
Proof.
  replace 2147483648%R with (bpow 31).
  - apply bpow_lt. lia.
  - rewrite bpow_IZR by lia. reflexivity.
Qed.

Lemma F2R_opp (s : bool) (m : positive) (e : Z) :
  F2R (S754_finite (negb s) m e) = (- F2R (S754_finite s m e))%R.
Proof. destruct s; simpl; lra. Qed.

(** An [int] other than zero converts to a finite number of the same
    sign and of magnitude between 1 and 2^31. *)
Lemma of_int_shape (h : Z) :
  is_int h -> h <> 0 ->
  exists m e,
    F32.of_int h = S754_finite (h <? 0) m e
    /\ valid_binary F32.prec F32.emax (S754_finite (h <? 0) m e) = true
    /\ (1 <= IZR (Zpos m) * bpow e <= 2147483648)%R.
Proof.
  intros Hint Hnz. unfold is_int, INT_MIN, INT_MAX in Hint.
  pose proof (of_int_RN h) as HR. fold (F32.of_int h) in HR.
  pose proof (RN_good _ _ HR) as [Hv Hnan].
  pose proof bpow_128_big as Hbig.
  assert (Hone : RN 1 f1).
  { rewrite <- F2R_f1. apply RN_self; [reflexivity | discriminate | discriminate]. }
  assert (Hmax : RN 2147483648 (S754_finite false 8388608 8)).
  { rewrite <- F2R_2p31. apply RN_self; [reflexivity | discriminate | discriminate]. }
  assert (Hmone : RN (-1) (S754_finite true 8388608 (-23))).
  { replace (-1)%R with (F2R (S754_finite true 8388608 (-23)))
      by (rewrite (F2R_opp false), F2R_f1; reflexivity).
    apply RN_self; [reflexivity | discriminate | discriminate]. }
  assert (Hmin : RN (-2147483648) (S754_finite true 8388608 8)).
  { replace (-2147483648)%R with (F2R (S754_finite true 8388608 8))
      by (rewrite (F2R_opp false), F2R_2p31; reflexivity).
    apply RN_self; [reflexivity | discriminate | discriminate]. }
  pose proof F2R_f1 as E1. pose proof F2R_2p31 as E31. simpl F2R in E1, E31.
  destruct (Z.ltb_spec h 0) as [Hneg | Hpos].
  - assert (H1 : (IZR h <= -1)%R) by (apply (IZR_le _ (-1)); lia).
    assert (H2 : (-2147483648 <= IZR h)%R) by (apply (IZR_le (-2147483648)); lia).
    pose proof (RN_mono _ _ _ _ HR Hmone H1) as K1.
    pose proof (RN_mono _ _ _ _ Hmin HR H2) as K2.
    destruct (F32.of_int h) as [s | s | | s m e]; simpl key in *; simpl F2R in *.
    + exfalso; lra.
    + exfalso; destruct s; lra.
    + contradiction.
    + pose proof (F2R_pos m e). destruct s; [| exfalso; lra].
      exists m, e. repeat split; [assumption | lra | lra].
  - assert (H1 : (1 <= IZR h)%R) by (apply (IZR_le 1); lia).
    assert (H2 : (IZR h <= 2147483648)%R) by (apply (IZR_le _ 2147483648); lia).
    pose proof (RN_mono _ _ _ _ Hone HR H1) as K1.
    pose proof (RN_mono _ _ _ _ HR Hmax H2) as K2.
    destruct (F32.of_int h) as [s | s | | s m e]; simpl key in *; simpl F2R in *.
    + exfalso; lra.
    + exfalso; destruct s; lra.
    + contradiction.
    + pose proof (F2R_pos m e). destruct s; [exfalso; lra |].
      exists m, e. repeat split; [assumption | lra | lra].
Qed.

Lemma good_shape (f : spec_float) :
  good f ->
  (finite_or_zero f /\ key f = F2R f /\ (- bpow 128 < key f < bpow 128)%R)
  \/ f = S754_infinity false \/ f = S754_infinity true.
Proof.
  intros [Hv Hn]. destruct f as [s | [] | | s m e]; auto; [left | contradiction | left].
  - pose proof (bpow_gt_0 128). simpl. repeat split; lra.
  - pose proof (good_finite_bounds s m e Hv). pose proof (F2R_pos m e).
    simpl. repeat split; destruct s; lra.
Qed.

Lemma good_inf (s : bool) : good (S754_infinity s).
Proof. split; [reflexivity | discriminate]. Qed.

(** An operation that rounds an increasing function of its finite
    arguments and keeps the infinities is increasing on the whole
    format. *)
Lemma op_increasing (op : spec_float -> spec_float) (phi : R -> R) :
  (forall x, valid_binary F32.prec F32.emax x = true -> finite_or_zero x ->
             RN (phi (F2R x)) (op x)) ->
  (forall s, op (S754_infinity s) = S754_infinity s) ->
  (forall a b, (a <= b)%R -> (phi a <= phi b)%R) ->
  forall x1 x2,
    good x1 -> good x2 -> (key x1 <= key x2)%R ->
    good (op x1) /\ good (op x2) /\ (key (op x1) <= key (op x2))%R.
Proof.
  intros Hfin Hinf Hphi x1 x2 G1 G2 Hk.
  assert (Hgood : forall x, good x -> good (op x)).
  { intros x G. destruct (good_shape x G) as [(F & _) | [-> | ->]].
    - eapply RN_good. apply Hfin; [apply G | exact F].
    - rewrite Hinf. apply good_inf.
    - rewrite Hinf. apply good_inf. }
  split; [apply Hgood; assumption |]. split; [apply Hgood; assumption |].
  pose proof (key_bounds _ (Hgood x1 G1)) as B1.
  pose proof (key_bounds _ (Hgood x2 G2)) as B2.
  destruct (good_shape x1 G1) as [(F1 & K1 & L1) | [-> | ->]];
    destruct (good_shape x2 G2) as [(F2 & K2 & L2) | [-> | ->]];
    rewrite ?Hinf in *; simpl key in *; try lra.
  eapply RN_mono.
  - apply Hfin; [apply G1 | exact F1].
  - apply Hfin; [apply G2 | exact F2].
  - apply Hphi. rewrite <- K1, <- K2. assumption.
Qed.

Lemma op_decreasing (op : spec_float -> spec_float) (phi : R -> R) :
  (forall x, valid_binary F32.prec F32.emax x = true -> finite_or_zero x ->
             RN (phi (F2R x)) (op x)) ->
  (forall s, op (S754_infinity s) = S754_infinity (negb s)) ->
  (forall a b, (a <= b)%R -> (phi b <= phi a)%R) ->
  forall x1 x2,
    good x1 -> good x2 -> (key x1 <= key x2)%R ->
    good (op x1) /\ good (op x2) /\ (key (op x2) <= key (op x1))%R.
Proof.
  intros Hfin Hinf Hphi x1 x2 G1 G2 Hk.
  assert (Hgood : forall x, good x -> good (op x)).
  { intros x G. destruct (good_shape x G) as [(F & _) | [-> | ->]].
    - eapply RN_good. apply Hfin; [apply G | exact F].
    - rewrite Hinf. apply good_inf.
    - rewrite Hinf. apply good_inf. }
  split; [apply Hgood; assumption |]. split; [apply Hgood; assumption |].
  pose proof (key_bounds _ (Hgood x1 G1)) as B1.
  pose proof (key_bounds _ (Hgood x2 G2)) as B2.
  destruct (good_shape x1 G1) as [(F1 & K1 & L1) | [-> | ->]];
    destruct (good_shape x2 G2) as [(F2 & K2 & L2) | [-> | ->]];
    rewrite ?Hinf in *; simpl key in *; try lra.
  eapply RN_mono.
  - apply Hfin; [apply G2 | exact F2].
  - apply Hfin; [apply G1 | exact F1].
  - apply Hphi. rewrite <- K1, <- K2. assumption.
Qed.

Section FixedOperand.

Variables (s : bool) (m : positive) (e : Z).
Hypothesis Hvalid : valid_binary F32.prec F32.emax (S754_finite s m e) = true.

Let c : spec_float := S754_finite s m e.

Lemma sub_from_finite (x1 x2 : spec_float) :
  good x1 -> good x2 -> (key x1 <= key x2)%R ->
  good (F32.sub c x1) /\ good (F32.sub c x2)
  /\ (key (F32.sub c x2) <= key (F32.sub c x1))%R.
Proof.
  apply (op_decreasing (F32.sub c) (fun t => F2R c - t)%R).
  - intros x Hx Fx. apply SFsub_RN; [exact Hvalid | exact Hx | exact I | exact Fx].
  - intros s'. reflexivity.
  - intros a b Hab. lra.
Qed.

Lemma div_by_positive (x1 x2 : spec_float) :
  s = false ->
  good x1 -> good x2 -> (key x1 <= key x2)%R ->
  good (F32.div x1 c) /\ good (F32.div x2 c)
  /\ (key (F32.div x1 c) <= key (F32.div x2 c))%R.
Proof.
  intros Hs.
  apply (op_increasing (fun x => F32.div x c) (fun t => t / F2R c)%R).
  - intros x Hx Fx. apply SFdiv_RN; [exact Hx | exact Hvalid | exact Fx |].
    exists s, m, e. reflexivity.
  - intros s'. unfold c. rewrite Hs. destruct s'; reflexivity.
  - intros a b Hab. unfold c. rewrite Hs. simpl F2R.
    pose proof (F2R_pos m e) as Hp.
    apply Rmult_le_compat_r; [| assumption].
    apply Rlt_le. apply Rinv_0_lt_compat. assumption.
Qed.

Lemma mul_by_positive (x1 x2 : spec_float) :
  s = false ->
  good x1 -> good x2 -> (key x1 <= key x2)%R ->
  good (F32.mul x1 c) /\ good (F32.mul x2 c)
  /\ (key (F32.mul x1 c) <= key (F32.mul x2 c))%R.
Proof.
  intros Hs.
  apply (op_increasing (fun x => F32.mul x c) (fun t => t * F2R c)%R).
  - intros x Hx Fx. apply SFmul_RN; [exact Hx | exact Hvalid | exact Fx | exact I].
  - intros s'. unfold c. rewrite Hs. destruct s'; reflexivity.
  - intros a b Hab. unfold c. rewrite Hs. simpl F2R.
    pose proof (F2R_pos m e) as Hp.
    apply Rmult_le_compat_r; lra.
Qed.

Lemma div_by_finite_good (x : spec_float) : good x -> good (F32.div x c).
Proof.
  intros G. destruct (good_shape x G) as [(F & _) | [-> | ->]].
  - eapply RN_good. apply SFdiv_RN; [apply G | exact Hvalid | exact F |].
    exists s, m, e. reflexivity.
  - apply good_inf.
  - apply good_inf.
Qed.

Lemma mul_by_finite_good (x : spec_float) : good x -> good (F32.mul x c).
Proof.
  intros G. destruct (good_shape x G) as [(F & _) | [-> | ->]].
  - eapply RN_good. apply SFmul_RN; [apply G | exact Hvalid | exact F | exact I].
  - apply good_inf.
  - apply good_inf.
Qed.

End FixedOperand.

Lemma good_f0 : good f0.
Proof. split; [reflexivity | discriminate]. Qed.

Lemma good_f100 : good f100.
Proof. split; [reflexivity | discriminate]. Qed.

(** The two [if]s of [calculate_percentage], on a number of the format. *)
Lemma clamp_code_spec (p0 : spec_float) :
  good p0 ->
  let p1 := if F32.ltb p0 (F32.of_int 0) then F32.of_int 0 else p0 in
  let p := if F32.ltb (F32.of_int 100) p1 then F32.of_int 100 else p1 in
  good p
  /\ ((key p0 < 0 /\ p = f0)%R
      \/ (0 <= key p0 <= 100 /\ p = p0)%R
      \/ (100 < key p0 /\ p = f100)%R).
Proof.
  intros G. rewrite of_int_0, of_int_100. cbv zeta.
  pose proof (SFltb_key p0 f0 G good_f0) as L0.
  pose proof (SFltb_key f100 p0 good_f100 G) as L100.
  rewrite key_f100 in L100. change (key f0) with 0%R in L0.
  unfold F32.ltb.
  destruct (SFltb p0 f0) eqn:E0.
  - change (SFltb f100 f0) with false. cbv iota.
    split; [apply good_f0 |]. left. split; [apply L0; reflexivity | reflexivity].
  - destruct (SFltb f100 p0) eqn:E100.
    + split; [apply good_f100 |]. right. right.
      split; [apply L100; reflexivity | reflexivity].
    + split; [exact G |]. right. left. split; [| reflexivity].
      split.
      * destruct (Rle_or_lt 0 (key p0)) as [| Hlt]; [assumption |].
        apply L0 in Hlt. discriminate.
      * destruct (Rle_or_lt (key p0) 100) as [| Hlt]; [assumption |].
        apply L100 in Hlt. discriminate.
Qed.

Lemma nan_good (d : spec_float) :
  F32.valid d = true -> F32.is_nan d = false -> good d.
Proof.
  intros Hv Hn. split; [exact Hv |]. intros ->. discriminate.
Qed.

Section TankHeight.

Variable cfg : Config.
Hypothesis Hheight : 0 < CONFIG_TANK_HEIGHT_CM cfg <= INT_MAX.

Let tank_height : spec_float := F32.of_int (CONFIG_TANK_HEIGHT_CM cfg).

(** The value before the clamp. *)
Let raw (d : spec_float) : spec_float :=
  F32.mul (F32.div (F32.sub tank_height d) tank_height) (F32.of_int 100).

Lemma tank_height_shape :
  exists m e,
    tank_height = S754_finite false m e
    /\ valid_binary F32.prec F32.emax (S754_finite false m e) = true
    /\ (1 <= IZR (Zpos m) * bpow e <= 2147483648)%R.
Proof.
  destruct (of_int_shape (CONFIG_TANK_HEIGHT_CM cfg)) as (m & e & H1 & H2 & H3).
  - unfold is_int, INT_MIN, INT_MAX in *. lia.
  - lia.
  - replace (CONFIG_TANK_HEIGHT_CM cfg <? 0) with false in *
      by (symmetry; apply Z.ltb_ge; lia).
    exists m, e. auto.
Qed.

Lemma raw_monotone (d1 d2 : spec_float) :
  good d1 -> good d2 -> (key d1 <= key d2)%R ->
  good (raw d1) /\ good (raw d2) /\ (key (raw d2) <= key (raw d1))%R.
Proof.
  intros G1 G2 Hk. unfold raw.
  destruct tank_height_shape as (m & e & -> & Hv & _).
  destruct (sub_from_finite false m e Hv d1 d2 G1 G2 Hk) as (S1 & S2 & Sk).
  destruct (div_by_positive false m e Hv _ _ eq_refl S2 S1 Sk) as (D2 & D1 & Dk).
  rewrite of_int_100.
  destruct (mul_by_positive false 13107200 (-17) eq_refl _ _ eq_refl D2 D1 Dk)
    as (M2 & M1 & Mk).
  auto.
Qed.

Lemma calculate_percentage_unfold (d : spec_float) :
  calculate_percentage cfg d
  = (let p1 := if F32.ltb (raw d) (F32.of_int 0) then F32.of_int 0 else raw d in
     if F32.ltb (F32.of_int 100) p1 then F32.of_int 100 else p1).
Proof. reflexivity. Qed.

Lemma calculate_percentage_range (d : spec_float) :
  good d ->
  good (calculate_percentage cfg d)
  /\ (0 <= key (calculate_percentage cfg d) <= 100)%R.
Proof.
  intros G. rewrite calculate_percentage_unfold.
  destruct (raw_monotone d d G G (Rle_refl _)) as (Gr & _ & _).
  destruct (clamp_code_spec (raw d) Gr) as (Gp & Hc). cbv zeta in *.
  split; [exact Gp |].
  destruct Hc as [(H & ->) | [(H & ->) | (H & ->)]].
  - simpl. lra.
  - assumption.
  - rewrite key_f100. lra.
Qed.

Lemma calculate_percentage_antitone (d1 d2 : spec_float) :
  good d1 -> good d2 -> (key d1 <= key d2)%R ->
  (key (calculate_percentage cfg d2) <= key (calculate_percentage cfg d1))%R.
Proof.
  intros G1 G2 Hk. rewrite !calculate_percentage_unfold.
  destruct (raw_monotone d1 d2 G1 G2 Hk) as (R1 & R2 & Rk).
  destruct (clamp_code_spec (raw d1) R1) as (_ & C1).
  destruct (clamp_code_spec (raw d2) R2) as (_ & C2). cbv zeta in *.
  pose proof key_f100 as K100.
  destruct C1 as [(H1 & ->) | [(H1 & ->) | (H1 & ->)]];
    destruct C2 as [(H2 & ->) | [(H2 & ->) | (H2 & ->)]];
    rewrite ?K100; change (key f0) with 0%R; lra.
Qed.

Lemma calculate_percentage_clamp (d : spec_float) :
  calculate_percentage cfg d = clamp (raw d) (F32.of_int 0) (F32.of_int 100).
Proof.
  rewrite calculate_percentage_unfold. unfold clamp. cbv zeta.
  destruct (F32.ltb (raw d) (F32.of_int 0)); reflexivity.
Qed.

Lemma SFsub_diag (s : bool) (m : positive) (e : Z) :
  F32.sub (S754_finite s m e) (S754_finite s m e) = f0.
Proof.
  unfold F32.sub, SFsub. rewrite Z.sub_diag. reflexivity.
Qed.

Lemma div_self (m : positive) (e : Z) :
  valid_binary F32.prec F32.emax (S754_finite false m e) = true ->
  F32.div (S754_finite false m e) (S754_finite false m e) = f1.
Proof.
  intros Hv. apply (RN_exact f1).
  - reflexivity.
  - eauto.
  - rewrite F2R_f1.
    replace 1%R with (F2R (S754_finite false m e) / F2R (S754_finite false m e))%R.
    + apply SFdiv_RN; [exact Hv | exact Hv | exact I | eauto].
    + simpl F2R. pose proof (F2R_pos m e). unfold Rdiv. apply Rinv_r. lra.
Qed.

Lemma calculate_percentage_full :
  calculate_percentage cfg (F32.of_int 0) = F32.of_int 100.
Proof.
  rewrite calculate_percentage_unfold. unfold raw.
  destruct tank_height_shape as (m & e & -> & Hv & _).
  rewrite of_int_0.
  change (F32.sub (S754_finite false m e) f0) with (S754_finite false m e).
  rewrite div_self by exact Hv. reflexivity.
Qed.

Lemma calculate_percentage_empty :
  calculate_percentage cfg tank_height = F32.of_int 0.
Proof.
  rewrite calculate_percentage_unfold. unfold raw.
  destruct tank_height_shape as (m & e & -> & Hv & _).
  rewrite SFsub_diag. reflexivity.
Qed.

Lemma exponent_of_at_least_one (m : positive) (e : Z) :
  valid_binary F32.prec F32.emax (S754_finite false m e) = true ->
  (1 <= IZR (Zpos m) * bpow e)%R -> -23 <= e.
Proof.
  intros Hv H1. apply valid_canon in Hv. destruct Hv as [(HE & HM & Hn) He].
  destruct (Z.le_gt_cases (-23) e) as [| Hlt]; [assumption | exfalso].
  assert (Hb : (bpow e <= bpow (-24))%R) by (apply bpow_le; lia).
  change (-24) with (- (24)) in Hb. rewrite bpow_neg in Hb by lia.
  change (IZR (2 ^ 24)) with 16777216%R in Hb.
  assert (Hm : (IZR (Zpos m) <= 16777215)%R) by (apply (IZR_le _ 16777215); lia).
  assert (Hm0 : (0 < IZR (Zpos m))%R) by (apply (IZR_lt 0); lia).
  pose proof (bpow_gt_0 e) as Hbe.
  assert (IZR (Zpos m) * bpow e <= 16777215 * / 16777216)%R
    by (apply Rmult_le_compat; lra).
  lra.
Qed.

Lemma calculate_percentage_half :
  calculate_percentage cfg (F32.div tank_height (F32.of_int 2)) = F32.of_int 50.
Proof.
  rewrite calculate_percentage_unfold. unfold raw.
  destruct tank_height_shape as (m & e & -> & Hv & Hone & _).
  pose proof (exponent_of_at_least_one m e Hv Hone) as He.
  set (h := S754_finite false m e).
  set (g := S754_finite false m (e - 1)).
  assert (Hg : valid_binary F32.prec F32.emax g = true).
  { apply valid_canon. apply valid_canon in Hv.
    destruct Hv as [(HE & HM & Hn) He']. unfold canonP. lia. }
  assert (Hgval : F2R g = (F2R h / 2)%R).
  { simpl F2R. replace (e - 1) with (e + -1) by lia.
    rewrite bpow_plus, bpow_m1. lra. }
  pose proof (F2R_pos m e) as Hpos.
  assert (Htwo : F2R (S754_finite false 8388608 (-22)) = 2%R).
  { simpl F2R. change (-22) with (- (22)). rewrite bpow_neg by lia.
    change (IZR (2 ^ 22)) with 4194304%R. lra. }
  assert (Hhalf : F2R (S754_finite false 8388608 (-24)) = (/ 2)%R).
  { simpl F2R. change (-24) with (- (24)). rewrite bpow_neg by lia.
    change (IZR (2 ^ 24)) with 16777216%R. lra. }
  assert (E1 : F32.div h (F32.of_int 2) = g).
  { apply (RN_exact g); [exact Hg | unfold g; eauto |].
    rewrite Hgval, <- Htwo.
    apply SFdiv_RN; [exact Hv | reflexivity | exact I |].
    exists false, 8388608%positive, (-22). reflexivity. }
  assert (E2 : F32.sub h g = g).
  { apply (RN_exact g); [exact Hg | unfold g; eauto |].
    replace (F2R g) with (F2R h - F2R g)%R by (rewrite Hgval; lra).
    apply SFsub_RN; [exact Hv | exact Hg | exact I | exact I]. }
  assert (E3 : F32.div g h = S754_finite false 8388608 (-24)).
  { apply (RN_exact (S754_finite false 8388608 (-24))); [reflexivity | eauto |].
    rewrite Hhalf.
    replace (/ 2)%R with (F2R g / F2R h)%R.
    - apply SFdiv_RN; [exact Hg | exact Hv | exact I | unfold h; eauto].
    - rewrite Hgval. change (0 < F2R h)%R in Hpos.
      generalize dependent (F2R h). intros X _ HX. field. lra. }
  rewrite E1, E2, E3. reflexivity.
Qed.

End TankHeight.

Lemma leb_not_nan (a b : spec_float) :
  F32.leb a b = true -> F32.is_nan a = false /\ F32.is_nan b = false.
Proof. destruct a, b; simpl; split; try reflexivity; discriminate. Qed.

End Percentage.

(** C2. With a configured tank height [h > 0], for every binary32
    distance that is a number (finite or infinite):
    [calculate_percentage] lies between 0 and 100 and is the clamp to
    [0, 100] of [((h - distance) / h) * 100], all in binary32
    arithmetic; distance 0 gives 100, distance [h] gives 0, distance
    [h / 2] gives 50; and with [h = 100], distances 25, 150 and -10 give
    75.0, 0.0 and 100.0. *)
Theorem calculate_percentage_spec (cfg : Config) (d : F32.float) :
  0 < CONFIG_TANK_HEIGHT_CM cfg <= INT_MAX ->
  F32.valid d = true ->
  F32.is_nan d = false ->
  let tank_height := F32.of_int (CONFIG_TANK_HEIGHT_CM cfg) in
  let percentage := calculate_percentage cfg in
  (F32.leb (F32.of_int 0) (percentage d) = true
   /\ F32.leb (percentage d) (F32.of_int 100) = true)
  /\ percentage d
     = clamp (F32.mul (F32.div (F32.sub tank_height d) tank_height) (F32.of_int 100))
             (F32.of_int 0) (F32.of_int 100)
  /\ percentage (F32.of_int 0) = F32.of_int 100
  /\ percentage tank_height = F32.of_int 0
  /\ percentage (F32.div tank_height (F32.of_int 2)) = F32.of_int 50
  /\ (CONFIG_TANK_HEIGHT_CM cfg = 100 ->
      percentage (F32.of_int 25) = F32.of_int 75
      /\ format_1f (percentage (F32.of_int 25)) = "75.0"
      /\ percentage (F32.of_int 150) = F32.of_int 0
      /\ format_1f (percentage (F32.of_int 150)) = "0.0"
      /\ percentage (F32.of_int (-10)) = F32.of_int 100
      /\ format_1f (percentage (F32.of_int (-10))) = "100.0").
Proof.
  intros Hh Hv Hn. cbv zeta.
  pose proof (nan_good d Hv Hn) as G.
  destruct (calculate_percentage_range cfg Hh d G) as (Gp & Hlo & Hhi).
  repeat split.
  - apply SFleb_key; [apply good_f0 | exact Gp |]. simpl key. simpl F2R. exact Hlo.
  - apply SFleb_key; [exact Gp | apply good_f100 |].
    rewrite of_int_100, key_f100. exact Hhi.
  - apply calculate_percentage_clamp.
  - apply calculate_percentage_full. exact Hh.
  - apply calculate_percentage_empty. exact Hh.
  - apply calculate_percentage_half. exact Hh.
  - unfold calculate_percentage. rewrite H. reflexivity.
  - unfold calculate_percentage. rewrite H. reflexivity.
  - unfold calculate_percentage. rewrite H. reflexivity.
  - unfold calculate_percentage. rewrite H. reflexivity.
  - unfold calculate_percentage. rewrite H. reflexivity.
  - unfold calculate_percentage. rewrite H. reflexivity.
Qed.

Lemma calculate_percentage_spec_witness :
  F32.leb (calculate_percentage sample_config (F32.of_dyadic 135 (-1)))
          (F32.of_int 100) = true
  /\ calculate_percentage sample_config (F32.of_int 25) = F32.of_int 75.
Proof.
  assert (Hh : 0 < CONFIG_TANK_HEIGHT_CM sample_config <= INT_MAX)
    by (unfold INT_MAX; simpl; lia).
  destruct (calculate_percentage_spec sample_config (F32.of_dyadic 135 (-1))
              Hh eq_refl eq_refl)
    as ((_ & Hle) & _ & _ & _ & _ & Hs).
  split; [exact Hle | apply (Hs eq_refl)].
Defined.

(** C9. For a configured tank height [h > 0], [calculate_percentage] is
    monotone non-increasing: if [d1 <= d2] as binary32 numbers then
    [calculate_percentage d2 <= calculate_percentage d1]. *)
Theorem calculate_percentage_monotone (cfg : Config) (d1 d2 : F32.float) :
  0 < CONFIG_TANK_HEIGHT_CM cfg <= INT_MAX ->
  F32.valid d1 = true ->
  F32.valid d2 = true ->
  F32.leb d1 d2 = true ->
  F32.leb (calculate_percentage cfg d2) (calculate_percentage cfg d1) = true.
Proof.
  intros Hh Hv1 Hv2 Hle.
  destruct (leb_not_nan d1 d2 Hle) as [Hn1 Hn2].
  pose proof (nan_good d1 Hv1 Hn1) as G1.
  pose proof (nan_good d2 Hv2 Hn2) as G2.
  destruct (calculate_percentage_range cfg Hh d1 G1) as (Gp1 & _).
  destruct (calculate_percentage_range cfg Hh d2 G2) as (Gp2 & _).
  apply SFleb_key; [exact Gp2 | exact Gp1 |].
  apply calculate_percentage_antitone; try assumption.
  apply SFleb_key; assumption.
Qed.

Lemma calculate_percentage_monotone_witness :
  F32.leb (calculate_percentage sample_config (F32.of_dyadic 135 (-1)))
          (calculate_percentage sample_config (F32.of_int 25)) = true.
Proof.
  apply (calculate_percentage_monotone sample_config
           (F32.of_int 25) (F32.of_dyadic 135 (-1))).
  - unfold INT_MAX. simpl. lia.
  - reflexivity.
  - reflexivity.
  - reflexivity.
Defined.

(** ** The telemetry payload *)

Lemma In_Z_seq (n : nat) :
  forall lo z, lo <= z < lo + Z.of_nat n -> In z (Z_seq lo n).
Proof.
  induction n as [| n IH]; intros lo z Hz; simpl.
  - lia.
  - destruct (Z.eq_dec lo z) as [-> | Hne]; [left; reflexivity | right].
    apply IH. lia.
Qed.

Lemma forallb_Z_seq (P : Z -> bool) (lo : Z) (n : nat) (z : Z) :
  forallb P (Z_seq lo n) = true -> lo <= z < lo + Z.of_nat n -> P z = true.
Proof.
  intros Hall Hz. rewrite forallb_forall in Hall. apply Hall.
  apply In_Z_seq. assumption.
Qed.

Lemma mock_distance_checked (r : Z) :
  -50 < r < 50 ->
  short_decimal (format_1f (mock_distance r)) = true
  /\ F32.valid (mock_distance r) = true
  /\ exists s m e, mock_distance r = S754_finite s m e.
Proof.
  intros Hr.
  assert (Hall : forallb
            (fun r => short_decimal (format_1f (mock_distance r))
                      && F32.valid (mock_distance r)
                      && match mock_distance r with
                         | S754_finite _ _ _ => true
                         | _ => false
                         end)
            (Z_seq (-49) 99) = true) by (vm_compute; reflexivity).
  pose proof (forallb_Z_seq _ _ _ r Hall ltac:(lia)) as H. cbv beta in H.
  apply andb_true_iff in H. destruct H as [H H3].
  apply andb_true_iff in H. destruct H as [H1 H2].
  split; [exact H1 |]. split; [exact H2 |]. clear H1 H2 Hall.
  generalize dependent (mock_distance r). intros d Hd.
  destruct d as [| | | s m e]; try discriminate Hd.
  exists s, m, e. reflexivity.
Qed.

Lemma tenths_checked (t : Z) :
  0 <= t <= 1000 ->
  short_decimal (CStr.dec (t / 10) ++ "." ++ CStr.dec (t mod 10)) = true.
Proof.
  intros Ht.
  assert (Hall : forallb
            (fun t => short_decimal (CStr.dec (t / 10) ++ "." ++ CStr.dec (t mod 10)))
            (Z_seq 0 1001) = true) by (vm_compute; reflexivity).
  apply (forallb_Z_seq _ _ _ t Hall). lia.
Qed.

Lemma reading_mock (s : state) :
  exists r, -50 < r < 50 /\ reading s = mock_distance r.
Proof.
  exists (Z.rem (int32 (count s + 1)) 50). split; [| reflexivity].
  pose proof (Z.rem_bound_abs (int32 (count s + 1)) 50 ltac:(lia)). lia.
Qed.

Lemma tenths_bound (m : positive) (e : Z) :
  (IZR (Zpos m) * bpow e <= 100)%R -> 0 <= CStr.tenths m e <= 1000.
Proof.
  intros H. unfold CStr.tenths.
  destruct e as [| k | k].
  - rewrite bpow_0 in H.
    assert (Zpos m <= 100) by (apply le_IZR; lra). simpl. lia.
  - rewrite bpow_IZR, <- mult_IZR in H by lia.
    apply le_IZR in H.
    assert (0 < 2 ^ Zpos k) by (apply Z.pow_pos_nonneg; lia). nia.
  - change (Z.pow_pos 2 k) with (2 ^ Zpos k).
    change (Zneg k) with (- Zpos k) in H. rewrite bpow_neg in H by lia.
    set (d := 2 ^ Zpos k) in *.
    assert (Hd : 0 < d) by (apply Z.pow_pos_nonneg; lia).
    assert (HdR : (0 < IZR d)%R) by (apply (IZR_lt 0); assumption).
    assert (Hm : Zpos m <= 100 * d).
    { apply le_IZR. rewrite mult_IZR.
      apply Rmult_le_reg_r with (/ IZR d)%R; [apply Rinv_0_lt_compat; assumption |].
      rewrite Rmult_assoc, Rinv_r by lra. lra. }
    pose proof (Z.div_mod (10 * Zpos m) d ltac:(lia)) as Hdm.
    pose proof (Z.mod_pos_bound (10 * Zpos m) d Hd) as Hr.
    set (q := 10 * Zpos m / d) in *. set (r := (10 * Zpos m) mod d) in *.
    assert (Hq0 : 0 <= q) by (apply Z.div_pos; lia).
    assert (Hq : q <= 1000) by nia.
    destruct (Z.compare_spec (2 * r) d) as [Heq | Hlt | Hgt].
    + destruct (Z.even q); [lia | nia].
    + lia.
    + nia.
Qed.

Lemma format_percentage (p : spec_float) :
  good p -> (0 <= key p <= 100)%R -> short_decimal (CStr.format_1f p) = true.
Proof.
  intros [Hv Hn] Hk. pose proof bpow_128_big as Hbig.
  destruct p as [[] | [] | | s m e]; simpl key in Hk; simpl F2R in Hk;
    try reflexivity; try (exfalso; lra); try contradiction.
  pose proof (F2R_pos m e) as Hpos.
  destruct s; [exfalso; lra |].
  unfold CStr.format_1f. change ("" ++ ?x)%string with x.
  apply tenths_checked. apply tenths_bound. lra.
Qed.

Section Payload.

Variable cfg : Config.
Hypothesis Hheight : is_int (CONFIG_TANK_HEIGHT_CM cfg).

#[local] Arguments CStr.format_1f : simpl never.

Lemma percentage_of_finite (d : spec_float) :
  F32.valid d = true ->
  (exists s m e, d = S754_finite s m e) ->
  good (calculate_percentage cfg d)
  /\ (0 <= key (calculate_percentage cfg d) <= 100)%R.
Proof.
  intros Hv (sd & md & ed & ->).
  assert (Gd : good (S754_finite sd md ed)) by (split; [exact Hv | discriminate]).
  unfold calculate_percentage. cbv zeta.
  match goal with
  | |- context [F32.ltb ?x (F32.of_int 0)] => set (p0 := x)
  end.
  assert (G0 : good p0).
  { unfold p0. destruct (Z.eq_dec (CONFIG_TANK_HEIGHT_CM cfg) 0) as [-> | Hnz].
    - apply good_inf.
    - destruct (of_int_shape _ Hheight Hnz) as (m & e & -> & Hm & _).
      destruct (sub_from_finite _ m e Hm _ _ Gd Gd (Rle_refl _)) as (Gs & _ & _).
      apply (mul_by_finite_good false 13107200 (-17) eq_refl).
      apply div_by_finite_good; assumption. }
  destruct (clamp_code_spec p0 G0) as (Gp & Hc). cbv zeta in Gp, Hc.
  split; [exact Gp |].
  destruct Hc as [(H & ->) | [(H & ->) | (H & ->)]].
  - simpl. lra.
  - assumption.
  - rewrite key_f100. lra.
Qed.

Lemma telemetry_payload_eq (d p : spec_float) :
  short_decimal (CStr.format_1f d) = true ->
  short_decimal (CStr.format_1f p) = true ->
  telemetry_payload d p = render (measurement_record d p).
Proof.
  unfold short_decimal. intros Hd Hp.
  apply andb_true_iff in Hd, Hp. destruct Hd as [_ Hd], Hp as [_ Hp].
  apply Nat.leb_le in Hd, Hp.
  unfold telemetry_payload. rewrite snprintf_fits.
  - cbn. repeat (rewrite append_assoc; cbn). reflexivity.
  - cbn. repeat (rewrite length_append; simpl). lia.
Qed.

End Payload.

(** C7. A telemetry cycle that finds the session connected publishes
    once, on [homeassistant/sensor/<client id>/state], at QoS 0 and not
    retained, the object with the two fields [distance] and
    [percentage], each printed with one digit after the point; it then
    sleeps the reading interval, [P * 1000] ms, and stays in the loop.
    This holds for a client identity of at most 100 bytes, which is what
    the 128-byte topic buffer leaves room for, a reading interval whose
    number of milliseconds is an [int], and a tank height that is an
    [int]. *)
Theorem telemetry_publish_shape (cfg : Config) (msg_id : Z) (s : state) :
  phase s = Running ->
  mqtt_connected s = true ->
  (String.length (CONFIG_MQTT_CLIENT_ID cfg) <= 100)%nat ->
  0 <= CONFIG_READING_INTERVAL_SEC cfg * 1000 <= INT_MAX ->
  is_int (CONFIG_TANK_HEIGHT_CM cfg) ->
  let distance := reading s in
  let percentage := calculate_percentage cfg distance in
  let acts := snd (sensor_task cfg msg_id s) in
  publishes acts
  = [esp_mqtt_client_publish
       (telemetry_topic (CONFIG_MQTT_CLIENT_ID cfg))
       (render (measurement_record distance percentage)) 0 0 false]
  /\ one_decimal (format_1f distance) = true
  /\ one_decimal (format_1f percentage) = true
  /\ delays acts = [CONFIG_READING_INTERVAL_SEC cfg * 1000]
  /\ phase (fst (sensor_task cfg msg_id s)) = Running.
Proof.
  intros Hp Hc Hid HP Hh. cbv zeta.
  destruct (reading_mock s) as (r & Hr & Hread).
  destruct (mock_distance_checked r Hr) as (Hfd & Hvd & Hfin).
  rewrite <- Hread in Hfd, Hvd, Hfin.
  destruct (percentage_of_finite cfg Hh (reading s) Hvd Hfin) as (Gp & Hk).
  pose proof (format_percentage _ Gp Hk) as Hfp.
  destruct (cycle_continues cfg msg_id s Hp) as (Hphase & Hdelay).
  rewrite int32_id in Hdelay
    by (unfold is_int, INT_MIN, INT_MAX in *; lia).
  rewrite (cycle_publishes cfg msg_id s Hp), Hc.
  rewrite state_topic_eq by assumption.
  rewrite (telemetry_payload_eq _ _ Hfd Hfp).
  unfold short_decimal in Hfd, Hfp.
  apply andb_true_iff in Hfd, Hfp.
  repeat split; try assumption; [apply Hfd | apply Hfp].
Qed.

Lemma telemetry_publish_shape_witness :
  publishes (snd (sensor_task sample_config 7
                    (set_mqtt_connected true (set_phase Running initial_state))))
  = [esp_mqtt_client_publish
       (telemetry_topic "salt_level_monitor")
       (render (measurement_record
                  (F32.of_dyadic 23 (-1)) (F32.of_dyadic 177 (-1)))) 0 0 false]
  /\ delays (snd (sensor_task sample_config 7
                    (set_mqtt_connected true (set_phase Running initial_state))))
     = [60000].
Proof.
  assert (Hh : is_int (CONFIG_TANK_HEIGHT_CM sample_config))
    by (unfold is_int, INT_MIN, INT_MAX; simpl; lia).
  assert (Hid : (String.length (CONFIG_MQTT_CLIENT_ID sample_config) <= 100)%nat)
    by (simpl; lia).
  assert (HP : 0 <= CONFIG_READING_INTERVAL_SEC sample_config * 1000 <= INT_MAX)
    by (unfold INT_MAX; simpl; lia).
  destruct (telemetry_publish_shape sample_config 7
              (set_mqtt_connected true (set_phase Running initial_state))
              eq_refl eq_refl Hid HP Hh) as (H & _ & _ & D & _).
  split; [exact H | exact D].
Defined.

(** C7 (as stated, for every client identity and every period) fails at
    an identity of 101 bytes: the topic no longer fits the 128-byte
    buffer and the telemetry goes to [homeassistant/sensor/<id>/stat].
    It fails also at a period of 2147484 seconds, whose number of
    milliseconds is not an [int]: the delay asked for is negative. *)
Lemma telemetry_topic_cut_at_101_bytes :
  let id := CONFIG_MQTT_CLIENT_ID id_101_config in
  let s := set_mqtt_connected true (set_phase Running initial_state) in
  String.length id = 101%nat
  /\ state_topic id_101_config = "homeassistant/sensor/" ++ id ++ "/stat"
  /\ state_topic id_101_config <> telemetry_topic id
  /\ (forall msg_id,
        map (fun a => match a with
                      | esp_mqtt_client_publish topic _ _ _ _ => topic
                      | _ => ""
                      end)
            (publishes (snd (sensor_task id_101_config msg_id s)))
        = ["homeassistant/sensor/" ++ id ++ "/stat"])
  /\ (forall msg_id,
        delays (snd (sensor_task long_interval_config msg_id s)) = [-2147483296]).
Proof.
  cbv zeta. split; [reflexivity |]. split; [vm_compute; reflexivity |].
  split.
  - intros H. apply (f_equal String.length) in H. vm_compute in H. discriminate H.
  - split; intros msg_id.
    + rewrite (cycle_publishes id_101_config msg_id
                 (set_mqtt_connected true (set_phase Running initial_state))
                 eq_refl).
      cbn [mqtt_connected set_mqtt_connected map].
      f_equal.
    + destruct (cycle_continues long_interval_config msg_id
                  (set_mqtt_connected true (set_phase Running initial_state))
                  eq_refl) as (_ & D).
      rewrite D. reflexivity.
Qed.


(** * Further properties of the firmware *)

(** ** Runs *)

Section Runs.

Variable cfg : Config.

#[local] Arguments int32 : simpl never.
#[local] Arguments calculate_percentage : simpl never.
#[local] Arguments telemetry_payload : simpl never.
#[local] Arguments state_topic : simpl never.
#[local] Arguments distance_config_topic : simpl never.
#[local] Arguments distance_config_payload : simpl never.
#[local] Arguments percentage_config_topic : simpl never.
#[local] Arguments percentage_config_payload : simpl never.
#[local] Arguments F32.add : simpl never.
#[local] Arguments F32.mul : simpl never.
#[local] Arguments F32.of_int : simpl never.
#[local] Arguments F32.of_dyadic : simpl never.
#[local] Arguments WIFI_FAIL_BIT : simpl never.
#[local] Arguments WIFI_CONNECTED_BIT : simpl never.
#[local] Arguments Z.lor : simpl never.
#[local] Arguments Z.testbit : simpl never.
#[local] Arguments Z.add : simpl never.
#[local] Arguments Z.sub : simpl never.
#[local] Arguments Z.of_nat : simpl never.

Ltac task_split s :=
  let Hp := fresh "Hphase" in
  let Hc := fresh "Hflag" in
  unfold sensor_task, await_session, telemetry_cycle, publish_ha_discovery;
  destruct (phase s) eqn:Hp; destruct (mqtt_connected s) eqn:Hc;
  simpl; rewrite ?Hc; simpl.

Lemma run_app (ts1 ts2 : list tick) :
  forall s,
    run cfg (ts1 ++ ts2) s
    = (fst (run cfg ts2 (fst (run cfg ts1 s))),
       (snd (run cfg ts1 s) ++ snd (run cfg ts2 (fst (run cfg ts1 s))))%list).
Proof.
  induction ts1 as [| t ts1 IH]; intros s.
  - simpl. destruct (run cfg ts2 s). reflexivity.
  - change ((t :: ts1) ++ ts2)%list with (t :: (ts1 ++ ts2))%list.
    rewrite (surjective_pairing (run cfg (t :: ts1 ++ ts2) s)).
    rewrite !run_cons_state, !run_cons_actions, IH. simpl.
    rewrite app_assoc. reflexivity.
Qed.

Lemma publishes_app (a b : list action) :
  publishes (a ++ b) = (publishes a ++ publishes b)%list.
Proof. apply filter_app. Qed.

Lemma wifi_connects_app (a b : list action) :
  wifi_connects (a ++ b) = (wifi_connects a + wifi_connects b)%nat.
Proof. unfold wifi_connects. rewrite filter_app, length_app. reflexivity. Qed.

Lemma delays_app (a b : list action) :
  delays (a ++ b) = (delays a ++ delays b)%list.
Proof. apply flat_map_app. Qed.

(** The sensor task touches neither the retry counter nor the event
    group. *)
Lemma sensor_task_keeps_link (msg_id : Z) (s : state) :
  s_retry_num (fst (sensor_task cfg msg_id s)) = s_retry_num s
  /\ s_wifi_event_group (fst (sensor_task cfg msg_id s)) = s_wifi_event_group s.
Proof. task_split s; split; reflexivity. Qed.

Lemma sensor_task_no_connect (msg_id : Z) (s : state) :
  wifi_connects (snd (sensor_task cfg msg_id s)) = 0%nat.
Proof. task_split s; reflexivity. Qed.

Lemma mqtt_event_handler_frame (ev : esp_mqtt_event) (s : state) :
  s_retry_num (fst (mqtt_event_handler ev s)) = s_retry_num s
  /\ s_wifi_event_group (fst (mqtt_event_handler ev s)) = s_wifi_event_group s
  /\ count (fst (mqtt_event_handler ev s)) = count s
  /\ phase (fst (mqtt_event_handler ev s)) = phase s
  /\ wifi_connects (snd (mqtt_event_handler ev s)) = 0%nat
  /\ publishes (snd (mqtt_event_handler ev s)) = []
  /\ delays (snd (mqtt_event_handler ev s)) = [].
Proof.
  destruct ev as [| | h | | | |]; simpl; repeat split; try reflexivity;
    destruct (error_type h); reflexivity.
Qed.

Lemma event_handler_frame (ev : esp_event) (s : state) :
  mqtt_connected (fst (event_handler cfg ev s)) = mqtt_connected s
  /\ count (fst (event_handler cfg ev s)) = count s
  /\ phase (fst (event_handler cfg ev s)) = phase s
  /\ publishes (snd (event_handler cfg ev s)) = []
  /\ delays (snd (event_handler cfg ev s)) = [].
Proof.
  destruct ev as [[] | ip]; simpl;
    try destruct (s_retry_num s <? CONFIG_WIFI_MAXIMUM_RETRY cfg);
    repeat split; reflexivity.
Qed.

Lemma lor_small (b m1 m2 : Z) :
  0 <= m1 <= 3 -> 0 <= m2 <= 3 ->
  0 <= Z.lor m1 m2 <= 3 /\ Z.lor (Z.lor b m1) m2 = Z.lor b (Z.lor m1 m2).
Proof.
  intros H1 H2. split; [| symmetry; apply Z.lor_assoc].
  assert (C1 : m1 = 0 \/ m1 = 1 \/ m1 = 2 \/ m1 = 3) by lia.
  assert (C2 : m2 = 0 \/ m2 = 1 \/ m2 = 2 \/ m2 = 3) by lia.
  destruct C1 as [-> | [-> | [-> | ->]]], C2 as [-> | [-> | [-> | ->]]];
    vm_compute; split; discriminate.
Qed.

Lemma step_bits (t : tick) (s : state) :
  exists m, 0 <= m <= 3
    /\ s_wifi_event_group (fst (step cfg t s)) = Z.lor (s_wifi_event_group s) m.
Proof.
  destruct t as [ev | ev | id]; simpl.
  - destruct ev as [[] | ip]; simpl;
      try (exists 0; split; [lia | rewrite Z.lor_0_r; reflexivity]).
    + destruct (s_retry_num s <? CONFIG_WIFI_MAXIMUM_RETRY cfg); simpl.
      * exists 0. split; [lia | rewrite Z.lor_0_r; reflexivity].
      * exists 2. split; [lia | reflexivity].
    + exists 1. split; [lia | reflexivity].
  - exists 0. split; [lia |]. rewrite Z.lor_0_r.
    apply (mqtt_event_handler_frame ev s).
  - exists 0. split; [lia |]. rewrite Z.lor_0_r.
    apply (sensor_task_keeps_link id s).
Qed.

Lemma run_bits (ts : list tick) :
  forall s, exists m, 0 <= m <= 3
    /\ s_wifi_event_group (fst (run cfg ts s)) = Z.lor (s_wifi_event_group s) m.
Proof.
  induction ts as [| t ts IH]; intros s.
  - exists 0. split; [lia |]. simpl. rewrite Z.lor_0_r. reflexivity.
  - rewrite run_cons_state.
    destruct (step_bits t s) as (m1 & B1 & E1).
    destruct (IH (fst (step cfg t s))) as (m2 & B2 & E2).
    destruct (lor_small (s_wifi_event_group s) m1 m2 B1 B2) as (B & E).
    exists (Z.lor m1 m2). split; [exact B |]. rewrite E2, E1. exact E.
Qed.

Lemma testbit_lor_keeps (b m n : Z) :
  implb (Z.testbit b n) (Z.testbit (Z.lor b m) n) = true.
Proof. rewrite Z.lor_spec. destruct (Z.testbit b n); reflexivity. Qed.

(** X1. No event and no task step clears a bit of the Wi-Fi event
    group: along any execution the group only gains
    [WIFI_CONNECTED_BIT] and [WIFI_FAIL_BIT].  In particular the
    connected bit, once set, stays set when the link is lost later, and
    the failure bit is never withdrawn by a later address. *)
Theorem event_bits_only_grow (ts : list tick) (s : state) :
  let s' := fst (run cfg ts s) in
  (exists m, 0 <= m <= 3
     /\ s_wifi_event_group s' = Z.lor (s_wifi_event_group s) m)
  /\ implb (link_ready s) (link_ready s') = true
  /\ implb (link_failed s) (link_failed s') = true.
Proof.
  cbv zeta. destruct (run_bits ts s) as (m & B & E).
  split; [exists m; auto |].
  unfold link_ready, link_failed. rewrite E.
  split; apply testbit_lor_keeps.
Qed.

(** The retry counter stays within its bounds, and moves as the
    handler's calls of [esp_wifi_connect] say. *)
Lemma step_budget (t : tick) (s : state) :
  CONFIG_WIFI_MAXIMUM_RETRY cfg <= INT_MAX ->
  0 <= s_retry_num s <= CONFIG_WIFI_MAXIMUM_RETRY cfg ->
  let s' := fst (step cfg t s) in
  let connects := Z.of_nat (wifi_connects (snd (step cfg t s))) in
  0 <= s_retry_num s' <= CONFIG_WIFI_MAXIMUM_RETRY cfg
  /\ (if is_tick_got_ip t then
        s_retry_num s' = 0 /\ connects = 0
      else
        connects - s_retry_num s'
        = (if is_tick_sta_start t then 1 else 0) - s_retry_num s).
Proof.
  intros Hmax Hr. cbv zeta.
  destruct t as [ev | ev | id]; simpl.
  - destruct ev as [[] | ip]; simpl; try (split; [lia | reflexivity]).
    + destruct (s_retry_num s <? CONFIG_WIFI_MAXIMUM_RETRY cfg) eqn:Hlt; simpl.
      * apply Z.ltb_lt in Hlt.
        rewrite int32_id by (unfold is_int, INT_MIN, INT_MAX in *; lia).
        split; [lia |]. unfold wifi_connects.
        cbn [filter is_wifi_connect List.length]. lia.
      * split; [lia | reflexivity].
    + split; [lia |]. split; reflexivity.
  - destruct (mqtt_event_handler_frame ev s) as (E1 & _ & _ & _ & E2 & _).
    rewrite E1, E2. split; [lia | reflexivity].
  - destruct (sensor_task_keeps_link id s) as (E1 & _).
    rewrite E1, sensor_task_no_connect. split; [lia | reflexivity].
Qed.

(** X2. The reconnection budget.  With the retry counter within
    [0, CONFIG_WIFI_MAXIMUM_RETRY], the number of [esp_wifi_connect]
    calls of any execution is the number of station starts plus the
    growth of the retry counter plus what the address events reset, which
    is at most the maximum for each of them; so it never exceeds
    starts + (addresses + 1) * maximum, and without an address event it
    is exactly starts plus the growth of the counter. *)
Theorem reconnect_budget (ts : list tick) (s : state) :
  CONFIG_WIFI_MAXIMUM_RETRY cfg <= INT_MAX ->
  0 <= s_retry_num s <= CONFIG_WIFI_MAXIMUM_RETRY cfg ->
  let s' := fst (run cfg ts s) in
  let connects := Z.of_nat (wifi_connects (snd (run cfg ts s))) in
  let starts := Z.of_nat (count_ticks is_tick_sta_start ts) in
  let addresses := Z.of_nat (count_ticks is_tick_got_ip ts) in
  let spent := s_retry_num s' - s_retry_num s in
  starts + spent <= connects
  /\ connects <= starts + spent + addresses * CONFIG_WIFI_MAXIMUM_RETRY cfg
  /\ connects <= starts + (addresses + 1) * CONFIG_WIFI_MAXIMUM_RETRY cfg.
Proof.
  intros Hmax. cbv zeta. revert s.
  assert (Hgen : forall s,
    0 <= s_retry_num s <= CONFIG_WIFI_MAXIMUM_RETRY cfg ->
    0 <= s_retry_num (fst (run cfg ts s)) <= CONFIG_WIFI_MAXIMUM_RETRY cfg
    /\ Z.of_nat (count_ticks is_tick_sta_start ts)
       + (s_retry_num (fst (run cfg ts s)) - s_retry_num s)
       <= Z.of_nat (wifi_connects (snd (run cfg ts s)))
    /\ Z.of_nat (wifi_connects (snd (run cfg ts s)))
       <= Z.of_nat (count_ticks is_tick_sta_start ts)
          + (s_retry_num (fst (run cfg ts s)) - s_retry_num s)
          + Z.of_nat (count_ticks is_tick_got_ip ts) * CONFIG_WIFI_MAXIMUM_RETRY cfg).
  { induction ts as [| t ts IH]; intros s Hr.
    - simpl. unfold wifi_connects, count_ticks. simpl. lia.
    - rewrite run_cons_state, run_cons_actions, wifi_connects_app.
      pose proof (step_budget t s Hmax Hr) as Hs. cbv zeta in Hs.
      destruct Hs as (Hr1 & Hs).
      destruct (IH _ Hr1) as (I0 & I1 & I2).
      unfold count_ticks in *. cbn [filter]. rewrite Nat2Z.inj_add.
      set (a := Z.of_nat (List.length (filter is_tick_sta_start ts))) in *.
      set (g := Z.of_nat (List.length (filter is_tick_got_ip ts))) in *.
      assert (Hg : 0 <= g) by (unfold g; lia).
      destruct (is_tick_got_ip t) eqn:Eg.
      + assert (Es : is_tick_sta_start t = false)
          by (destruct t as [[[] | ] | |]; try discriminate; reflexivity).
        rewrite Es. destruct Hs as (Hz & Hc). cbn [List.length].
        rewrite Nat2Z.inj_succ. fold g. rewrite Hz in *.
        split; [exact I0 |]. nia.
      + destruct (is_tick_sta_start t); cbn [List.length];
          rewrite ?Nat2Z.inj_succ; fold a; fold g;
          (split; [exact I0 |]); nia. }
  intros s Hr. destruct (Hgen s Hr) as (H0 & H1 & H2).
  split; [exact H1 |]. split; [exact H2 |]. nia.
Qed.

(** X3. The session flag follows the broker events alone: after any
    execution [mqtt_connected] is what the latest of the
    [MQTT_EVENT_CONNECTED] and [MQTT_EVENT_DISCONNECTED] events says, and
    is unchanged if there was none.  Wi-Fi events (a lost link
    included), [MQTT_EVENT_ERROR] and the steps of the task leave it as
    it is. *)
Theorem session_flag_follows_broker_events (ts : list tick) (s : state) :
  mqtt_connected (fst (run cfg ts s)) = last_session_event ts (mqtt_connected s).
Proof.
  revert s. induction ts as [| t ts IH]; intros s; [reflexivity |].
  rewrite run_cons_state, IH.
  destruct t as [ev | ev | id]; simpl.
  - f_equal. apply (event_handler_frame ev s).
  - destruct ev; reflexivity.
  - f_equal. apply sensor_task_keeps_flag.
Qed.

Lemma sensor_task_silent (msg_id : Z) (s : state) :
  mqtt_connected s = false -> publishes (snd (sensor_task cfg msg_id s)) = [].
Proof. intros Hf. task_split s; try discriminate; reflexivity. Qed.

(** X4. Nothing is published before the session is established: from a
    state whose session flag is clear, an execution without an
    [MQTT_EVENT_CONNECTED] event calls [esp_mqtt_client_publish] not
    once, whatever the Wi-Fi events and however many steps the task
    takes. *)
Theorem no_publish_before_session (ts : list tick) (s : state) :
  mqtt_connected s = false ->
  forallb (fun t => negb (is_mqtt_connected_event t)) ts = true ->
  publishes (snd (run cfg ts s)) = []
  /\ mqtt_connected (fst (run cfg ts s)) = false.
Proof.
  revert s. induction ts as [| t ts IH]; intros s Hf Hts; [auto |].
  simpl in Hts. apply andb_true_iff in Hts. destruct Hts as [Ht Hts].
  rewrite run_cons_state, run_cons_actions, publishes_app.
  assert (Hstep : publishes (snd (step cfg t s)) = []
                  /\ mqtt_connected (fst (step cfg t s)) = false).
  { destruct t as [ev | ev | id]; simpl.
    - destruct (event_handler_frame ev s) as (E1 & _ & _ & E2 & _).
      rewrite E1, E2. auto.
    - destruct (mqtt_event_handler_frame ev s) as (_ & _ & _ & _ & _ & E & _).
      rewrite E. split; [reflexivity |].
      destruct ev; try discriminate; simpl; auto.
    - rewrite sensor_task_keeps_flag. split; [| exact Hf].
      apply sensor_task_silent. exact Hf. }
  destruct Hstep as (P1 & F1). destruct (IH _ F1 Hts) as (P2 & F2).
  rewrite P1, P2. auto.
Qed.

(** X5. A registration that misses its moment is lost for good.  If the
    session flag is clear when the task reaches its one call of
    [publish_ha_discovery], that call only logs, the task enters the
    telemetry loop, and no continuation of the execution, with whatever
    reconnections, publishes a discovery message. *)
Theorem discovery_lost_if_session_down (ts1 ts2 : list tick) (msg_id : Z) :
  let s := fst (run cfg ts1 initial_state) in
  phase s = PublishingDiscovery ->
  mqtt_connected s = false ->
  let whole := run cfg (ts1 ++ TaskStep msg_id :: ts2) initial_state in
  discovery_calls (snd whole) = 1%nat
  /\ discovery_messages (snd whole) = 0%nat
  /\ phase (fst whole) = Running.
Proof.
  cbv zeta. intros Hp Hf. rewrite run_app. cbn [fst snd].
  rewrite discovery_calls_app, discovery_messages_app.
  rewrite run_cons_state, run_cons_actions.
  rewrite discovery_calls_app, discovery_messages_app.
  pose proof (run_discovery cfg ts1 initial_state) as H1.
  cbv zeta in H1. change (phase initial_state) with TaskCreated in H1.
  cbv iota in H1. rewrite Hp in H1. destruct H1 as (C1 & _ & M1).
  specialize (M1 C1).
  pose proof (step_discovery cfg (TaskStep msg_id)
                (fst (run cfg ts1 initial_state))) as H2.
  cbv zeta in H2. rewrite Hp, Hf in H2. destruct H2 as (P2 & C2 & M2).
  pose proof (run_discovery cfg ts2
                (fst (step cfg (TaskStep msg_id)
                        (fst (run cfg ts1 initial_state))))) as H3.
  cbv zeta in H3. rewrite P2 in H3. destruct H3 as (P3 & C3 & M3).
  rewrite C1, M1, C2, M2, C3, M3, P3. auto.
Qed.

Lemma length_substring_le (n : nat) :
  forall s, (String.length (substring 0 n s) <= n)%nat.
Proof.
  induction n as [| n IH]; intros s.
  - destruct s; simpl; lia.
  - destruct s as [| c s]; simpl; [lia |]. specialize (IH s). lia.
Qed.

Lemma snprintf_length (size : nat) (fmt : string) (args : list printf_arg) :
  (0 < size)%nat -> (String.length (snprintf size fmt args) <? size)%nat = true.
Proof.
  intros Hs. apply Nat.ltb_lt. unfold snprintf.
  pose proof (length_substring_le (size - 1) (sprintf fmt args)). lia.
Qed.

#[local] Arguments publish_fits : simpl never.

Lemma step_fits (t : tick) (s : state) :
  forallb publish_fits (snd (step cfg t s)) = true.
Proof.
  destruct t as [ev | ev | id]; simpl.
  - destruct ev as [[] | ip]; simpl;
      try destruct (s_retry_num s <? CONFIG_WIFI_MAXIMUM_RETRY cfg); reflexivity.
  - destruct ev as [| | h | | | |]; simpl; try reflexivity.
    destruct (error_type h); reflexivity.
  - task_split s; try reflexivity;
      unfold publish_fits, state_topic, telemetry_payload, distance_config_topic,
        distance_config_payload, percentage_config_topic,
        percentage_config_payload;
      rewrite !snprintf_length by lia; reflexivity.
Qed.

(** X6. No publish carries more than its buffer holds, whatever the
    configured client identity: in any execution every topic is shorter
    than 128 bytes, every discovery payload shorter than 512 and every
    telemetry payload shorter than 256 (the sizes of the [char] arrays
    they are formatted into, one byte being the terminator). *)
Theorem publishes_fit_their_buffers (ts : list tick) (s : state) :
  forallb publish_fits (snd (run cfg ts s)) = true.
Proof.
  revert s. induction ts as [| t ts IH]; intros s; [reflexivity |].
  rewrite run_cons_actions, forallb_app, step_fits, IH. reflexivity.
Qed.

Lemma step_running (t : tick) (s : state) :
  phase s = Running ->
  let acts := snd (step cfg t s) in
  phase (fst (step cfg t s)) = Running
  /\ (List.length (publishes acts) + List.length (filter is_skip_log acts))%nat
     = (if is_task_step t then 1 else 0)%nat
  /\ delays acts
     = (if is_task_step t
        then [int32 (CONFIG_READING_INTERVAL_SEC cfg * 1000)] else [])
  /\ discovery_messages acts = 0%nat.
Proof.
  intros Hp. cbv zeta. destruct t as [ev | ev | id]; simpl.
  - destruct ev as [[] | ip]; simpl;
      try destruct (s_retry_num s <? CONFIG_WIFI_MAXIMUM_RETRY cfg);
      repeat split; assumption || reflexivity.
  - destruct ev as [| | h | | | |]; simpl;
      try (repeat split; assumption || reflexivity).
    destruct (error_type h); repeat split; assumption || reflexivity.
  - unfold sensor_task. rewrite Hp. unfold telemetry_cycle. simpl.
    destruct (mqtt_connected s); repeat split; reflexivity.
Qed.

(** X7. Once in the telemetry loop the task stays there, and every one
    of its steps does exactly one of two things, publish one telemetry
    message or log that the publish is skipped, and then sleeps for the
    configured interval; the events in between publish nothing and
    delay nothing, and no discovery message is sent. *)
Theorem telemetry_loop_accounting (ts : list tick) (s : state) :
  phase s = Running ->
  let acts := snd (run cfg ts s) in
  let cycles := count_ticks is_task_step ts in
  phase (fst (run cfg ts s)) = Running
  /\ (List.length (publishes acts) + List.length (filter is_skip_log acts))%nat
     = cycles
  /\ delays acts = repeat (int32 (CONFIG_READING_INTERVAL_SEC cfg * 1000)) cycles
  /\ discovery_messages acts = 0%nat.
Proof.
  cbv zeta. revert s. induction ts as [| t ts IH]; intros s Hp.
  - simpl. auto.
  - rewrite run_cons_state, run_cons_actions.
    rewrite publishes_app, filter_app, !length_app, delays_app,
      discovery_messages_app.
    pose proof (step_running t s Hp) as Hs. cbv zeta in Hs.
    destruct Hs as (P1 & N1 & D1 & M1).
    destruct (IH _ P1) as (P2 & N2 & D2 & M2).
    rewrite D1, D2, M1, M2. unfold count_ticks in *. cbn [filter].
    destruct (is_task_step t); cbn [List.length repeat app];
      repeat split; auto; lia.
Qed.

Lemma step_same_view (t : tick) (s1 s2 : state) :
  same_task_view s1 s2 ->
  publishes (snd (step cfg t s1)) = publishes (snd (step cfg t s2))
  /\ delays (snd (step cfg t s1)) = delays (snd (step cfg t s2))
  /\ same_task_view (fst (step cfg t s1)) (fst (step cfg t s2)).
Proof.
  intros (Hf & Hc & Hp). destruct t as [ev | ev | id]; simpl.
  - destruct (event_handler_frame ev s1) as (A1 & A2 & A3 & A4 & A5).
    destruct (event_handler_frame ev s2) as (B1 & B2 & B3 & B4 & B5).
    unfold same_task_view. rewrite A1, A2, A3, A4, A5, B1, B2, B3, B4, B5. auto.
  - destruct (mqtt_event_handler_frame ev s1) as (_ & _ & A2 & A3 & _ & A4 & A5).
    destruct (mqtt_event_handler_frame ev s2) as (_ & _ & B2 & B3 & _ & B4 & B5).
    unfold same_task_view. rewrite A2, A3, A4, A5, B2, B3, B4, B5.
    repeat split; auto. destruct ev; simpl; auto.
  - destruct s1 as [r1 g1 f1 c1 p1], s2 as [r2 g2 f2 c2 p2].
    simpl in Hf, Hc, Hp. subst f2 c2 p2.
    unfold same_task_view, sensor_task, await_session, telemetry_cycle,
      publish_ha_discovery.
    destruct p1, f1; simpl; repeat split; reflexivity.
Qed.

(** X8. The task is blind to the link.  Two states that agree on the
    session flag, the reading counter and the position of the task give
    the same publishes and the same delays under every execution,
    whatever their retry counters and event-group bits: telemetry is
    neither held back by a failed link nor started by a working one. *)
Theorem telemetry_independent_of_link (ts : list tick) (s1 s2 : state) :
  same_task_view s1 s2 ->
  publishes (snd (run cfg ts s1)) = publishes (snd (run cfg ts s2))
  /\ delays (snd (run cfg ts s1)) = delays (snd (run cfg ts s2))
  /\ same_task_view (fst (run cfg ts s1)) (fst (run cfg ts s2)).
Proof.
  revert s1 s2. induction ts as [| t ts IH]; intros s1 s2 Hv.
  - simpl. auto.
  - rewrite !run_cons_state, !run_cons_actions, !publishes_app, !delays_app.
    destruct (step_same_view t s1 s2 Hv) as (P1 & D1 & V1).
    destruct (IH _ _ V1) as (P2 & D2 & V2).
    rewrite P1, D1, P2, D2. auto.
Qed.

End Runs.

Lemma reconnect_budget_witness :
  Z.of_nat (wifi_connects (snd (run sample_config
     (WifiEvent (WIFI_EVENT WIFI_EVENT_STA_START)
      :: repeat (WifiEvent (WIFI_EVENT WIFI_EVENT_STA_DISCONNECTED)) 9)
     initial_state)))
  <= 1 + (0 + 1) * 5.
Proof.
  apply (reconnect_budget sample_config
           (WifiEvent (WIFI_EVENT WIFI_EVENT_STA_START)
            :: repeat (WifiEvent (WIFI_EVENT WIFI_EVENT_STA_DISCONNECTED)) 9)
           initial_state).
  - unfold INT_MAX. simpl. lia.
  - simpl. lia.
Defined.

Lemma no_publish_before_session_witness :
  publishes (snd (run sample_config
     [TaskStep 0; WifiEvent (IP_EVENT_STA_GOT_IP 0); TaskStep 0;
      MqttEvent MQTT_EVENT_DISCONNECTED; TaskStep 0]
     initial_state)) = []
  /\ mqtt_connected (fst (run sample_config
     [TaskStep 0; WifiEvent (IP_EVENT_STA_GOT_IP 0); TaskStep 0;
      MqttEvent MQTT_EVENT_DISCONNECTED; TaskStep 0]
     initial_state)) = false.
Proof.
  apply (no_publish_before_session sample_config
           [TaskStep 0; WifiEvent (IP_EVENT_STA_GOT_IP 0); TaskStep 0;
            MqttEvent MQTT_EVENT_DISCONNECTED; TaskStep 0] initial_state);
    reflexivity.
Defined.

Lemma discovery_lost_if_session_down_witness :
  discovery_messages
    (snd (run sample_config
            ([MqttEvent MQTT_EVENT_CONNECTED; TaskStep 1;
              MqttEvent MQTT_EVENT_DISCONNECTED]
             ++ TaskStep 1
                :: [MqttEvent MQTT_EVENT_CONNECTED; TaskStep 2; TaskStep 3])
            initial_state)) = 0%nat.
Proof.
  apply (discovery_lost_if_session_down sample_config
           [MqttEvent MQTT_EVENT_CONNECTED; TaskStep 1;
            MqttEvent MQTT_EVENT_DISCONNECTED]
           [MqttEvent MQTT_EVENT_CONNECTED; TaskStep 2; TaskStep 3] 1);
    reflexivity.
Defined.

Lemma telemetry_loop_accounting_witness :
  delays (snd (run sample_config
                   [TaskStep 1; MqttEvent MQTT_EVENT_CONNECTED; TaskStep 2]
                   (set_phase Running initial_state)))
  = [60000; 60000].
Proof.
  apply (telemetry_loop_accounting sample_config
           [TaskStep 1; MqttEvent MQTT_EVENT_CONNECTED; TaskStep 2]
           (set_phase Running initial_state)).
  reflexivity.
Defined.

Lemma telemetry_independent_of_link_witness :
  publishes (snd (run sample_config
                      [MqttEvent MQTT_EVENT_CONNECTED; TaskStep 1; TaskStep 1; TaskStep 1]
                      (xEventGroupSetBits WIFI_FAIL_BIT initial_state)))
  = publishes (snd (run sample_config
                      [MqttEvent MQTT_EVENT_CONNECTED; TaskStep 1; TaskStep 1; TaskStep 1]
                      initial_state)).
Proof.
  apply (telemetry_independent_of_link sample_config
           [MqttEvent MQTT_EVENT_CONNECTED; TaskStep 1; TaskStep 1; TaskStep 1]
           (xEventGroupSetBits WIFI_FAIL_BIT initial_state) initial_state).
  repeat split.
Defined.

(** ** The mock sensor and the conversion at their edges *)

Lemma same_float_eq (x y : spec_float) : same_float x y = true -> x = y.
Proof.
  destruct x as [a | a | | a m e], y as [b | b | | b m' e']; simpl;
    try discriminate; try reflexivity.
  - intros H. apply Bool.eqb_prop in H. congruence.
  - intros H. apply Bool.eqb_prop in H. congruence.
  - intros H. apply andb_true_iff in H. destruct H as [H He].
    apply andb_true_iff in H. destruct H as [Hs Hm].
    apply Bool.eqb_prop in Hs. apply Pos.eqb_eq in Hm. apply Z.eqb_eq in He.
    congruence.
Qed.

(** X9. The mock sensor is an exact saw-tooth.  As long as the counter
    does not overflow, the call adds one to it and returns exactly
    [10 + 1.5 * (count mod 50)] for the new count, a binary32 number
    reached without rounding error, between 10.0 and 83.5 cm. *)
Theorem read_distance_cm_sawtooth (s : state) :
  0 <= count s < INT_MAX ->
  let r := (count s + 1) mod 50 in
  count (fst (fst (read_distance_cm s))) = count s + 1
  /\ reading s = F32.of_dyadic (20 + 3 * r) (-1)
  /\ F32.valid (reading s) = true
  /\ F32.leb (F32.of_int 10) (reading s) = true
  /\ F32.leb (reading s) (F32.of_dyadic 167 (-1)) = true.
Proof.
  intros Hc. cbv zeta.
  assert (Hi : int32 (count s + 1) = count s + 1)
    by (apply int32_id; unfold is_int, INT_MIN, INT_MAX in *; lia).
  split; [unfold read_distance_cm; cbn [fst snd set_count count]; exact Hi |].
  assert (Hr : reading s = mock_distance ((count s + 1) mod 50)).
  { unfold reading, read_distance_cm. cbn [fst snd]. rewrite Hi.
    rewrite Z.rem_mod_nonneg by lia. reflexivity. }
  rewrite Hr.
  pose proof (Z.mod_pos_bound (count s + 1) 50 ltac:(lia)) as Hb.
  generalize dependent ((count s + 1) mod 50). intros r _ Hb.
  assert (Hall : forallb
            (fun r => same_float (mock_distance r) (F32.of_dyadic (20 + 3 * r) (-1))
                      && F32.valid (mock_distance r)
                      && F32.leb (F32.of_int 10) (mock_distance r)
                      && F32.leb (mock_distance r) (F32.of_dyadic 167 (-1)))
            (Z_seq 0 50) = true) by (vm_compute; reflexivity).
  pose proof (forallb_Z_seq _ _ _ r Hall ltac:(simpl; lia)) as H.
  cbv beta in H.
  apply andb_true_iff in H. destruct H as [H H4].
  apply andb_true_iff in H. destruct H as [H H3].
  apply andb_true_iff in H. destruct H as [H1 H2].
  apply same_float_eq in H1. rewrite <- H1. auto.
Qed.

Lemma read_distance_cm_sawtooth_witness :
  reading (set_count 52 initial_state) = F32.of_dyadic 29 (-1).
Proof.
  apply (read_distance_cm_sawtooth (set_count 52 initial_state)).
  unfold INT_MAX. simpl. lia.
Defined.

(** X10. A reading that is not a number is not clamped: for every
    configuration [calculate_percentage] of NaN is NaN.  With a tank
    height [h > 0] it is the only binary32 input with that result: the
    result is NaN exactly when the reading is, and every other reading
    gives a number between 0 and 100.  (With a tank height of 0 the
    zero readings give NaN as well, see X12.) *)
Theorem calculate_percentage_nan (cfg : Config) (d : F32.float) :
  calculate_percentage cfg S754_nan = S754_nan
  /\ (0 < CONFIG_TANK_HEIGHT_CM cfg <= INT_MAX ->
      F32.valid d = true ->
      F32.is_nan (calculate_percentage cfg d) = F32.is_nan d
      /\ (F32.is_nan d = false ->
          F32.leb (F32.of_int 0) (calculate_percentage cfg d) = true
          /\ F32.leb (calculate_percentage cfg d) (F32.of_int 100) = true)).
Proof.
  assert (Hnan : calculate_percentage cfg S754_nan = S754_nan).
  { unfold calculate_percentage. cbv zeta.
    generalize (F32.of_int (CONFIG_TANK_HEIGHT_CM cfg)). intros h.
    destruct h; reflexivity. }
  split; [exact Hnan |]. intros Hh Hv.
  destruct (F32.is_nan d) eqn:Hn.
  - assert (Hd : d = S754_nan) by (destruct d; try discriminate; reflexivity).
    subst d. rewrite Hnan. split; [reflexivity | discriminate].
  - pose proof (nan_good d Hv Hn) as Gd.
    destruct (calculate_percentage_range cfg Hh d Gd) as (Gp & Hp0 & Hp100).
    assert (G0 : good (F32.of_int 0)) by (split; [reflexivity | discriminate]).
    assert (G100 : good (F32.of_int 100)) by (split; [reflexivity | discriminate]).
    split.
    + destruct Gp as (_ & Gn).
      destruct (calculate_percentage cfg d); try reflexivity.
      contradiction Gn. reflexivity.
    + intros _. split; apply SFleb_key; try assumption.
      change (key (F32.of_int 100)) with (key (S754_finite false 13107200 (-17))).
      rewrite key_f100. exact Hp100.
Qed.

Lemma calculate_percentage_nan_witness :
  F32.is_nan (calculate_percentage sample_config (F32.of_dyadic 135 (-1))) = false
  /\ F32.leb (calculate_percentage sample_config (F32.of_dyadic 135 (-1)))
             (F32.of_int 100) = true.
Proof.
  assert (Hh : 0 < CONFIG_TANK_HEIGHT_CM sample_config <= INT_MAX)
    by (unfold INT_MAX; simpl; lia).
  destruct (calculate_percentage_nan sample_config (F32.of_dyadic 135 (-1)))
    as (_ & H).
  destruct (H Hh eq_refl) as (A & B).
  split; [exact A | exact (proj2 (B eq_refl))].
Defined.

(** X11. Saturation.  With a tank height [h > 0], every reading at or
    beyond [h] (plus infinity included) is reported as at most 0, hence
    as 0, and every reading at or below 0 (minus infinity included) as
    at least 100, hence as 100. *)
Theorem calculate_percentage_saturates (cfg : Config) (d : F32.float) :
  0 < CONFIG_TANK_HEIGHT_CM cfg <= INT_MAX ->
  F32.valid d = true ->
  (F32.leb (F32.of_int (CONFIG_TANK_HEIGHT_CM cfg)) d = true ->
   F32.leb (calculate_percentage cfg d) (F32.of_int 0) = true
   /\ F32.leb (F32.of_int 0) (calculate_percentage cfg d) = true)
  /\ (F32.leb d (F32.of_int 0) = true ->
      F32.leb (F32.of_int 100) (calculate_percentage cfg d) = true
      /\ F32.leb (calculate_percentage cfg d) (F32.of_int 100) = true).
Proof.
  intros Hh Hv.
  destruct (tank_height_shape cfg Hh) as (m & e & Eh & Vh & _).
  assert (Gh : good (F32.of_int (CONFIG_TANK_HEIGHT_CM cfg)))
    by (rewrite Eh; split; [exact Vh | discriminate]).
  assert (G0 : good (F32.of_int 0)) by (split; [reflexivity | discriminate]).
  assert (G100 : good (F32.of_int 100)) by (split; [reflexivity | discriminate]).
  split; intros Hle.
  - destruct (leb_not_nan _ _ Hle) as [_ Hn].
    pose proof (nan_good d Hv Hn) as Gd.
    destruct (calculate_percentage_range cfg Hh d Gd) as (Gp & Hp0 & Hp100).
    pose proof (calculate_percentage_antitone cfg Hh _ d Gh Gd
                  (proj1 (SFleb_key _ _ Gh Gd) Hle)) as Ha.
    rewrite (calculate_percentage_empty cfg Hh) in Ha.
    split; apply SFleb_key; try assumption.
  - destruct (leb_not_nan _ _ Hle) as [Hn _].
    pose proof (nan_good d Hv Hn) as Gd.
    destruct (calculate_percentage_range cfg Hh d Gd) as (Gp & Hp0 & Hp100).
    pose proof (calculate_percentage_antitone cfg Hh d _ Gd G0
                  (proj1 (SFleb_key _ _ Gd G0) Hle)) as Ha.
    rewrite (calculate_percentage_full cfg Hh) in Ha.
    split; apply SFleb_key; try assumption.
    change (key (F32.of_int 100)) with (key (S754_finite false 13107200 (-17))).
    rewrite key_f100. exact Hp100.
Qed.

Lemma calculate_percentage_saturates_witness :
  F32.leb (calculate_percentage sample_config (F32.of_int 150)) (F32.of_int 0) = true
  /\ F32.leb (F32.of_int 100)
             (calculate_percentage sample_config (F32.of_int (-10))) = true.
Proof.
  assert (Hh : 0 < CONFIG_TANK_HEIGHT_CM sample_config <= INT_MAX)
    by (unfold INT_MAX; simpl; lia).
  split.
  - destruct (calculate_percentage_saturates sample_config (F32.of_int 150)
                Hh eq_refl) as [A _].
    exact (proj1 (A eq_refl)).
  - destruct (calculate_percentage_saturates sample_config (F32.of_int (-10))
                Hh eq_refl) as [_ B].
    exact (proj1 (B eq_refl)).
Defined.

(** X12. A tank height configured as 0 divides by zero without a trap:
    a zero reading gives NaN, which passes both comparisons unclamped;
    every positive reading gives 0 and every negative reading 100, the
    infinite quotient being clamped. *)
Theorem calculate_percentage_zero_height (cfg : Config) (d : F32.float) :
  CONFIG_TANK_HEIGHT_CM cfg = 0 ->
  calculate_percentage cfg d
  = match d with
    | S754_zero _ | S754_nan => S754_nan
    | S754_infinity s | S754_finite s _ _ =>
        if s then F32.of_int 100 else F32.of_int 0
    end.
Proof.
  intros Hh. unfold calculate_percentage. rewrite Hh. cbv zeta.
  destruct d as [[] | [] | | [] m e]; reflexivity.
Qed.

Lemma calculate_percentage_zero_height_witness :
  calculate_percentage
    {| CONFIG_WIFI_MAXIMUM_RETRY := 5;
       CONFIG_MQTT_CLIENT_ID := "salt_level_monitor";
       CONFIG_TANK_HEIGHT_CM := 0;
       CONFIG_READING_INTERVAL_SEC := 60 |}
    (F32.of_int 0) = S754_nan.
Proof.
  apply (calculate_percentage_zero_height
           {| CONFIG_WIFI_MAXIMUM_RETRY := 5;
              CONFIG_MQTT_CLIENT_ID := "salt_level_monitor";
              CONFIG_TANK_HEIGHT_CM := 0;
              CONFIG_READING_INTERVAL_SEC := 60 |}
           (F32.of_int 0)).
  reflexivity.
Defined.

(** ** Boot *)

Lemma run_same_view (cfg : Config) (ts : list tick) :
  forall s1 s2,
    same_task_view s1 s2 ->
    publishes (snd (run cfg ts s1)) = publishes (snd (run cfg ts s2))
    /\ delays (snd (run cfg ts s1)) = delays (snd (run cfg ts s2))
    /\ same_task_view (fst (run cfg ts s1)) (fst (run cfg ts s2)).
Proof.
  induction ts as [| t ts IH]; intros s1 s2 Hv.
  - simpl. auto.
  - rewrite !run_cons_state, !run_cons_actions, !publishes_app, !delays_app.
    destruct (step_same_view cfg t s1 s2 Hv) as (P1 & D1 & V1).
    destruct (IH _ _ V1) as (P2 & D2 & V2).
    rewrite P1, D1, P2, D2. auto.
Qed.

Lemma count_calls_app (p : call -> bool) (a b : list call) :
  count_calls p (a ++ b) = (count_calls p a + count_calls p b)%nat.
Proof. unfold count_calls. rewrite filter_app, length_app. reflexivity. Qed.

Lemma filter_acts (p : call -> bool) (acts : list action) :
  (forall a, p (Act a) = false) -> filter p (map Act acts) = [].
Proof.
  intros Hp. induction acts as [| a acts IH]; [reflexivity |].
  simpl. rewrite Hp. exact IH.
Qed.

Lemma count_connect_calls (acts : list action) :
  count_calls is_connect_call (map Act acts) = wifi_connects acts.
Proof.
  unfold count_calls, wifi_connects.
  induction acts as [| a acts IH]; [reflexivity |].
  simpl. destruct a; simpl; rewrite ?IH; reflexivity.
Qed.

Section BootProofs.

Variable cfg : Config.

#[local] Arguments Z.lor : simpl never.
#[local] Arguments Z.land : simpl never.
#[local] Arguments Z.testbit : simpl never.
#[local] Arguments bits_set : simpl never.
#[local] Arguments int32 : simpl never.
#[local] Arguments WIFI_FAIL_BIT : simpl never.
#[local] Arguments WIFI_CONNECTED_BIT : simpl never.

Local Abbreviation wait_mask := (Z.lor WIFI_CONNECTED_BIT WIFI_FAIL_BIT).

Lemma wait_for_link_ready (evs : list esp_event) (s : state) :
  bits_set (s_wifi_event_group s) wait_mask = true ->
  wait_for_link cfg evs s = boot_ret (s_wifi_event_group s, s, evs).
Proof. intros H. destruct evs; simpl; rewrite H; reflexivity. Qed.

Lemma wait_for_link_step (ev : esp_event) (evs : list esp_event) (s : state) :
  bits_set (s_wifi_event_group s) wait_mask = false ->
  wait_for_link cfg (ev :: evs) s
  = ((map Act (snd (event_handler cfg ev s))
      ++ fst (wait_for_link cfg evs (fst (event_handler cfg ev s))))%list,
     snd (wait_for_link cfg evs (fst (event_handler cfg ev s)))).
Proof.
  intros H. simpl. rewrite H.
  destruct (event_handler cfg ev s) as [s' acts]. simpl.
  destruct (wait_for_link cfg evs s'). reflexivity.
Qed.

(** The handler logs at the information level only. *)
Lemma event_handler_no_error (ev : esp_event) (s : state) :
  filter is_unexpected_log (map Act (snd (event_handler cfg ev s))) = [].
Proof.
  destruct ev as [[] | ip]; simpl;
    try destruct (s_retry_num s <? CONFIG_WIFI_MAXIMUM_RETRY cfg); reflexivity.
Qed.

Lemma wait_for_link_trace (evs : list esp_event) :
  forall s,
    filter is_unexpected_log (fst (wait_for_link cfg evs s)) = []
    /\ filter is_application_start (fst (wait_for_link cfg evs s)) = []
    /\ filter is_nvs_init (fst (wait_for_link cfg evs s)) = []
    /\ filter is_nvs_erase (fst (wait_for_link cfg evs s)) = []
    /\ filter is_abort (fst (wait_for_link cfg evs s)) = []
    /\ aborts (snd (wait_for_link cfg evs s)) = false.
Proof.
  induction evs as [| ev evs IH]; intros s.
  - simpl. destruct (bits_set (s_wifi_event_group s) wait_mask); simpl; auto 10.
  - destruct (bits_set (s_wifi_event_group s) wait_mask) eqn:Hb.
    + rewrite wait_for_link_ready by exact Hb. simpl. auto 10.
    + rewrite wait_for_link_step by exact Hb. cbn [fst snd].
      rewrite !filter_app.
      destruct (IH (fst (event_handler cfg ev s))) as (I1 & I2 & I3 & I4 & I5 & I6).
      rewrite I1, I2, I3, I4, I5, I6, event_handler_no_error.
      rewrite !filter_acts by reflexivity. auto 10.
Qed.

(** From a cleared event group, the wait consumes events up to the first
    one that sets a bit. *)
Lemma wait_from_clear (evs : list esp_event) :
  forall s,
    s_wifi_event_group s = 0 ->
    let w := wait_for_link cfg evs s in
    match snd w with
    | Returns (bits, s', rest) =>
        exists consumed,
          evs = (consumed ++ rest)%list
          /\ s' = fst (run cfg (map WifiEvent consumed) s)
          /\ fst w = map Act (snd (run cfg (map WifiEvent consumed) s))
          /\ bits = s_wifi_event_group s'
          /\ ((bits = 1 /\ s_retry_num s' = 0)
              \/ (bits = 2 /\ CONFIG_WIFI_MAXIMUM_RETRY cfg <= s_retry_num s'))
    | Blocks =>
        s_wifi_event_group (fst (run cfg (map WifiEvent evs) s)) = 0
        /\ fst w = map Act (snd (run cfg (map WifiEvent evs) s))
    | Aborts => False
    end.
Proof.
  induction evs as [| ev evs IH]; intros s H0; cbv zeta.
  - simpl. rewrite H0. change (bits_set 0 wait_mask) with false.
    simpl. auto.
  - assert (Hb : bits_set (s_wifi_event_group s) wait_mask = false)
      by (rewrite H0; reflexivity).
    rewrite wait_for_link_step by exact Hb. cbn [fst snd].
    set (s1 := fst (event_handler cfg ev s)).
    assert (Hcase : s_wifi_event_group s1 = 0
                    \/ (s_wifi_event_group s1 = 1 /\ s_retry_num s1 = 0)
                    \/ (s_wifi_event_group s1 = 2
                        /\ CONFIG_WIFI_MAXIMUM_RETRY cfg <= s_retry_num s1)).
    { unfold s1. destruct ev as [[] | ip]; simpl; auto.
      - destruct (s_retry_num s <? CONFIG_WIFI_MAXIMUM_RETRY cfg) eqn:Hlt; simpl; auto.
        right. right. rewrite H0. apply Z.ltb_ge in Hlt. auto.
      - right. left. rewrite H0. auto. }
    change (map WifiEvent (ev :: evs)) with (WifiEvent ev :: map WifiEvent evs).
    destruct Hcase as [Hz | Hset].
    + specialize (IH s1 Hz). cbv zeta in IH.
      destruct (wait_for_link cfg evs s1) as [t [[[b s'] rest] | |]];
        cbn [fst snd] in *.
      * destruct IH as (consumed & E & Es & Et & Eb & Hc).
        exists (ev :: consumed).
        change (map WifiEvent (ev :: consumed))
          with (WifiEvent ev :: map WifiEvent consumed).
        rewrite run_cons_state, run_cons_actions, map_app.
        change (step cfg (WifiEvent ev) s) with (event_handler cfg ev s).
        fold s1. rewrite <- Et, <- Es.
        split; [simpl; congruence |]. auto.
      * contradiction.
      * destruct IH as (Ez & Et).
        rewrite run_cons_state, run_cons_actions, map_app.
        change (step cfg (WifiEvent ev) s) with (event_handler cfg ev s).
        fold s1. rewrite <- Et. auto.
    + assert (Hr : bits_set (s_wifi_event_group s1) wait_mask = true)
        by (destruct Hset as [(E & _) | (E & _)]; rewrite E; reflexivity).
      rewrite wait_for_link_ready by exact Hr. cbn [boot_ret fst snd].
      exists [ev]. cbn [map].
      rewrite run_cons_state, run_cons_actions.
      change (step cfg (WifiEvent ev) s) with (event_handler cfg ev s).
      fold s1. simpl. rewrite !app_nil_r. auto 10.
Qed.

Variable net : NetConfig.

#[local] Arguments mqtt_cfg : simpl never.
#[local] Arguments strlen : simpl never.
#[local] Arguments Z.ltb : simpl never.

Ltac split_ok r :=
  match goal with
  | |- context [is_ok r] => destruct (is_ok r); simpl
  | _ => idtac
  end.

(** What the traces of the two stages contain. *)
Lemma mqtt_app_start_facts :
  let w := mqtt_app_start cfg net in
  snd w = Returns tt
  /\ filter is_abort (fst w) = []
  /\ filter is_connect_call (fst w) = []
  /\ filter is_application_start (fst w) = [esp_mqtt_client_start]
  /\ filter is_nvs_init (fst w) = []
  /\ filter is_nvs_erase (fst w) = []
  /\ filter is_unexpected_log (fst w) = []
  /\ filter is_mqtt_client_call (fst w)
     = [esp_mqtt_client_init (mqtt_cfg cfg net);
        esp_mqtt_client_register_event; esp_mqtt_client_start].
Proof.
  cbv zeta. unfold mqtt_app_start, log_info, do_call.
  destruct (0 <? strlen (CONFIG_MQTT_USERNAME net));
    destruct (0 <? strlen (CONFIG_MQTT_PASSWORD net));
    simpl; repeat split; reflexivity.
Qed.

Lemma wifi_init_sta_facts (rets : boot_returns) (evs : list esp_event) (s : state) :
  let w := wifi_init_sta cfg net rets evs s in
  aborts (snd w) = negb (wifi_setup_ok rets)
  /\ filter is_application_start (fst w) = []
  /\ filter is_nvs_init (fst w) = []
  /\ filter is_nvs_erase (fst w) = []
  /\ filter is_unexpected_log (fst w) = []
  /\ (if aborts (snd w) then
        exists t', fst w = (t' ++ [abort])%list
                   /\ filter is_abort t' = []
                   /\ filter is_connect_call t' = []
      else filter is_abort (fst w) = []).
Proof.
  cbv zeta.
  destruct (wait_for_link_trace evs (xEventGroupCreate_state s))
    as (W1 & W2 & W3 & W4 & W5 & W6).
  destruct rets as [r1 r2 r3 r4 r5 r6 r7 r8 r9 r10 r11].
  unfold wifi_init_sta, checked, ESP_ERROR_CHECK, log_info, do_call, wifi_setup_ok.
  simpl.
  split_ok r4; [split_ok r5; [split_ok r6; [split_ok r7; [split_ok r8;
    [split_ok r9; [split_ok r10; [split_ok r11 |] |] |] |] |] |] |].
  1: { pose proof (wait_from_clear evs (xEventGroupCreate_state s) eq_refl) as Hw.
       cbv zeta in Hw.
       destruct (wait_for_link cfg evs (xEventGroupCreate_state s))
         as [t [[[b s'] rest] | |]]; try discriminate; simpl in *;
         rewrite ?filter_app, ?W1, ?W2, ?W3, ?W4, ?W5; simpl;
         repeat split; try reflexivity.
       all: destruct Hw as (consumed & _ & _ & _ & Eb & Hc);
         destruct Hc as [(B & _) | (B & _)]; rewrite B; reflexivity. }
  all: repeat split; try reflexivity;
    match goal with
    | |- exists t', ?l = _ /\ _ => exists (removelast l); simpl; repeat split; reflexivity
    end.
Qed.

Lemma wifi_init_sta_link (rets : boot_returns) (evs : list esp_event) (s : state) :
  wifi_setup_ok rets = true ->
  let w := wifi_init_sta cfg net rets evs s in
  let s0 := xEventGroupCreate_state s in
  match snd w with
  | Returns (s', rest) =>
      exists consumed,
        evs = (consumed ++ rest)%list
        /\ s' = fst (run cfg (map WifiEvent consumed) s0)
        /\ count_calls is_connect_call (fst w)
           = wifi_connects (snd (run cfg (map WifiEvent consumed) s0))
        /\ ((s_wifi_event_group s' = 1 /\ s_retry_num s' = 0
             /\ In (Act (ESP_LOG LOG_INFO "Connected to AP SSID:%s"
                                 [ArgStr (CONFIG_WIFI_SSID net)])) (fst w))
            \/ (s_wifi_event_group s' = 2
                /\ CONFIG_WIFI_MAXIMUM_RETRY cfg <= s_retry_num s'
                /\ In (Act (ESP_LOG LOG_INFO "Failed to connect to SSID:%s"
                                    [ArgStr (CONFIG_WIFI_SSID net)])) (fst w)))
  | Blocks =>
      s_wifi_event_group (fst (run cfg (map WifiEvent evs) s0)) = 0
      /\ count_calls is_connect_call (fst w)
         = wifi_connects (snd (run cfg (map WifiEvent evs) s0))
  | Aborts => False
  end.
Proof.
  intros Hok. cbv zeta.
  pose proof (wait_from_clear evs (xEventGroupCreate_state s) eq_refl) as Hw.
  cbv zeta in Hw.
  destruct rets as [r1 r2 r3 r4 r5 r6 r7 r8 r9 r10 r11].
  unfold wifi_setup_ok in Hok. simpl in Hok.
  repeat (apply andb_true_iff in Hok; destruct Hok as [Hok ?]).
  unfold wifi_init_sta, checked, ESP_ERROR_CHECK, log_info, do_call.
  simpl.
  repeat match goal with H : is_ok _ = true |- _ => rewrite H; clear H end.
  simpl.
  destruct (wait_for_link cfg evs (xEventGroupCreate_state s))
    as [t [[[b s'] rest] | |]]; cbn [fst snd] in Hw; simpl.
  - destruct Hw as (consumed & E & Es & Et & Eb & Hc).
    exists consumed. split; [exact E |]. split; [exact Es |].
    rewrite <- Eb. unfold count_calls.
    destruct Hc as [(B & R) | (B & R)]; rewrite B;
      [change (bits_set 1 WIFI_CONNECTED_BIT) with true
      | change (bits_set 2 WIFI_CONNECTED_BIT) with false;
        change (bits_set 2 WIFI_FAIL_BIT) with true ];
      cbv iota; simpl; rewrite filter_app, length_app, Et; simpl;
      (split; [rewrite Nat.add_0_r; apply count_connect_calls |]);
      [left | right]; (split; [reflexivity |]); (split; [exact R |]);
      do 12 right; apply in_or_app; right; left; reflexivity.
  - contradiction.
  - destruct Hw as (Ez & Et). split; [exact Ez |].
    unfold count_calls. simpl. rewrite Et. apply count_connect_calls.
Qed.

#[local] Arguments wifi_init_sta : simpl never.
#[local] Arguments mqtt_app_start : simpl never.

(** The storage stage of [app_main], path by path; then the two stages
    it calls, taken with the facts above. *)
Ltac storage_paths rets :=
  unfold app_main, checked, ESP_ERROR_CHECK, log_info, do_call, nvs_ready,
    trace, ending_of;
  destruct (ret_nvs_flash_init rets); simpl;
  split_ok (ret_nvs_flash_erase rets);
  split_ok (ret_nvs_flash_init_again rets).

Ltac stages rets evs F M :=
  pose proof (wifi_init_sta_facts rets evs initial_state) as F;
  pose proof mqtt_app_start_facts as M;
  cbv zeta in F, M;
  destruct (wifi_init_sta cfg net rets evs initial_state)
    as [tw [[s' rest] | |]];
  destruct (mqtt_app_start cfg net) as [tm em];
  cbn [fst snd] in F, M;
  destruct F as (F1 & F2 & F3 & F4 & F5 & F6);
  destruct M as (M0 & M1 & M2 & M3 & M4 & M5 & M6 & M7);
  subst em; cbn [aborts] in F1, F6.

(** X13. [app_main] aborts exactly when a checked call fails: when the
    storage cannot be brought up (the first [nvs_flash_init] fails with
    a code other than the two that ask for an erase, or the erase or the
    second init fails) or when one of the eight checked calls of the
    Wi-Fi bring-up fails.  [abort] is then its last call and the only
    one, no connection has been attempted, the MQTT client is not
    started and the sensor task is not created.  Otherwise [abort] is
    never called. *)
Theorem app_main_aborts_exactly (rets : boot_returns) (evs : list esp_event) :
  let m := app_main cfg net rets evs in
  aborts (ending_of m) = negb (nvs_ready rets && wifi_setup_ok rets)
  /\ (if aborts (ending_of m) then
        exists t', trace m = (t' ++ [abort])%list
                   /\ count_calls is_abort t' = 0%nat
                   /\ count_calls is_connect_call t' = 0%nat
                   /\ filter is_application_start t' = []
      else count_calls is_abort (trace m) = 0%nat).
Proof.
  cbv zeta. unfold count_calls.
  storage_paths rets;
    try (split; [reflexivity |];
         match goal with
         | |- exists t', ?l = _ /\ _ =>
             exists (removelast l); simpl; repeat split; reflexivity
         end).
  all: stages rets evs F M; simpl; rewrite <- F1; (split; [reflexivity |]).
  all: try (destruct F6 as (t' & E & A & C); subst tw;
            rewrite filter_app in F2; apply app_eq_nil in F2;
            destruct F2 as [F2 _];
            match goal with
            | |- exists t1, (?pre ++ t' ++ [abort])%list = _ /\ _ =>
                exists (pre ++ t')%list
            | |- exists t1, ?a :: ?b :: ?c :: (t' ++ [abort])%list = _ /\ _ =>
                exists (a :: b :: c :: t')%list
            | |- exists t1, ?a :: ?b :: ?c :: ?d :: ?e :: (t' ++ [abort])%list = _ /\ _ =>
                exists (a :: b :: c :: d :: e :: t')%list
            end;
            simpl; rewrite A, C, F2; repeat split; reflexivity).
  all: repeat (progress (simpl; rewrite ?filter_app, ?F6, ?M1)); reflexivity.
Qed.

(** X14. The storage bring-up of [app_main].  The flash is erased
    exactly when the first [nvs_flash_init] returns
    [ESP_ERR_NVS_NO_FREE_PAGES] or [ESP_ERR_NVS_NEW_VERSION_FOUND], and
    then once; [nvs_flash_init] is called a second time exactly when that
    erase succeeded, and never a third time.  If the storage does not
    come up, [app_main] aborts having done nothing but the storage
    calls and their log lines. *)
Theorem app_main_storage_recovery (rets : boot_returns) (evs : list esp_event) :
  let m := app_main cfg net rets evs in
  count_calls is_nvs_erase (trace m)
  = (if is_nvs_recoverable (ret_nvs_flash_init rets) then 1 else 0)%nat
  /\ count_calls is_nvs_init (trace m)
     = (if is_nvs_recoverable (ret_nvs_flash_init rets)
           && is_ok (ret_nvs_flash_erase rets) then 2 else 1)%nat
  /\ (if nvs_ready rets then True
      else aborts (ending_of m) = true
           /\ forallb is_storage_stage (trace m) = true).
Proof.
  cbv zeta. unfold count_calls.
  storage_paths rets; try (repeat split; reflexivity).
  all: stages rets evs F M;
    repeat (progress (simpl; rewrite ?filter_app, ?F3, ?F4, ?M4, ?M5));
    repeat split; reflexivity.
Qed.

Lemma wifi_events_keep_view (evs : list esp_event) :
  forall s, same_task_view (fst (run cfg (map WifiEvent evs) s)) s.
Proof.
  induction evs as [| ev evs IH]; intros s.
  - simpl. repeat split.
  - change (map WifiEvent (ev :: evs)) with (WifiEvent ev :: map WifiEvent evs).
    rewrite run_cons_state.
    change (step cfg (WifiEvent ev) s) with (event_handler cfg ev s).
    destruct (IH (fst (event_handler cfg ev s))) as (A & B & C).
    destruct (event_handler_frame cfg ev s) as (A' & B' & C' & _).
    unfold same_task_view. rewrite A, B, C. auto.
Qed.

Ltac in_trace H :=
  simpl; repeat (first [apply in_or_app; left; exact H | right]).

(** X15. How the boot-time wait ends.  When every checked call
    succeeds, [app_main] does not abort; it returns exactly when the
    delivered events set one of the two bits, having consumed the events
    up to the first that does, and stays blocked otherwise, for there is
    no timeout.  On return exactly one bit is set: either the connected
    bit, with the retry counter at 0 and the success logged, or the
    failure bit, with the retry counter at the maximum or above and the
    failure logged.  The third branch of the report, [UNEXPECTED EVENT],
    is never taken. *)
Theorem boot_link_outcome (rets : boot_returns) (evs : list esp_event) :
  nvs_ready rets && wifi_setup_ok rets = true ->
  let m := app_main cfg net rets evs in
  match ending_of m with
  | Returns (s, rest) =>
      exists consumed,
        evs = (consumed ++ rest)%list
        /\ s = fst (run cfg (map WifiEvent consumed) initial_state)
        /\ ((link_ready s = true /\ link_failed s = false
             /\ s_retry_num s = 0
             /\ In (Act (ESP_LOG LOG_INFO "Connected to AP SSID:%s"
                                 [ArgStr (CONFIG_WIFI_SSID net)])) (trace m))
            \/ (link_ready s = false /\ link_failed s = true
                /\ CONFIG_WIFI_MAXIMUM_RETRY cfg <= s_retry_num s
                /\ In (Act (ESP_LOG LOG_INFO "Failed to connect to SSID:%s"
                                    [ArgStr (CONFIG_WIFI_SSID net)])) (trace m)))
  | Blocks =>
      let s := fst (run cfg (map WifiEvent evs) initial_state) in
      link_ready s = false /\ link_failed s = false
  | Aborts => False
  end
  /\ count_calls is_unexpected_log (trace m) = 0%nat.
Proof.
  intros H. apply andb_true_iff in H. destruct H as [Hn Hw].
  pose proof (wifi_init_sta_link rets evs initial_state Hw) as L.
  cbv zeta in L. change (xEventGroupCreate_state initial_state) with initial_state in L.
  cbv zeta. unfold count_calls. revert Hn.
  storage_paths rets; intros Hn; try discriminate.
  all: stages rets evs F M; rewrite Hw in F1; try discriminate;
    cbn [fst snd] in L; simpl.
  all: try (split;
            [| repeat (progress (simpl; rewrite ?filter_app, ?F5, ?M6)); reflexivity]).
  all: try (destruct L as (Lz & _); unfold link_ready, link_failed;
            rewrite Lz; split; reflexivity).
  all: destruct L as (consumed & E & Es & _ & Hc); exists consumed;
    (split; [exact E |]); (split; [exact Es |]);
    unfold link_ready, link_failed;
    destruct Hc as [(B & R & I) | (B & R & I)]; rewrite B; [left | right];
    (split; [reflexivity |]); (split; [reflexivity |]); (split; [exact R |]);
    in_trace I.
Qed.

(** X16. The link does not gate the application.  The MQTT client is
    started and the sensor task created, in that order and once each,
    exactly when [app_main] returns, whether the wait ended on the
    connected bit or on the failure bit.  The state it leaves has the
    session flag clear, the counter at 0 and the task not yet run, so
    what the task publishes afterwards is what it publishes from the
    initial state. *)
Theorem boot_starts_application (rets : boot_returns) (evs : list esp_event) :
  let m := app_main cfg net rets evs in
  filter is_application_start (trace m)
  = (if returns (ending_of m)
     then [esp_mqtt_client_start; xTaskCreate "sensor_task" 4096 5] else [])
  /\ match ending_of m with
     | Returns (s, _) =>
         same_task_view s initial_state
         /\ forall ts, publishes (snd (run cfg ts s))
                       = publishes (snd (run cfg ts initial_state))
     | _ => True
     end.
Proof.
  pose proof (wifi_init_sta_link rets evs initial_state) as L.
  cbv zeta in L. change (xEventGroupCreate_state initial_state) with initial_state in L.
  cbv zeta.
  storage_paths rets; try (split; [reflexivity | exact I]).
  all: stages rets evs F M;
    repeat (progress (simpl; rewrite ?filter_app, ?F2, ?M3));
    (split; [reflexivity |]); try exact I.
  all: assert (Hw : wifi_setup_ok rets = true)
    by (destruct (wifi_setup_ok rets); [reflexivity | discriminate]);
    specialize (L Hw); cbn [fst snd] in L;
    destruct L as (consumed & _ & Es & _);
    assert (Hv : same_task_view s' initial_state)
      by (rewrite Es; apply wifi_events_keep_view);
    split; [exact Hv | intros ts; apply (run_same_view cfg ts _ _ Hv)].
Qed.

(** The ending of [app_main] and its connection attempts are those of
    the wait, when every check passes. *)
Lemma wifi_init_sta_wait (rets : boot_returns) (evs : list esp_event) (s : state) :
  wifi_setup_ok rets = true ->
  let w := wait_for_link cfg evs (xEventGroupCreate_state s) in
  snd (wifi_init_sta cfg net rets evs s)
  = match snd w with
    | Returns (_, s', rest) => Returns (s', rest)
    | Aborts => Aborts
    | Blocks => Blocks
    end
  /\ count_calls is_connect_call (fst (wifi_init_sta cfg net rets evs s))
     = count_calls is_connect_call (fst w).
Proof.
  intros Hok. cbv zeta.
  destruct rets as [r1 r2 r3 r4 r5 r6 r7 r8 r9 r10 r11].
  unfold wifi_setup_ok in Hok. simpl in Hok.
  repeat (apply andb_true_iff in Hok; destruct Hok as [Hok ?]).
  unfold wifi_init_sta, checked, ESP_ERROR_CHECK, log_info, do_call.
  simpl.
  repeat match goal with H : is_ok _ = true |- _ => rewrite H; clear H end.
  simpl. unfold count_calls.
  destruct (wait_for_link cfg evs (xEventGroupCreate_state s))
    as [t [[[b s'] rest] | |]]; simpl; (split; [reflexivity |]);
    try reflexivity.
  rewrite filter_app, length_app.
  destruct (bits_set b WIFI_CONNECTED_BIT);
    try destruct (bits_set b WIFI_FAIL_BIT); simpl; lia.
Qed.

Lemma app_main_wait (rets : boot_returns) (evs : list esp_event) :
  nvs_ready rets && wifi_setup_ok rets = true ->
  let w := wait_for_link cfg evs initial_state in
  ending_of (app_main cfg net rets evs)
  = match snd w with
    | Returns (_, s', rest) => Returns (s', rest)
    | Aborts => Aborts
    | Blocks => Blocks
    end
  /\ count_calls is_connect_call (trace (app_main cfg net rets evs))
     = count_calls is_connect_call (fst w).
Proof.
  intros H. apply andb_true_iff in H. destruct H as [Hn Hw].
  pose proof (wifi_init_sta_wait rets evs initial_state Hw) as L.
  cbv zeta in L. change (xEventGroupCreate_state initial_state) with initial_state in L.
  cbv zeta. unfold count_calls in *. revert Hn.
  storage_paths rets; intros Hn; try discriminate.
  all: stages rets evs F M; cbn [fst snd] in L; destruct L as (L1 & L2);
    rewrite <- L1, <- L2;
    repeat (progress (simpl; rewrite ?filter_app, ?length_app, ?M2));
    split; try reflexivity; simpl; lia.
Qed.

(** The wait through a run of disconnections within the retry limit. *)
Lemma wait_disconnects (j : nat) :
  forall s tail,
    s_wifi_event_group s = 0 ->
    0 <= s_retry_num s ->
    s_retry_num s + Z.of_nat j <= CONFIG_WIFI_MAXIMUM_RETRY cfg ->
    CONFIG_WIFI_MAXIMUM_RETRY cfg <= INT_MAX ->
    let s' := set_retry_num (s_retry_num s + Z.of_nat j) s in
    let w := wait_for_link cfg
               (repeat (WIFI_EVENT WIFI_EVENT_STA_DISCONNECTED) j ++ tail) s in
    snd w = snd (wait_for_link cfg tail s')
    /\ count_calls is_connect_call (fst w)
       = (j + count_calls is_connect_call (fst (wait_for_link cfg tail s')))%nat.
Proof.
  induction j as [| j IH]; intros s tail H0 Hr Hj Hmax; cbv zeta.
  - replace (set_retry_num (s_retry_num s + Z.of_nat 0) s) with s
      by (destruct s; unfold set_retry_num; simpl; f_equal; lia).
    simpl. auto.
  - assert (Hb : bits_set (s_wifi_event_group s) wait_mask = false)
      by (rewrite H0; reflexivity).
    change (repeat (WIFI_EVENT WIFI_EVENT_STA_DISCONNECTED) (S j) ++ tail)%list
      with (WIFI_EVENT WIFI_EVENT_STA_DISCONNECTED
            :: (repeat (WIFI_EVENT WIFI_EVENT_STA_DISCONNECTED) j ++ tail))%list.
    rewrite wait_for_link_step by exact Hb. cbn [fst snd].
    assert (Hlt : (s_retry_num s <? CONFIG_WIFI_MAXIMUM_RETRY cfg) = true)
      by (apply Z.ltb_lt; lia).
    unfold event_handler. rewrite Hlt. cbn [fst snd].
    rewrite int32_id by (unfold is_int, INT_MIN, INT_MAX in *; lia).
    specialize (IH (set_retry_num (s_retry_num s + 1) s) tail H0
                   ltac:(simpl; lia) ltac:(simpl; lia) Hmax).
    cbv zeta in IH. destruct IH as (I1 & I2).
    replace (set_retry_num
               (s_retry_num (set_retry_num (s_retry_num s + 1) s) + Z.of_nat j)
               (set_retry_num (s_retry_num s + 1) s))
      with (set_retry_num (s_retry_num s + Z.of_nat (S j)) s) in I1, I2
      by (unfold set_retry_num; simpl; f_equal; lia).
    split; [exact I1 |].
    rewrite count_calls_app, I2. reflexivity.
Qed.

(** X17. Three boots, every checked call succeeding and [j] no more
    than the retry limit.  If the station starts and is disconnected [j]
    times and nothing else arrives, [app_main] stays blocked in the
    wait, after [j + 1] connection attempts.  If an address follows, it
    returns with the connected bit alone and the retry counter back at
    0.  If [j] is the limit and one more disconnection follows, it
    returns with the failure bit alone and the counter at the limit, and
    that last disconnection triggers no attempt.  The events after the
    deciding one are left undelivered in both cases. *)
Theorem boot_link_scenarios
    (rets : boot_returns) (j : nat) (ip : Z) (later : list esp_event) :
  CONFIG_WIFI_MAXIMUM_RETRY cfg <= INT_MAX ->
  nvs_ready rets && wifi_setup_ok rets = true ->
  Z.of_nat j <= CONFIG_WIFI_MAXIMUM_RETRY cfg ->
  let attempts :=
    (WIFI_EVENT WIFI_EVENT_STA_START
     :: repeat (WIFI_EVENT WIFI_EVENT_STA_DISCONNECTED) j)%list in
  let boot := app_main cfg net rets in
  (ending_of (boot attempts) = Blocks
   /\ count_calls is_connect_call (trace (boot attempts)) = S j)
  /\ (exists s,
        ending_of (boot (attempts ++ IP_EVENT_STA_GOT_IP ip :: later)%list)
        = Returns (s, later)
        /\ s_wifi_event_group s = WIFI_CONNECTED_BIT
        /\ s_retry_num s = 0
        /\ count_calls is_connect_call
             (trace (boot (attempts ++ IP_EVENT_STA_GOT_IP ip :: later)%list))
           = S j)
  /\ (Z.of_nat j = CONFIG_WIFI_MAXIMUM_RETRY cfg ->
      exists s,
        ending_of (boot (attempts
                         ++ WIFI_EVENT WIFI_EVENT_STA_DISCONNECTED :: later)%list)
        = Returns (s, later)
        /\ s_wifi_event_group s = WIFI_FAIL_BIT
        /\ s_retry_num s = CONFIG_WIFI_MAXIMUM_RETRY cfg
        /\ count_calls is_connect_call
             (trace (boot (attempts
                           ++ WIFI_EVENT WIFI_EVENT_STA_DISCONNECTED :: later)%list))
           = S j).
Proof.
  intros Hmax Hok Hj. cbv zeta.
  assert (Hwait : forall tail,
    let w := wait_for_link cfg
               (WIFI_EVENT WIFI_EVENT_STA_START
                :: repeat (WIFI_EVENT WIFI_EVENT_STA_DISCONNECTED) j ++ tail)
               initial_state in
    let sj := set_retry_num (Z.of_nat j) initial_state in
    snd w = snd (wait_for_link cfg tail sj)
    /\ count_calls is_connect_call (fst w)
       = S (j + count_calls is_connect_call (fst (wait_for_link cfg tail sj)))).
  { intros tail. cbv zeta.
    rewrite wait_for_link_step by reflexivity. cbn [fst snd event_handler].
    destruct (wait_disconnects j initial_state tail eq_refl
                ltac:(simpl; lia) ltac:(simpl; lia) Hmax) as (W1 & W2).
    cbv zeta in W1, W2.
    change (s_retry_num initial_state + Z.of_nat j) with (Z.of_nat j) in W1, W2.
    rewrite W1. split; [reflexivity |].
    rewrite count_calls_app, W2. reflexivity. }
  split; [| split].
  - destruct (app_main_wait rets
                (WIFI_EVENT WIFI_EVENT_STA_START
                 :: repeat (WIFI_EVENT WIFI_EVENT_STA_DISCONNECTED) j) Hok)
      as (A1 & A2).
    cbv zeta in A1, A2.
    specialize (Hwait []). cbv zeta in Hwait. rewrite app_nil_r in Hwait.
    destruct Hwait as (W1 & W2). rewrite A1, A2, W1, W2.
    simpl. split; [reflexivity |]. unfold count_calls. simpl. lia.
  - destruct (app_main_wait rets
                ((WIFI_EVENT WIFI_EVENT_STA_START
                  :: repeat (WIFI_EVENT WIFI_EVENT_STA_DISCONNECTED) j)
                 ++ IP_EVENT_STA_GOT_IP ip :: later)%list Hok)
      as (A1 & A2).
    cbv zeta in A1, A2.
    specialize (Hwait (IP_EVENT_STA_GOT_IP ip :: later)). cbv zeta in Hwait.
    destruct Hwait as (W1 & W2).
    change ((WIFI_EVENT WIFI_EVENT_STA_START
             :: repeat (WIFI_EVENT WIFI_EVENT_STA_DISCONNECTED) j)
            ++ IP_EVENT_STA_GOT_IP ip :: later)%list
      with (WIFI_EVENT WIFI_EVENT_STA_START
            :: repeat (WIFI_EVENT WIFI_EVENT_STA_DISCONNECTED) j
               ++ IP_EVENT_STA_GOT_IP ip :: later)%list in A1, A2 |- *.
    rewrite A1, A2, W1, W2.
    rewrite wait_for_link_step by reflexivity. cbn [fst snd event_handler].
    rewrite wait_for_link_ready by reflexivity.
    eexists. split; [reflexivity |]. split; [reflexivity |].
    split; [reflexivity |]. unfold count_calls. simpl. lia.
  - intros Hlimit.
    destruct (app_main_wait rets
                ((WIFI_EVENT WIFI_EVENT_STA_START
                  :: repeat (WIFI_EVENT WIFI_EVENT_STA_DISCONNECTED) j)
                 ++ WIFI_EVENT WIFI_EVENT_STA_DISCONNECTED :: later)%list Hok)
      as (A1 & A2).
    cbv zeta in A1, A2.
    specialize (Hwait (WIFI_EVENT WIFI_EVENT_STA_DISCONNECTED :: later)).
    cbv zeta in Hwait. destruct Hwait as (W1 & W2).
    change ((WIFI_EVENT WIFI_EVENT_STA_START
             :: repeat (WIFI_EVENT WIFI_EVENT_STA_DISCONNECTED) j)
            ++ WIFI_EVENT WIFI_EVENT_STA_DISCONNECTED :: later)%list
      with (WIFI_EVENT WIFI_EVENT_STA_START
            :: repeat (WIFI_EVENT WIFI_EVENT_STA_DISCONNECTED) j
               ++ WIFI_EVENT WIFI_EVENT_STA_DISCONNECTED :: later)%list
      in A1, A2 |- *.
    rewrite A1, A2, W1, W2.
    rewrite wait_for_link_step by reflexivity. cbn [fst snd].
    assert (Hge : (s_retry_num (set_retry_num (Z.of_nat j) initial_state)
                   <? CONFIG_WIFI_MAXIMUM_RETRY cfg) = false)
      by (apply Z.ltb_ge; simpl; lia).
    unfold event_handler. rewrite Hge. cbn [fst snd].
    rewrite wait_for_link_ready by reflexivity.
    eexists. split; [reflexivity |]. split; [reflexivity |].
    split; [simpl; lia |]. unfold count_calls. simpl. lia.
Qed.

Lemma strlen_positive (s : string) :
  (0 <? strlen s) = match s with EmptyString => false | _ => true end.
Proof.
  destruct s as [| c s]; [reflexivity |].
  unfold strlen. apply Z.ltb_lt. simpl String.length. lia.
Qed.

(** X18. [mqtt_app_start] and the credentials.  The client is
    initialised with the configured broker URL and client identity;
    the username and the password are handed to it exactly when they
    are not empty, each on its own, and are left null otherwise, with
    one warning logged for each that is missing.  The client is then
    registered and started, nothing here being checked. *)
Theorem mqtt_app_start_credentials :
  let m := mqtt_app_start cfg net in
  ending_of m = Returns tt
  /\ filter is_mqtt_client_call (trace m)
     = [esp_mqtt_client_init
          {| broker_address_uri := CONFIG_MQTT_BROKER_URL net;
             credentials_client_id := CONFIG_MQTT_CLIENT_ID cfg;
             credentials_username := non_empty (CONFIG_MQTT_USERNAME net);
             credentials_authentication_password :=
               non_empty (CONFIG_MQTT_PASSWORD net) |};
        esp_mqtt_client_register_event;
        esp_mqtt_client_start]
  /\ count_calls is_warning (trace m)
     = (match non_empty (CONFIG_MQTT_USERNAME net) with Some _ => 0 | None => 1 end
        + match non_empty (CONFIG_MQTT_PASSWORD net) with Some _ => 0 | None => 1 end)%nat.
Proof.
  cbv zeta. unfold mqtt_app_start, mqtt_cfg, log_info, do_call, trace,
    ending_of, count_calls.
  rewrite !strlen_positive.
  destruct (CONFIG_MQTT_USERNAME net), (CONFIG_MQTT_PASSWORD net);
    simpl; repeat split; reflexivity.
Qed.

End BootProofs.

(** The log lines of the boot do not depend on the passwords beyond the
    length of the MQTT one. *)
Section Secrets.

Variable cfg : Config.
Variables net1 net2 : NetConfig.

Hypothesis same_ssid : CONFIG_WIFI_SSID net1 = CONFIG_WIFI_SSID net2.
Hypothesis same_url : CONFIG_MQTT_BROKER_URL net1 = CONFIG_MQTT_BROKER_URL net2.
Hypothesis same_username : CONFIG_MQTT_USERNAME net1 = CONFIG_MQTT_USERNAME net2.
Hypothesis same_length :
  String.length (CONFIG_MQTT_PASSWORD net1) = String.length (CONFIG_MQTT_PASSWORD net2).

#[local] Arguments bits_set : simpl never.
#[local] Arguments strlen : simpl never.
#[local] Arguments Z.ltb : simpl never.
#[local] Arguments mqtt_cfg : simpl never.

Lemma logs_of_app (a b : list call) :
  logs_of (a ++ b) = (logs_of a ++ logs_of b)%list.
Proof. apply flat_map_app. Qed.

Lemma mqtt_app_start_logs :
  logs_of (fst (mqtt_app_start cfg net1)) = logs_of (fst (mqtt_app_start cfg net2))
  /\ snd (mqtt_app_start cfg net1) = snd (mqtt_app_start cfg net2).
Proof.
  unfold mqtt_app_start, log_info, do_call.
  assert (Hl : strlen (CONFIG_MQTT_PASSWORD net1) = strlen (CONFIG_MQTT_PASSWORD net2))
    by (unfold strlen; rewrite same_length; reflexivity).
  rewrite Hl, same_url, same_username.
  destruct (0 <? strlen (CONFIG_MQTT_USERNAME net2));
    destruct (0 <? strlen (CONFIG_MQTT_PASSWORD net2));
    simpl; split; reflexivity.
Qed.

Lemma wifi_init_sta_logs (rets : boot_returns) (evs : list esp_event) (s : state) :
  logs_of (fst (wifi_init_sta cfg net1 rets evs s))
  = logs_of (fst (wifi_init_sta cfg net2 rets evs s))
  /\ snd (wifi_init_sta cfg net1 rets evs s) = snd (wifi_init_sta cfg net2 rets evs s).
Proof.
  destruct rets as [r1 r2 r3 r4 r5 r6 r7 r8 r9 r10 r11].
  unfold wifi_init_sta, checked, ESP_ERROR_CHECK, log_info, do_call.
  rewrite same_ssid. simpl.
  destruct (is_ok r4); simpl; [| split; reflexivity].
  destruct (is_ok r5); simpl; [| split; reflexivity].
  destruct (is_ok r6); simpl; [| split; reflexivity].
  destruct (is_ok r7); simpl; [| split; reflexivity].
  destruct (is_ok r8); simpl; [| split; reflexivity].
  destruct (is_ok r9); simpl; [| split; reflexivity].
  destruct (is_ok r10); simpl; [| split; reflexivity].
  destruct (is_ok r11); simpl; [| split; reflexivity].
  destruct (wait_for_link cfg evs (xEventGroupCreate_state s))
    as [t [[[b s'] rest] | |]]; simpl; split; reflexivity.
Qed.

#[local] Arguments wifi_init_sta : simpl never.
#[local] Arguments mqtt_app_start : simpl never.

(** X19. The passwords stay out of the log.  Two builds that differ
    only in the Wi-Fi password and in the MQTT password, the latter of
    the same length in both, boot with the same log lines and the same
    ending under the same return codes and events: [app_main] logs the
    length of the MQTT password and nothing else of either (the
    username, by contrast, is logged in clear). *)
Theorem boot_log_hides_passwords (rets : boot_returns) (evs : list esp_event) :
  logs_of (trace (app_main cfg net1 rets evs))
  = logs_of (trace (app_main cfg net2 rets evs))
  /\ ending_of (app_main cfg net1 rets evs) = ending_of (app_main cfg net2 rets evs).
Proof.
  destruct (wifi_init_sta_logs rets evs initial_state) as (W1 & W2).
  destruct mqtt_app_start_logs as (M1 & M2).
  unfold app_main, checked, ESP_ERROR_CHECK, log_info, do_call, trace, ending_of.
  destruct (wifi_init_sta cfg net1 rets evs initial_state) as [tw1 e1].
  destruct (wifi_init_sta cfg net2 rets evs initial_state) as [tw2 e2].
  destruct (mqtt_app_start cfg net1) as [tm1 f1].
  destruct (mqtt_app_start cfg net2) as [tm2 f2].
  cbn [fst snd] in W1, W2, M1, M2. subst e2 f2.
  destruct (ret_nvs_flash_init rets); simpl;
    try (destruct (is_ok (ret_nvs_flash_erase rets)); simpl);
    try (destruct (is_ok (ret_nvs_flash_init_again rets)); simpl);
    try (split; reflexivity).
  all: destruct e1 as [[s' rest] | |]; destruct f1 as [[] | |]; simpl;
    rewrite ?logs_of_app; simpl; rewrite ?logs_of_app, ?W1, ?M1;
    split; reflexivity.
Qed.

End Secrets.

Lemma boot_link_outcome_witness :
  count_calls is_unexpected_log
    (trace (app_main sample_config sample_net ok_returns
              [WIFI_EVENT WIFI_EVENT_STA_START;
               WIFI_EVENT WIFI_EVENT_STA_DISCONNECTED;
               IP_EVENT_STA_GOT_IP 0])) = 0%nat.
Proof.
  exact (proj2 (boot_link_outcome sample_config sample_net ok_returns
                  [WIFI_EVENT WIFI_EVENT_STA_START;
                   WIFI_EVENT WIFI_EVENT_STA_DISCONNECTED;
                   IP_EVENT_STA_GOT_IP 0] eq_refl)).
Defined.

Lemma boot_link_scenarios_witness :
  ending_of (app_main sample_config sample_net ok_returns
               (WIFI_EVENT WIFI_EVENT_STA_START
                :: repeat (WIFI_EVENT WIFI_EVENT_STA_DISCONNECTED) 5)) = Blocks
  /\ exists s,
       ending_of (app_main sample_config sample_net ok_returns
                    ((WIFI_EVENT WIFI_EVENT_STA_START
                      :: repeat (WIFI_EVENT WIFI_EVENT_STA_DISCONNECTED) 5)
                     ++ [WIFI_EVENT WIFI_EVENT_STA_DISCONNECTED])) = Returns (s, [])
       /\ s_wifi_event_group s = WIFI_FAIL_BIT.
Proof.
  assert (Hmax : CONFIG_WIFI_MAXIMUM_RETRY sample_config <= INT_MAX)
    by (unfold INT_MAX; simpl; lia).
  assert (Hj : Z.of_nat 5 <= CONFIG_WIFI_MAXIMUM_RETRY sample_config)
    by (simpl; lia).
  destruct (boot_link_scenarios sample_config sample_net ok_returns 5 0 []
              Hmax eq_refl Hj) as ((A & _) & _ & C).
  split; [exact A |].
  destruct (C eq_refl) as (s & E & B & _).
  exists s. split; [exact E | exact B].
Defined.

Lemma boot_log_hides_passwords_witness :
  logs_of (trace (app_main sample_config sample_net ok_returns
                    [WIFI_EVENT WIFI_EVENT_STA_START; IP_EVENT_STA_GOT_IP 0]))
  = logs_of (trace (app_main sample_config sample_net_rekeyed ok_returns
                      [WIFI_EVENT WIFI_EVENT_STA_START; IP_EVENT_STA_GOT_IP 0])).
Proof.
  apply (boot_log_hides_passwords sample_config sample_net sample_net_rekeyed
           eq_refl eq_refl eq_refl eq_refl ok_returns
           [WIFI_EVENT WIFI_EVENT_STA_START; IP_EVENT_STA_GOT_IP 0]).
Defined.

(** ** Identities too long for the topic buffer *)

Lemma substring_prefix_app (n : nat) :
  forall a b, (n <= String.length a)%nat -> substring 0 n (a ++ b) = substring 0 n a.
Proof.
  induction n as [| n IH]; intros a b Hn.
  - destruct a; destruct b; reflexivity.
  - destruct a as [| c a]; simpl in Hn; [lia |].
    simpl. rewrite IH by lia. reflexivity.
Qed.

Lemma length_substring_full (n : nat) :
  forall s, (n <= String.length s)%nat -> String.length (substring 0 n s) = n.
Proof.
  induction n as [| n IH]; intros s Hn.
  - destruct s; reflexivity.
  - destruct s as [| c s]; simpl in Hn; [lia |].
    simpl. rewrite IH by lia. reflexivity.
Qed.

(** X20. An overlong client identity makes the three topics one.  When
    the identity has 106 bytes or more, [snprintf] cuts each topic at 127
    bytes, before its distinguishing suffix: the two discovery topics
    and the state topic are then the same string, the first 127 bytes of
    [homeassistant/sensor/<identity>], and the truncation is not
    detected. *)
Theorem overlong_identity_merges_topics (cfg : Config) :
  (106 <= String.length (CONFIG_MQTT_CLIENT_ID cfg))%nat ->
  let t := substring 0 127 ("homeassistant/sensor/" ++ CONFIG_MQTT_CLIENT_ID cfg) in
  distance_config_topic cfg = t
  /\ percentage_config_topic cfg = t
  /\ state_topic cfg = t
  /\ String.length t = 127%nat.
Proof.
  intros Hlen. cbv zeta.
  assert (Hp : (127 <= String.length
                        ("homeassistant/sensor/" ++ CONFIG_MQTT_CLIENT_ID cfg))%nat)
    by (rewrite length_append; simpl String.length; lia).
  repeat split.
  - unfold distance_config_topic, snprintf, client_id.
    change (sprintf "homeassistant/sensor/%s/distance/config"
              [ArgStr (CONFIG_MQTT_CLIENT_ID cfg)])
      with ("homeassistant/sensor/"
            ++ (CONFIG_MQTT_CLIENT_ID cfg ++ "/distance/config")).
    rewrite <- append_assoc. apply substring_prefix_app. exact Hp.
  - unfold percentage_config_topic, snprintf, client_id.
    change (sprintf "homeassistant/sensor/%s/percentage/config"
              [ArgStr (CONFIG_MQTT_CLIENT_ID cfg)])
      with ("homeassistant/sensor/"
            ++ (CONFIG_MQTT_CLIENT_ID cfg ++ "/percentage/config")).
    rewrite <- append_assoc. apply substring_prefix_app. exact Hp.
  - unfold state_topic, snprintf, client_id.
    change (sprintf "homeassistant/sensor/%s/state"
              [ArgStr (CONFIG_MQTT_CLIENT_ID cfg)])
      with ("homeassistant/sensor/" ++ (CONFIG_MQTT_CLIENT_ID cfg ++ "/state")).
    rewrite <- append_assoc. apply substring_prefix_app. exact Hp.
  - apply length_substring_full. exact Hp.
Qed.

Lemma overlong_identity_merges_topics_witness :
  distance_config_topic overlong_id_config = state_topic overlong_id_config.
Proof.
  destruct (overlong_identity_merges_topics overlong_id_config)
    as (A & _ & C & _).
  - simpl. lia.
  - rewrite A, C. reflexivity.
Defined.

(** ** Progress while the session holds *)

Section Progress.

Variable cfg : Config.

#[local] Arguments int32 : simpl never.
#[local] Arguments calculate_percentage : simpl never.
#[local] Arguments telemetry_payload : simpl never.
#[local] Arguments state_topic : simpl never.
#[local] Arguments distance_config_topic : simpl never.
#[local] Arguments distance_config_payload : simpl never.
#[local] Arguments percentage_config_topic : simpl never.
#[local] Arguments percentage_config_payload : simpl never.
#[local] Arguments F32.add : simpl never.
#[local] Arguments F32.mul : simpl never.
#[local] Arguments F32.of_int : simpl never.
#[local] Arguments F32.of_dyadic : simpl never.

Lemma step_session_up (t : tick) (s : state) :
  mqtt_connected s = true ->
  is_mqtt_disconnected_event t = false ->
  let s' := fst (step cfg t s) in
  let acts := snd (step cfg t s) in
  mqtt_connected s' = true
  /\ if is_task_step t then
       match phase s with
       | TaskCreated | AwaitingSession =>
           phase s' = PublishingDiscovery
           /\ publishes acts = [] /\ discovery_messages acts = 0%nat
       | PublishingDiscovery =>
           phase s' = Running
           /\ List.length (publishes acts) = 2%nat
           /\ discovery_messages acts = 2%nat
       | Running =>
           phase s' = Running
           /\ List.length (publishes acts) = 1%nat
           /\ discovery_messages acts = 0%nat
       end
     else
       phase s' = phase s /\ publishes acts = [] /\ discovery_messages acts = 0%nat.
Proof.
  intros Hf Ht. cbv zeta. destruct t as [ev | ev | id]; simpl.
  - destruct (event_handler_frame cfg ev s) as (A & _ & C & D & _).
    rewrite A, C, D. repeat split; auto.
    destruct ev as [[] | ip]; simpl;
      try destruct (s_retry_num s <? CONFIG_WIFI_MAXIMUM_RETRY cfg); reflexivity.
  - destruct (mqtt_event_handler_frame ev s) as (_ & _ & _ & C & _ & D & _).
    rewrite C, D.
    destruct ev as [| | h | | | |]; try discriminate; simpl; repeat split; auto;
      destruct (error_type h); reflexivity.
  - unfold sensor_task, await_session, telemetry_cycle, publish_ha_discovery.
    destruct (phase s); simpl; rewrite ?Hf; simpl; repeat split; auto.
Qed.

(** X21. While the session holds the task makes progress.  From a state
    whose session flag is set, along any execution without an
    [MQTT_EVENT_DISCONNECTED] event, a task created or still waiting
    publishes nothing at its first step, the two discovery messages at
    its second, and one telemetry message at every step after that; so
    after [k >= 2] steps it has published [k] messages, two of them
    discovery messages, and is in the telemetry loop.  The events in
    between, Wi-Fi disconnections included, change none of this. *)
Theorem progress_while_session_holds (ts : list tick) (s : state) :
  mqtt_connected s = true ->
  forallb (fun t => negb (is_mqtt_disconnected_event t)) ts = true ->
  let acts := snd (run cfg ts s) in
  let k := count_ticks is_task_step ts in
  List.length (publishes acts) = publishes_due (phase s) k
  /\ discovery_messages acts = discovery_due (phase s) k
  /\ phase (fst (run cfg ts s)) = phase_after (phase s) k.
Proof.
  cbv zeta. revert s. induction ts as [| t ts IH]; intros s Hf Hts.
  - simpl. destruct (phase s); repeat split; reflexivity.
  - simpl in Hts. apply andb_true_iff in Hts. destruct Hts as [Ht Hts].
    apply negb_true_iff in Ht.
    rewrite run_cons_state, run_cons_actions, publishes_app, length_app,
      discovery_messages_app.
    pose proof (step_session_up t s Hf Ht) as Hs. cbv zeta in Hs.
    destruct Hs as (Hf1 & Hs).
    destruct (IH _ Hf1 Hts) as (I1 & I2 & I3).
    rewrite I1, I2, I3. unfold count_ticks. simpl filter.
    destruct (is_task_step t); simpl List.length;
      generalize (List.length (filter is_task_step ts)); intros k.
    + destruct (phase s); destruct Hs as (P & N & D); rewrite P, ?N, D;
        destruct k as [| [| k']]; repeat split; reflexivity.
    + destruct Hs as (P & N & D). rewrite P, N, D. repeat split; reflexivity.
Qed.

End Progress.

Lemma progress_while_session_holds_witness :
  List.length
    (publishes (snd (run sample_config
                       [MqttEvent MQTT_EVENT_CONNECTED; TaskStep 1; TaskStep 1;
                        WifiEvent (WIFI_EVENT WIFI_EVENT_STA_DISCONNECTED);
                        TaskStep 2; TaskStep 3]
                       (set_mqtt_connected true initial_state)))) = 4%nat.
Proof.
  apply (progress_while_session_holds sample_config
           [MqttEvent MQTT_EVENT_CONNECTED; TaskStep 1; TaskStep 1;
            WifiEvent (WIFI_EVENT WIFI_EVENT_STA_DISCONNECTED);
            TaskStep 2; TaskStep 3]
           (set_mqtt_connected true initial_state)); reflexivity.
Defined.
